(** * TAI (AppImage manager front-end): the text pipeline of [tai.py]

    A shallow embedding of the parts of [src/tai.py] that carry logic:
    the ANSI stripper, the asynchronous command [Worker], the two line
    parsers, the list controllers (installed, available, search), the
    install-success message, the installer bootstrap step and the icon
    cache.

    Python [str] values are sequences of Unicode code points, modelled as
    [list N]; [bytes] values are [list byte].  The Qt event loop, the
    external processes, the network and the file system are not part of
    the program: what they deliver is an input of the model, read the way
    the program has set them up (the channel mode of [QProcess], the
    paths it hands to [os.path.exists] and [open]). *)

From stdpp Require Import gmap.
From Stdlib Require Import NArith Lia Bool String Ascii List.
From Stdlib Require Import Strings.Byte.
Import ListNotations.

Local Open Scope N_scope.

(** A Python [str]: a list of code points. *)
Abbreviation str := (list N).

(** ** Python built-ins used by the program *)

Module Py.

Definition in_range (lo hi c : N) : bool := (lo <=? c) && (c <=? hi).

(** *** [bytes.decode(errors='replace')] (UTF-8)

    An ill-formed sequence is replaced by U+FFFD, one replacement per
    maximal ill-formed prefix, and decoding resumes at the offending
    byte. *)

Definition REPLACEMENT : N := 65533.

Definition continuation (b : N) : bool := in_range 128 191 b.

Definition second_of_3 (b0 b1 : N) : bool :=
  if b0 =? 224 then in_range 160 191 b1
  else if b0 =? 237 then in_range 128 159 b1
  else continuation b1.

Definition second_of_4 (b0 b1 : N) : bool :=
  if b0 =? 240 then in_range 144 191 b1
  else if b0 =? 244 then in_range 128 143 b1
  else continuation b1.

Fixpoint decode_replace (bs : list N) : str :=
  match bs with
  | [] => []
  | b0 :: r0 =>
    if b0 <? 128 then b0 :: decode_replace r0
    else if b0 <? 194 then REPLACEMENT :: decode_replace r0
    else if b0 <? 224 then
      match r0 with
      | [] => [REPLACEMENT]
      | b1 :: r1 =>
        if continuation b1
        then ((b0 - 192) * 64 + (b1 - 128)) :: decode_replace r1
        else REPLACEMENT :: decode_replace r0
      end
    else if b0 <? 240 then
      match r0 with
      | [] => [REPLACEMENT]
      | b1 :: r1 =>
        if second_of_3 b0 b1 then
          match r1 with
          | [] => [REPLACEMENT]
          | b2 :: r2 =>
            if continuation b2
            then ((b0 - 224) * 4096 + (b1 - 128) * 64 + (b2 - 128))
                   :: decode_replace r2
            else REPLACEMENT :: decode_replace r1
          end
        else REPLACEMENT :: decode_replace r0
      end
    else if b0 <? 245 then
      match r0 with
      | [] => [REPLACEMENT]
      | b1 :: r1 =>
        if second_of_4 b0 b1 then
          match r1 with
          | [] => [REPLACEMENT]
          | b2 :: r2 =>
            if continuation b2 then
              match r2 with
              | [] => [REPLACEMENT]
              | b3 :: r3 =>
                if continuation b3
                then ((b0 - 240) * 262144 + (b1 - 128) * 4096
                      + (b2 - 128) * 64 + (b3 - 128)) :: decode_replace r3
                else REPLACEMENT :: decode_replace r2
              end
            else REPLACEMENT :: decode_replace r1
          end
        else REPLACEMENT :: decode_replace r0
      end
    else REPLACEMENT :: decode_replace r0
  end.

Definition decode (bs : list byte) : str :=
  decode_replace (map Byte.to_N bs).

(** A source-code literal: the text of a UTF-8 encoded literal. *)
Definition lit (s : string) : str := decode (list_byte_of_string s).

(** *** Truthiness and length of a [str] *)

Definition truthy (s : str) : bool :=
  match s with [] => false | _ :: _ => true end.

Definition len (s : str) : nat := length s.

(** *** [str.isspace] on one code point, as used by [strip()] *)

Definition isspace (c : N) : bool :=
  in_range 9 13 c || in_range 28 32 c || (c =? 133) || (c =? 160)
  || (c =? 5760) || in_range 8192 8202 c || (c =? 8232) || (c =? 8233)
  || (c =? 8239) || (c =? 8287) || (c =? 12288).

Fixpoint drop_while (p : N -> bool) (s : str) : str :=
  match s with
  | [] => []
  | c :: s' => if p c then drop_while p s' else s
  end.

Definition lstrip (s : str) : str := drop_while isspace s.
Definition rstrip (s : str) : str := rev (drop_while isspace (rev s)).

(** [s.strip()] *)
Definition strip (s : str) : str := rstrip (lstrip s).

(** [s.lstrip(chars)]: every leading code point that is in [chars]. *)
Definition lstrip_chars (chars s : str) : str :=
  drop_while (fun c => existsb (N.eqb c) chars) s.

(** [s.startswith(prefix)] *)
Fixpoint startswith (s prefix : str) {struct prefix} : bool :=
  match prefix with
  | [] => true
  | p :: prefix' =>
    match s with
    | [] => false
    | c :: s' => (c =? p) && startswith s' prefix'
    end
  end.

(** [sub in s] *)
Fixpoint contains (sub s : str) : bool :=
  startswith s sub
  || match s with
     | [] => false
     | _ :: s' => contains sub s'
     end.

(** *** [s.split(sep, maxsplit)] for a non-empty [sep]

    [maxsplit = None] is Python's default (no limit).  The scan goes
    left to right over non-overlapping occurrences; [skip] counts the
    code points of an occurrence still to be passed over and [cur] is
    the current piece, reversed. *)

Definition may_split (maxsplit : option nat) : bool :=
  match maxsplit with
  | None => true
  | Some O => false
  | Some (S _) => true
  end.

Definition one_less (maxsplit : option nat) : option nat :=
  option_map Nat.pred maxsplit.

Fixpoint split_scan (sep : str) (maxsplit : option nat) (skip : nat)
         (cur s : str) : list str :=
  match s with
  | [] => [rev cur]
  | c :: s' =>
    match skip with
    | S k => split_scan sep maxsplit k cur s'
    | O =>
      if may_split maxsplit && startswith s sep
      then rev cur :: split_scan sep (one_less maxsplit)
                                 (Nat.pred (length sep)) [] s'
      else split_scan sep maxsplit 0 (c :: cur) s'
    end
  end.

Definition split (sep : str) (maxsplit : option nat) (s : str) : list str :=
  split_scan sep maxsplit 0 [] s.

(** [parts[i]] for an index the caller knows to be in range, and
    [parts[-1]] of a non-empty list. *)
Definition item (i : nat) (parts : list str) : str := nth i parts [].
Definition last_item (parts : list str) : str := last parts [].

(** *** [s.splitlines()] *)

Definition linebreak (c : N) : bool :=
  in_range 10 13 c || in_range 28 30 c || (c =? 133)
  || (c =? 8232) || (c =? 8233).

Fixpoint splitlines_scan (cur s : str) : list str :=
  match s with
  | [] => match cur with [] => [] | _ :: _ => [rev cur] end
  | c :: s' =>
    if c =? 13 then
      match s' with
      | 10 :: s'' => rev cur :: splitlines_scan [] s''
      | _ => rev cur :: splitlines_scan [] s'
      end
    else if linebreak c then rev cur :: splitlines_scan [] s'
    else splitlines_scan (c :: cur) s'
  end.

Definition splitlines (s : str) : list str := splitlines_scan [] s.

(** [sep.join(parts)] *)
Fixpoint join (sep : str) (parts : list str) : str :=
  match parts with
  | [] => []
  | [p] => p
  | p :: ps => p ++ sep ++ join sep ps
  end.

(** *** [os.path.basename] and [os.path.join] (POSIX) *)

Fixpoint basename_scan (cur p : str) : str :=
  match p with
  | [] => rev cur
  | c :: p' => if c =? 47 then basename_scan [] p'
               else basename_scan (c :: cur) p'
  end.

Definition basename (p : str) : str := basename_scan [] p.

Definition path_join (a b : str) : str :=
  if startswith b [47] then b
  else match a with
       | [] => b
       | _ :: _ => if (last a 0 =? 47) then a ++ b else a ++ [47] ++ b
       end.

End Py.

(** ** The [re] fragment used by the program

    A pattern is a sequence of atoms, each a character class taken once
    or under a greedy star.  [match_here p s] is the length of the match
    of [p] at the start of [s] found by the backtracking matcher: a star
    first takes as many code points as it can and gives them back one by
    one while the rest of the pattern fails. *)

Module Re.

Inductive atom : Type :=
| One (cls : N -> bool)
| Star (cls : N -> bool).

Definition regex := list atom.

Fixpoint match_star (cls : N -> bool) (k : str -> option nat) (s : str)
  : option nat :=
  match s with
  | [] => k []
  | c :: s' =>
    if cls c then
      match match_star cls k s' with
      | Some n => Some (S n)
      | None => k s
      end
    else k s
  end.

Fixpoint match_here (p : regex) (s : str) {struct p} : option nat :=
  match p with
  | [] => Some O
  | One cls :: p' =>
    match s with
    | [] => None
    | c :: s' => if cls c then option_map S (match_here p' s') else None
    end
  | Star cls :: p' => match_star cls (match_here p') s
  end.

(** [pattern.sub('', text)]: every leftmost non-overlapping match is
    deleted; [skip] counts the code points of the current match that
    are still to be passed over. *)
Fixpoint sub_scan (p : regex) (skip : nat) (text : str) : str :=
  match text with
  | [] => []
  | c :: rest =>
    match skip with
    | S k => sub_scan p k rest
    | O =>
      match match_here p text with
      | Some (S n) => sub_scan p n rest
      | Some O => c :: sub_scan p 0 rest
      | None => c :: sub_scan p 0 rest
      end
    end
  end.

Definition sub_empty (p : regex) (text : str) : str := sub_scan p 0 text.

End Re.

(** ** [strip_ansi_escape_codes] *)

Definition ESC : N := 27.

(** [r'\x1B\[[0-?]*[ -/]*[@-~]'] *)
Definition ansi_escape : Re.regex :=
  [ Re.One (N.eqb ESC); Re.One (N.eqb 91);
    Re.Star (Py.in_range 48 63); Re.Star (Py.in_range 32 47);
    Re.One (Py.in_range 64 126) ].

Definition strip_ansi_escape_codes (text : str) : str :=
  Re.sub_empty ansi_escape text.


(** ** [Worker]: one external command, run through [QProcess]

    [QProcess] is Qt's: the model takes what it delivers, one event per
    [readyRead...] signal with the bytes that [readAll...] returns at that
    point, followed by [finished(exit_code, exit_status)]. *)

Module Worker.

Inductive signal : Type :=
| output_ready (text : str)
| error_occurred (text : str)
| finished.

Record t : Type := mk {
  cmd : list str;
  output_data : str;
  error_data : str
}.

(** [__init__] *)
Definition init (cmd : list str) : t :=
  {| cmd := cmd; output_data := []; error_data := [] |}.

Inductive ProcessChannelMode := SeparateChannels | MergedChannels.

Record process_setup : Type := {
  program : str;
  arguments : list str;
  channel_mode : ProcessChannelMode
}.

(** [run]: what is handed to [QProcess] before [start()]. *)
Definition run (self : t) : process_setup :=
  let script_path := Py.lit "appman" in
  let args := script_path :: cmd self in
  {| program := hd [] args; arguments := tl args;
     channel_mode := MergedChannels |}.

Definition handle_stdout (self : t) (read_all : list byte) : t :=
  let data := Py.decode read_all in
  let output := strip_ansi_escape_codes data in
  {| cmd := cmd self;
     output_data := output_data self ++ output;
     error_data := error_data self |}.

Definition handle_stderr (self : t) (read_all : list byte) : t :=
  let data := Py.decode read_all in
  let error_output := strip_ansi_escape_codes data in
  {| cmd := cmd self;
     output_data := output_data self;
     error_data := error_data self ++ error_output |}.

Inductive ExitStatus := NormalExit | CrashExit.

(** [process_finished]: the signals emitted, in order. *)
Definition process_finished (self : t) (exit_code : Z)
           (exit_status : ExitStatus) : list signal :=
  (if Py.truthy (error_data self)
   then [error_occurred (error_data self)]
   else [output_ready (output_data self)])
  ++ [finished].

(** The read events of one process, as delivered to the two slots. *)
Inductive read_event : Type :=
| readyReadStandardOutput (read_all : list byte)
| readyReadStandardError (read_all : list byte).

Definition deliver (self : t) (e : read_event) : t :=
  match e with
  | readyReadStandardOutput b => handle_stdout self b
  | readyReadStandardError b => handle_stderr self b
  end.

(** The slots run on a sequence of reads, then the exit of the process.
    Which reads a process started by [run] gives rise to is
    [QProcess.reads], below. *)
Definition invocation (cmd : list str) (reads : list read_event)
           (exit_code : Z) (exit_status : ExitStatus) : list signal :=
  process_finished (fold_left deliver reads (init cmd)) exit_code exit_status.

(** The bytes that arrived on one channel, and the text the worker
    accumulates from them: each chunk is decoded and stripped on its
    own. *)
Definition stdout_chunks (reads : list read_event) : list (list byte) :=
  flat_map (fun e => match e with
                     | readyReadStandardOutput b => [b]
                     | readyReadStandardError _ => []
                     end) reads.

Definition stderr_chunks (reads : list read_event) : list (list byte) :=
  flat_map (fun e => match e with
                     | readyReadStandardOutput _ => []
                     | readyReadStandardError b => [b]
                     end) reads.

Definition accumulated (chunks : list (list byte)) : str :=
  concat (map (fun b => strip_ansi_escape_codes (Py.decode b)) chunks).

Definition is_callback (s : signal) : bool :=
  match s with
  | output_ready _ | error_occurred _ => true
  | finished => false
  end.

End Worker.

(** ** What [QProcess] delivers to the worker

    The child process writes chunks of bytes, each to one of its two
    channels.  With [SeparateChannels] a chunk comes back through the
    signal of its own channel; with [MergedChannels] the process's
    standard error is redirected into its standard output, so every
    chunk arrives with [readyReadStandardOutput], and
    [readyReadStandardError] is never emitted. *)

Module QProcess.

Inductive ProcessChannel := StandardOutput | StandardError.

Definition write : Type := ProcessChannel * list byte.

Definition read_of (mode : Worker.ProcessChannelMode) (w : write)
  : Worker.read_event :=
  match mode, fst w with
  | Worker.MergedChannels, _ => Worker.readyReadStandardOutput (snd w)
  | Worker.SeparateChannels, StandardOutput =>
    Worker.readyReadStandardOutput (snd w)
  | Worker.SeparateChannels, StandardError =>
    Worker.readyReadStandardError (snd w)
  end.

Definition reads (mode : Worker.ProcessChannelMode) (writes : list write)
  : list Worker.read_event :=
  map (read_of mode) writes.

(** The worker of [cmd] started by [Worker.run], a child process that
    writes [writes] and exits: the signals the worker emits. *)
Definition execute (cmd : list str) (writes : list write)
           (exit_code : Z) (exit_status : Worker.ExitStatus)
  : list Worker.signal :=
  let self := Worker.init cmd in
  let setup := Worker.run self in
  Worker.invocation cmd (reads (Worker.channel_mode setup) writes)
                    exit_code exit_status.

(** The bytes written to one channel. *)
Definition written (c : ProcessChannel) (writes : list write)
  : list (list byte) :=
  flat_map (fun w : write => match c, fst w with
                             | StandardOutput, StandardOutput
                             | StandardError, StandardError => [snd w]
                             | _, _ => []
                             end) writes.

End QProcess.

(** ** The entries of the list models: [(app_name, description, is_app)] *)

Definition app : Type := str * str * bool.

Definition MARKER : str := Py.lit "◆".
Definition COLON : str := Py.lit " : ".
Definition BAR : str := Py.lit "|".

(** ** [FileLoaderWorker]: the available-apps file *)

Module FileLoaderWorker.

Definition extract_app_name (app_line : str) : str :=
  let app_name :=
    if Py.contains COLON app_line
    then Py.strip (Py.lstrip_chars MARKER
           (Py.strip (Py.item 0 (Py.split COLON (Some 1%nat) app_line))))
    else Py.strip (Py.lstrip_chars MARKER (Py.strip app_line)) in
  Py.strip app_name.

Definition extract_app_description (app_line : str) : str :=
  if Py.contains COLON app_line
  then Py.strip (Py.item 1 (Py.split COLON (Some 1%nat) app_line))
  else [].

(** The body of [for line in f], with [apps.append] at the end. *)
Fixpoint loop (lines : list str) (apps : list app) : list app :=
  match lines with
  | [] => apps
  | line :: f =>
    let line := Py.strip line in
    if negb (Py.truthy line) then loop f apps
    else
      let app_name := extract_app_name line in
      let description := extract_app_description line in
      let is_app := true in
      loop f (apps ++ [(app_name, description, is_app)])
  end.

(** What reading the file gives: [open] raises, or the file yields
    these lines.  An error raised while iterating ends the loop like
    the end of the file does, with the entries appended so far. *)
Inductive file_read : Type :=
| OpenRaises
| Yields (lines : list str).

(** [run]: the list emitted through [apps_loaded]. *)
Definition run (f : file_read) : list app :=
  match f with
  | OpenRaises => []
  | Yields lines => loop lines []
  end.

End FileLoaderWorker.

(** ** [AppImageManagerGUI]: the list controllers *)

Module AppImageManagerGUI.

Definition extract_app_name (app_line : str) : str :=
  if Py.contains BAR app_line
  then Py.strip (Py.lstrip_chars MARKER
         (Py.strip (Py.item 0 (Py.split BAR None app_line))))
  else if Py.contains COLON app_line
  then Py.strip (Py.lstrip_chars MARKER
         (Py.strip (Py.item 0 (Py.split COLON (Some 1%nat) app_line))))
  else Py.strip (Py.lstrip_chars MARKER (Py.strip app_line)).

Definition extract_app_description (app_line : str) : str :=
  if Py.contains COLON app_line
  then Py.strip (Py.item 1 (Py.split COLON (Some 1%nat) app_line))
  else if Py.contains BAR app_line
  then Py.strip (Py.item 1 (Py.split BAR (Some 1%nat) app_line))
  else [].

(** *** [refresh_installed_apps]: the callback on the output of
    [appman -f] *)

Fixpoint installed_loop (lines : list str) (apps : list app) : list app :=
  match lines with
  | [] => apps
  | app_line :: rest =>
    if negb (Py.truthy (Py.strip app_line)) then installed_loop rest apps
    else
      let is_app_line := Py.startswith (Py.strip app_line) MARKER in
      if negb is_app_line then installed_loop rest apps
      else
        let app_name := extract_app_name app_line in
        let description := extract_app_description app_line in
        let description := Py.join (Py.lit " ") (Py.splitlines description) in
        installed_loop rest (apps ++ [(app_name, description, is_app_line)])
  end.

(** The list given to [AppListModel] and set on [app_list_view]. *)
Definition refresh_installed_apps_callback (output : str) : list app :=
  let apps := [] in
  if Py.truthy output then
    let lines := Py.split [10] None (Py.strip output) in
    installed_loop lines apps
  else apps.

(** *** The window state that the search reads and writes *)

Inductive effect : Type :=
| Warning (title text : str)
| Information (title text : str)
| RunScriptAsync (args : list str)
| LoadAppsFromFile (path : str).

Record gui : Type := {
  available_apps : list app;        (* what [available_list_view] shows *)
  all_available_apps : list app;    (* the session cache *)
  available_apps_loaded : bool;
  search_box : str;
  effects : list effect             (* dialogs and launches, in order *)
}.

Definition display_available_apps (self : gui) (apps : list app) : gui :=
  {| available_apps := apps;
     all_available_apps := all_available_apps self;
     available_apps_loaded := available_apps_loaded self;
     search_box := search_box self;
     effects := effects self |}.

Definition emit (self : gui) (e : effect) : gui :=
  {| available_apps := available_apps self;
     all_available_apps := all_available_apps self;
     available_apps_loaded := available_apps_loaded self;
     search_box := search_box self;
     effects := effects self ++ [e] |}.

Definition set_search_text (self : gui) (text : str) : gui :=
  {| available_apps := available_apps self;
     all_available_apps := all_available_apps self;
     available_apps_loaded := available_apps_loaded self;
     search_box := text;
     effects := effects self |}.

(** [on_apps_loaded] of [load_available_apps] *)
Definition on_apps_loaded (self : gui) (apps : list app) : gui :=
  display_available_apps
    {| available_apps := available_apps self;
       all_available_apps := apps;
       available_apps_loaded := true;
       search_box := search_box self;
       effects := effects self |} apps.

(** [load_available_apps]: starts the file loader on [app_path], the
    file [x86_64-apps] under the user's [~/.local/share/AM]. *)
Definition load_available_apps (app_path : str) (self : gui) : gui :=
  emit self (LoadAppsFromFile app_path).

(** [on_tab_changed], for the tab of the available applications. *)
Definition on_tab_changed (app_path : str) (self : gui) (index : Z) : gui :=
  if (index =? 1)%Z then
    if negb (available_apps_loaded self)
    then load_available_apps app_path self
    else display_available_apps self (all_available_apps self)
  else self.

Section Search.

(** [str.lower], with Python's Unicode case tables. *)
Variable lower : str -> str.

Definition search_hit (search_text : str) (a : app) : bool :=
  let '(app_name, description, is_app) := a in
  Py.contains (lower search_text) (lower app_name)
  || Py.contains (lower search_text) (lower description).

Definition perform_search (self : gui) : gui :=
  let search_text := Py.strip (search_box self) in
  if negb (Py.truthy search_text) then
    emit self (Warning (Py.lit "Input Required")
                       (Py.lit "Please enter a search term."))
  else
    let filtered_apps :=
      flat_map (fun a => let '(app_name, description, is_app) := a in
                         if search_hit search_text a
                         then [(app_name, description, is_app)] else [])
               (all_available_apps self) in
    display_available_apps self filtered_apps.

Definition on_search_text_changed (self : gui) (text : str) : gui :=
  if (2 <=? Py.len text)%nat then perform_search self else self.

(** [QLineEdit.textChanged]: the box holds the new text when the slot
    runs. *)
Definition text_changed (self : gui) (text : str) : gui :=
  on_search_text_changed (set_search_text self text) text.

End Search.

(** *** The success callback of the two install actions *)

Definition success_message_start : str :=
  Py.lit "The following new programs have been installed:".

(** [install_selected_appimage]: the text its [callback] displays *)
Definition install_selected_appimage_display (output : str) : str :=
  if Py.contains success_message_start output then
    let display_output :=
      Py.strip (Py.last_item (Py.split success_message_start None output)) in
    success_message_start ++ [10] ++ display_output
  else output.

Definition install_selected_appimage_callback (self : gui) (output : str)
  : gui :=
  let display_output := install_selected_appimage_display output in
  emit (emit self (Information (Py.lit "Installation Complete") display_output))
       (RunScriptAsync [Py.lit "-f"]).

(** [install_selected_appimage_from_suggested]: the same, written a
    second time in the source *)
Definition install_selected_appimage_from_suggested_display (output : str)
  : str :=
  if Py.contains success_message_start output then
    let display_output :=
      Py.strip (Py.last_item (Py.split success_message_start None output)) in
    success_message_start ++ [10] ++ display_output
  else output.

Definition install_selected_appimage_from_suggested_callback
           (self : gui) (output : str) : gui :=
  let display_output := install_selected_appimage_from_suggested_display output in
  emit (emit self (Information (Py.lit "Installation Complete") display_output))
       (RunScriptAsync [Py.lit "-f"]).

End AppImageManagerGUI.

(** ** The file system and Python's control flow

    A path names a regular file, a directory, or nothing.  The map is
    keyed by paths as the program writes them; [Os.exists_resolved] and
    [Os.open_write] read the last component of a path as the operating
    system does. *)

Inductive node : Type :=
| File (content : list byte)
| Dir.

Abbreviation fs := (gmap (list N) node).

Inductive exn : Type :=
| CalledProcessError
| OSError
| ValueError
| KeyboardInterrupt
| SystemExit.

(** [isinstance(e, Exception)] *)
Definition is_Exception (e : exn) : bool :=
  match e with
  | CalledProcessError | OSError | ValueError => true
  | KeyboardInterrupt | SystemExit => false
  end.

Module Os.

Definition path_exists (w : fs) (p : str) : bool :=
  match w !! p with
  | Some _ => true
  | None => false
  end.

Definition is_file (w : fs) (p : str) : bool :=
  match w !! p with
  | Some (File _) => true
  | _ => false
  end.

(** [os.remove(p)]: deletes a regular file, raises otherwise. *)
Definition remove (w : fs) (p : str) : fs * option exn :=
  match w !! p with
  | Some (File _) => (delete p w, None)
  | Some Dir => (w, Some OSError)
  | None => (w, Some OSError)
  end.

(** [os.makedirs(p)] *)
Definition makedirs (w : fs) (p : str) : fs * option exn :=
  match w !! p with
  | Some _ => (w, Some OSError)
  | None => (<[p := Dir]> w, None)
  end.

(** [with open(p, 'wb') as f: f.write(content)] *)
Definition write_file (w : fs) (p : str) (content : list byte)
  : fs * option exn :=
  match w !! p with
  | Some Dir => (w, Some OSError)
  | _ => (<[p := File content]> w, None)
  end.

(** A path read with its last component apart.  [cut p] is what stands
    before the last "/" of [p] and what stands after it, [None] for a
    path without "/". *)
Fixpoint cut_scan (found : option str) (seen cur : str) (p : str)
  : option (str * str) :=
  match p with
  | [] => match found with
          | Some d => Some (d, rev cur)
          | None => None
          end
  | c :: p' =>
    if c =? 47 then cut_scan (Some (rev seen)) (c :: seen) [] p'
    else cut_scan found (c :: seen) (c :: cur) p'
  end.

Definition cut (p : str) : option (str * str) := cut_scan None [] [] p.

(** [d] is a directory: the current one, written ".", or one of the map. *)
Definition is_dir (w : fs) (d : str) : bool :=
  if bool_decide (d = Py.lit ".") then true
  else match w !! d with
       | Some Dir => true
       | _ => false
       end.

(** A last component that is no entry of its directory: "" (the path
    ends in "/") and "." name the directory itself, ".." its parent. *)
Definition names_no_entry (name : str) : bool :=
  bool_decide (name = []) || bool_decide (name = Py.lit ".")
  || bool_decide (name = Py.lit "..").

(** [os.path.exists(p)] for a path whose last component may be empty, "."
    or "..": below something that is not a directory nothing exists;
    below a directory these three names always do, and any other name
    exists when the map has the path. *)
Definition exists_resolved (w : fs) (p : str) : bool :=
  match cut p with
  | None => path_exists w p
  | Some (d, name) =>
    if is_dir w d
    then (if names_no_entry name then true else path_exists w p)
    else false
  end.

(** [with open(p, 'wb') as f: f.write(content)] for such a path: it
    raises when what stands before the last "/" is not a directory, and
    when the path names a directory. *)
Definition open_write (w : fs) (p : str) (content : list byte)
  : fs * option exn :=
  match cut p with
  | None => write_file w p content
  | Some (d, name) =>
    if is_dir w d
    then (if names_no_entry name then (w, Some OSError)
          else write_file w p content)
    else (w, Some OSError)
  end.

End Os.

(** How a block of statements ends. *)
Inductive completion (A : Type) : Type :=
| Normal (a : A)
| Return (v : bool)
| Raise (e : exn).

Arguments Normal {A} a.
Arguments Return {A} v.
Arguments Raise {A} e.

(** Statements over the file system. *)
Definition M (A : Type) : Type := fs -> fs * completion A.

Definition ret {A} (a : A) : M A := fun w => (w, Normal a).

Definition bind {A B} (m : M A) (k : A -> M B) : M B :=
  fun w =>
    match m w with
    | (w', Normal a) => k a w'
    | (w', Return v) => (w', Return v)
    | (w', Raise e) => (w', Raise e)
    end.

Definition return_ {A} (v : bool) : M A := fun w => (w, Return v).

(** A call into the outside world: it may change any file, and either
    comes back with a value or raises. *)
Definition ext (A : Type) : Type := fs -> fs * (A + exn).

Definition call {A} (c : ext A) : M A :=
  fun w =>
    match c w with
    | (w', inl a) => (w', Normal a)
    | (w', inr e) => (w', Raise e)
    end.

(** [try: body / except Exception: handler / finally: final] *)
Definition try_except_finally {A} (body : M A) (handler : exn -> M A)
           (final : M unit) : M A :=
  fun w =>
    let '(w1, c1) := body w in
    let '(w2, c2) :=
      match c1 with
      | Raise e => if is_Exception e then handler e w1 else (w1, c1)
      | _ => (w1, c1)
      end in
    match final w2 with
    | (w3, Normal _) => (w3, c2)
    | (w3, Return v) => (w3, Return v)
    | (w3, Raise e) => (w3, Raise e)
    end.

#[global] Instance M_ret : MRet M := @ret.
#[global] Instance M_bind : MBind M := fun A B k m => bind m k.

(** ** The bootstrap step [download_and_run_am_installer] *)

Module Bootstrap.

Definition AM_INSTALLER : str := Py.lit "./AM-INSTALLER".

(** The outside world of the step: each call may raise. *)
Record env : Type := {
  wget : ext unit;           (* subprocess.run(["wget", ...], check=True) *)
  chmod : ext unit;          (* subprocess.run(["chmod", ...], check=True) *)
  popen : ext unit;          (* subprocess.Popen(["./AM-INSTALLER"], ...) *)
  communicate : ext Z;       (* process.communicate(...); process.returncode *)
  stderr_read : ext str;     (* process.stderr.read() *)
  critical : ext unit        (* QMessageBox.critical(...) *)
}.

Definition try_body (e : env) : M unit :=
  call (wget e) ;;
  call (chmod e) ;;
  call (popen e) ;;
  returncode ← call (communicate e) ;
  if negb (returncode =? 0)%Z then
    call (stderr_read e) ;;
    call (critical e) ;;
    return_ false
  else mret tt.

Definition except_Exception (e : env) (_ : exn) : M unit :=
  call (critical e) ;;
  return_ false.

Definition finally_clause : M unit :=
  fun w =>
    if Os.path_exists w AM_INSTALLER then
      match Os.remove w AM_INSTALLER with
      | (w', None) => (w', Normal tt)
      | (w', Some x) => (w', Raise x)
      end
    else (w, Normal tt).

Definition download_and_run_am_installer (e : env) : M unit :=
  try_except_finally (try_body e) (except_Exception e) finally_clause ;;
  return_ true.

End Bootstrap.

(** ** The icon cache *)

Module Icons.

Definition ICON_CACHE_DIR : str := Py.lit "./icon_cache".

(** The files, and the URLs requested so far. *)
Record world : Type := {
  files : fs;
  requested : list str
}.

(** [os.makedirs] is called on a path that does not exist, where it
    does not raise. *)
Definition ensure_icon_cache (w : world) : world :=
  if negb (Os.path_exists (files w) ICON_CACHE_DIR)
  then {| files := fst (Os.makedirs (files w) ICON_CACHE_DIR);
          requested := requested w |}
  else w.

Section Network.

(** [requests.get(url).content], or [None] when the request raises. *)
Variable requests_get : str -> option (list byte).

(** The path tested and opened is [ICON_CACHE_DIR], "/" and a basename,
    which may be empty, "." or "..": then it names the cache directory
    or its parent, which exist. *)
Definition download_icon (url : str) (w : world) : world * option str :=
  let w := ensure_icon_cache w in
  let icon_filename := Py.path_join ICON_CACHE_DIR (Py.basename url) in
  if negb (Os.exists_resolved (files w) icon_filename) then
    let w := {| files := files w; requested := requested w ++ [url] |} in
    match requests_get url with
    | Some content =>
      match Os.open_write (files w) icon_filename content with
      | (fs', None) =>
        ({| files := fs'; requested := requested w |}, Some icon_filename)
      | (fs', Some _) =>
        ({| files := fs'; requested := requested w |}, None)
      end
    | None => (w, None)
    end
  else (w, Some icon_filename).

Inductive QIcon : Type :=
| QIcon_null
| QIcon_of (path : str).

(** [SuggestedAppModel.data(index, Qt.DecorationRole)] for an entry
    whose ["icon_url"] is [icon_url]. *)
Definition data_DecorationRole (icon_url : str) (w : world)
  : world * QIcon :=
  let '(w', icon_path) := download_icon icon_url w in
  match icon_path with
  | Some p => if Py.truthy p then (w', QIcon_of p) else (w', QIcon_null)
  | None => (w', QIcon_null)
  end.

End Network.

End Icons.

(** ** [make_links_clickable]

    The pattern [r'(https?://\S+)'] needs an optional atom and a
    one-or-more atom; its one group is the whole match.  [sub_scan]
    replaces every leftmost non-overlapping match [m] by [repl m]; the
    patterns used here match no empty text. *)

Module ReGroup.

Inductive atom : Type :=
| One (cls : N -> bool)
| Opt (cls : N -> bool)
| Plus (cls : N -> bool).

Fixpoint match_here (p : list atom) (s : str) {struct p} : option nat :=
  match p with
  | [] => Some O
  | One cls :: p' =>
    match s with
    | [] => None
    | c :: s' => if cls c then option_map S (match_here p' s') else None
    end
  | Opt cls :: p' =>
    match s with
    | [] => match_here p' []
    | c :: s' =>
      if cls c then
        match match_here p' s' with
        | Some n => Some (S n)
        | None => match_here p' s
        end
      else match_here p' s
    end
  | Plus cls :: p' =>
    match s with
    | [] => None
    | c :: s' =>
      if cls c then option_map S (Re.match_star cls (match_here p') s')
      else None
    end
  end.

Fixpoint sub_scan (p : list atom) (repl : str -> str) (skip : nat)
         (text : str) : str :=
  match text with
  | [] => []
  | c :: rest =>
    match skip with
    | S k => sub_scan p repl k rest
    | O =>
      match match_here p text with
      | Some (S n) => repl (firstn (S n) text) ++ sub_scan p repl n rest
      | Some O => c :: sub_scan p repl 0 rest
      | None => c :: sub_scan p repl 0 rest
      end
    end
  end.

End ReGroup.

(** [\S]: any code point that is not white space. *)
Definition nonspace (c : N) : bool := negb (Py.isspace c).

(** [r'(https?://\S+)'] *)
Definition url_pattern : list ReGroup.atom :=
  [ ReGroup.One (N.eqb 104); ReGroup.One (N.eqb 116);
    ReGroup.One (N.eqb 116); ReGroup.One (N.eqb 112);
    ReGroup.Opt (N.eqb 115);
    ReGroup.One (N.eqb 58); ReGroup.One (N.eqb 47); ReGroup.One (N.eqb 47);
    ReGroup.Plus nonspace ].

(** The template [r'<a href="\1">\1</a>'] applied to the match. *)
Definition anchor (url : str) : str :=
  Py.lit "<a href=" ++ [34] ++ url ++ [34] ++ Py.lit ">" ++ url ++ Py.lit "</a>".

Definition make_links_clickable (text : str) : str :=
  ReGroup.sub_scan url_pattern anchor 0 text.

(** ** [AppListModel] *)

Module AppListModel.

(** A [QModelIndex] of a list model: invalid, or a row. *)
Inductive QModelIndex : Type :=
| Invalid
| Row (row : nat).

Definition isValid (index : QModelIndex) : bool :=
  match index with
  | Invalid => false
  | Row _ => true
  end.

(** What [data] returns: [None], a [str] or a [bool]. *)
Inductive variant : Type :=
| PyNone
| PyStr (s : str)
| PyBool (b : bool).

Definition truthy (v : variant) : bool :=
  match v with
  | PyNone => false
  | PyStr s => Py.truthy s
  | PyBool b => b
  end.

Definition DisplayRole : Z := 0.
Definition ToolTipRole : Z := 3.
Definition UserRole : Z := 256.

(** [data]; the result is [None] when [self.apps[index.row()]] raises
    [IndexError]. *)
Definition data (apps : list app) (index : QModelIndex) (role : Z)
  : option variant :=
  match index with
  | Invalid => Some PyNone
  | Row row =>
    match nth_error apps row with
    | None => None
    | Some (app_name, description, is_app) =>
      if (role =? DisplayRole)%Z then Some (PyStr app_name)
      else if (role =? ToolTipRole)%Z then Some (PyStr description)
      else if (role =? UserRole)%Z then Some (PyStr app_name)
      else if (role =? UserRole + 1)%Z then Some (PyBool is_app)
      else Some PyNone
    end
  end.

Definition rowCount (apps : list app) : nat := length apps.

End AppListModel.

(** ** The actions on a selected row

    What an action shows and starts, in order; [None] when [data]
    raises.  [apps] is the model of the list view and [index] its current
    index. *)

Module Actions.

Import AppListModel.

Inductive event : Type :=
| Warning (title text : str)
| Question (title text : str)
| Information (title text : str)
| RunScriptAsync (args : list str).

Inductive StandardButton := Yes | No.

(** The text of a value that [data] gave for a name role. *)
Definition text_of (v : variant) : str :=
  match v with
  | PyStr s => s
  | _ => []
  end.

Definition update_appimage (apps : list app) (index : QModelIndex)
  : option (list event) :=
  if negb (isValid index) then
    Some [Warning (Py.lit "No Selection")
                  (Py.lit "Please select an application to update.")]
  else
    match data apps index (UserRole + 1) with
    | None => None
    | Some is_app =>
      if negb (truthy is_app) then
        Some [Warning (Py.lit "Invalid Selection")
                      (Py.lit "Please select a valid application to update.")]
      else
        match data apps index UserRole with
        | None => None
        | Some app_name =>
          if negb (truthy app_name) then
            Some [Warning (Py.lit "No Application Name")
                          (Py.lit "Application name not found.")]
          else Some [RunScriptAsync [Py.lit "-u"; text_of app_name]]
        end
    end.

(** [reply] is the button the user presses in the confirmation. *)
Definition remove_appimage (apps : list app) (index : QModelIndex)
           (reply : StandardButton) : option (list event) :=
  if negb (isValid index) then
    Some [Warning (Py.lit "No Selection")
                  (Py.lit "Please select an application to remove.")]
  else
    match data apps index (UserRole + 1) with
    | None => None
    | Some is_app =>
      if negb (truthy is_app) then
        Some [Warning (Py.lit "Invalid Selection")
                      (Py.lit "Please select a valid application to remove.")]
      else
        match data apps index UserRole with
        | None => None
        | Some app_name =>
          if negb (truthy app_name) then
            Some [Warning (Py.lit "No Application Name")
                          (Py.lit "Application name not found.")]
          else
            let question :=
              Question (Py.lit "Confirm Removal")
                       (Py.lit "Are you sure you want to remove "
                        ++ text_of app_name ++ Py.lit "?") in
            match reply with
            | Yes => Some [question;
                           RunScriptAsync [Py.lit "-R"; text_of app_name]]
            | No => Some [question]
            end
        end
    end.

Definition update_all_apps : list event :=
  [RunScriptAsync [Py.lit "-u"]].

Definition install_selected_appimage (apps : list app) (index : QModelIndex)
  : option (list event) :=
  if negb (isValid index) then
    Some [Warning (Py.lit "No Selection")
                  (Py.lit "Please select an application to install.")]
  else
    match data apps index UserRole with
    | None => None
    | Some app_name =>
      if negb (truthy app_name) then Some []
      else Some [RunScriptAsync [Py.lit "-i"; text_of app_name]]
    end.

(** [show_app_info]: the command, and the rich text its callback puts in
    the message box titled ["About - <app_name>"]. *)
Definition show_app_info (app_name : str) : list event :=
  [RunScriptAsync [Py.lit "about"; app_name]].

Definition show_app_info_title (app_name : str) : str :=
  Py.lit "About - " ++ app_name.

Definition show_app_info_text (output : str) : str :=
  let output := strip_ansi_escape_codes output in
  let output := make_links_clickable output in
  Py.lit "<p>" ++ output ++ Py.lit "</p>".

End Actions.

(** ** The threads of the window: [run_script_async] and
    [on_thread_finished]

    A thread or worker object is known by its identity, a number; the
    objects that [run_script_async] creates are new ones. *)

Module Threads.

Record controls : Type := {
  tabs : bool;
  update_button : bool;
  remove_button : bool;
  update_all_button : bool;
  refresh_button : bool;
  install_button : bool;
  search_box : bool;
  search_button : bool
}.

Record window : Type := {
  enabled : controls;
  progress_dialog : option str;   (* the label of the dialog shown *)
  threads : list nat;
  workers : list nat
}.

Definition set_ui_enabled (self : window) (e : bool) : window :=
  {| enabled := {| tabs := e; update_button := e; remove_button := e;
                   update_all_button := e; refresh_button := e;
                   install_button := e; search_box := e;
                   search_button := e |};
     progress_dialog := progress_dialog self;
     threads := threads self;
     workers := workers self |}.

(** [run_script_async], up to [thread.start()]; [thread] and [worker] are
    the two objects it creates. *)
Definition run_script_async (thread worker : nat) (self : window) : window :=
  let self := set_ui_enabled self false in
  {| enabled := enabled self;
     progress_dialog := Some (Py.lit "Processing...");
     threads := threads self ++ [thread];
     workers := workers self ++ [worker] |}.

(** [list.remove(x)]: the first element equal to [x] goes. *)
Fixpoint list_remove (x : nat) (l : list nat) : list nat :=
  match l with
  | [] => []
  | y :: l' => if Nat.eqb x y then l' else y :: list_remove x l'
  end.

Definition on_thread_finished (sender_thread : nat) (self : window) : window :=
  let self := {| enabled := enabled self;
                 progress_dialog := None;
                 threads := threads self;
                 workers := workers self |} in
  let self := set_ui_enabled self true in
  if existsb (Nat.eqb sender_thread) (threads self)
  then {| enabled := enabled self;
          progress_dialog := progress_dialog self;
          threads := list_remove sender_thread (threads self);
          workers := workers self |}
  else self.

End Threads.

(** ** [SuggestedAppsLoader] *)

Module SuggestedAppsLoader.

#[local] Set Warnings "-register-all".

(** A value of [response.json()]; an object keeps its members in
    document order. *)
Inductive json : Type :=
| JNull
| JBool (b : bool)
| JNumber (n : Z)
| JString (s : str)
| JArray (items : list json)
| JObject (members : list (str * json)).

(** [dict.get(key, default)] on the dict made of [members]: of two
    members with one key the later one counts. *)
Fixpoint dict_get (key : str) (members : list (str * json)) (default : json)
  : json :=
  match members with
  | [] => default
  | (k, v) :: rest =>
    dict_get key rest (if bool_decide (k = key) then v else default)
  end.

(** What [requests.get(json_url)] gives: it raises, or there is a
    response with its status code and the result of [response.json()],
    [None] when that raises. *)
Inductive fetched : Type :=
| GetRaises
| Response (status_code : Z) (parsed : option json).

(** The default sample. *)
Definition default_sample : json :=
  JArray
    [ JObject
        [ (Py.lit "app_name", JString (Py.lit "abiword"));
          (Py.lit "description",
           JString (Py.lit "AbiWord is a free word processing program."));
          (Py.lit "icon_url",
           JString (Py.lit
             "https://icons.iconarchive.com/icons/papirus-team/papirus-apps/512/abiword-icon.png")) ] ].

Section Stdout.

(** Whether [print(f"Fetched suggested apps: {v}")] raises: the text of
    [v] may hold a character that the encoding of the standard output
    cannot write, a lone surrogate for one, and [print] then raises
    [UnicodeEncodeError], which is an [Exception]. *)
Variable print_raises : json -> bool.

(** The [try] block: the value bound to [suggested_apps_data], or [None]
    when an [Exception] is raised in the block. *)
Definition try_block (f : fetched) : option json :=
  match f with
  | GetRaises => None
  | Response status_code parsed =>
    if (status_code =? 200)%Z then
      match parsed with
      | None => None
      | Some data =>
        match data with
        | JObject members =>
          let suggested_apps_data :=
            dict_get (Py.lit "suggested_apps") members (JArray []) in
          if print_raises suggested_apps_data then None
          else Some suggested_apps_data
        | _ => None          (* no [get] attribute: AttributeError *)
        end
      end
    else None                (* raise Exception(...) *)
  end.

(** [run]: the value given to [apps_loaded.emit]. *)
Definition run (f : fetched) : json :=
  match try_block f with
  | Some suggested_apps_data => suggested_apps_data
  | None => default_sample
  end.

End Stdout.

(** A standard output in UTF-8: a string is printed as it is and cannot
    be written when it holds a surrogate; the text of any other value
    is ASCII with escapes. *)
Definition is_surrogate (c : N) : bool := (55296 <=? c) && (c <=? 57343).

Definition utf8_print_raises (v : json) : bool :=
  match v with
  | JString s => existsb is_surrogate s
  | _ => false
  end.

End SuggestedAppsLoader.

(** ** The rest of the bootstrap: dependencies, configuration and the
    sequence [install_appman_if_missing] *)

(** [try: body / except <class>: handler], the class given by [caught]. *)
Definition try_except {A} (caught : exn -> bool) (body : M A)
           (handler : exn -> M A) : M A :=
  fun w =>
    match body w with
    | (w1, Raise e) => if caught e then handler e w1 else (w1, Raise e)
    | r => r
    end.

(** The value of a call of a function whose body is [body]: what it
    returns, [None] being false. *)
Definition returned (body : M unit) : M bool :=
  fun w =>
    match body w with
    | (w', Normal _) => (w', Normal false)
    | (w', Return v) => (w', Normal v)
    | (w', Raise e) => (w', Raise e)
    end.

Module Setup.

Record env : Type := {
  dpkg : str -> ext Z;         (* subprocess.run(["dpkg", "-s", p]).returncode *)
  pkexec : list str -> ext unit;   (* subprocess.run(argv, check=True) *)
  critical : ext unit;             (* QMessageBox.critical(...) *)
  installer : Bootstrap.env;
  appman_popen : ext unit;         (* subprocess.Popen([appman_path], ...) *)
  appman_communicate : str -> ext Z;  (* communicate(input); returncode *)
  appman_stderr_read : ext str        (* process.stderr.read() *)
}.

Definition is_installed (e : env) (package_name : str) : M bool :=
  try_except is_Exception
    (returncode ← call (dpkg e package_name) ; mret (returncode =? 0)%Z)
    (fun _ => mret false).

Definition dependencies : list str :=
  map Py.lit
      [ "coreutils"; "curl"; "grep"; "less"; "sed"; "wget";
        "sudo"; "binutils"; "unzip"; "tar"; "torsocks"; "zsync" ]%string.

(** [[dep for dep in deps if not is_installed(dep)]] *)
Fixpoint missing_of (e : env) (deps : list str) : M (list str) :=
  match deps with
  | [] => mret []
  | dep :: rest =>
    bind (is_installed e dep) (fun present : bool =>
    bind (missing_of e rest) (fun others : list str =>
    mret (if negb present then dep :: others else others)))
  end.

Definition is_CalledProcessError (x : exn) : bool :=
  match x with
  | CalledProcessError => true
  | _ => false
  end.

Definition install_argv (missing_deps : list str) : list str :=
  [Py.lit "pkexec"; Py.lit "apt"; Py.lit "install"; Py.lit "-y"]
  ++ missing_deps.

Definition install_dependencies (e : env) : M unit :=
  missing_deps ← missing_of e dependencies ;
  (match missing_deps with
   | _ :: _ =>
     try_except is_CalledProcessError
       (call (pkexec e (install_argv missing_deps)))
       (fun _ => call (critical e) ;; return_ false)
   | [] => mret tt
   end) ;;
  return_ true.

Section Paths.

(** [os.path.expanduser] of ["~/.local/bin/appman"] and of ["~/.tai"]. *)
Variable appman_path : str.
Variable install_dir : str.

Definition configure_appman_directory (e : env) (install_dir : str) : M unit :=
  try_except is_Exception
    (call (appman_popen e) ;;
     returncode ← call (appman_communicate e (install_dir ++ [10])) ;
     if negb (returncode =? 0)%Z then
       call (appman_stderr_read e) ;;
       call (critical e) ;;
       return_ false
     else mret tt)
    (fun _ => call (critical e) ;; return_ false) ;;
  return_ true.

Definition path_exists : M bool :=
  fun w => (w, Normal (Os.path_exists w appman_path)).

Definition install_appman_if_missing (e : env) : M unit :=
  bind path_exists (fun found : bool =>
  if found then return_ true
  else
    bind (returned (install_dependencies e)) (fun ok : bool =>
    if negb ok then return_ false
    else
      bind (returned (Bootstrap.download_and_run_am_installer (installer e)))
           (fun ok : bool =>
      if negb ok then return_ false
      else
        bind path_exists (fun found : bool =>
        if negb found then call (critical e) ;; return_ false
        else
          bind (returned (configure_appman_directory e install_dir))
               (fun ok : bool =>
          if negb ok then return_ false
          else return_ true))))).

End Paths.

End Setup.

(** ** Specification vocabulary

    Definitions that the program does not contain: they say, in the
    words of the specification, what the theorems below compare the
    program with. *)

(** [w] occurs in [text] at index [i]. *)
Definition occurs_at (w text : str) (i : nat) : Prop :=
  exists pre post, text = pre ++ w ++ post /\ length pre = i.

(** [s = pre ++ sep ++ post] at the first occurrence of [sep] in [s]. *)
Definition first_split (sep s pre post : str) : Prop :=
  s = pre ++ sep ++ post
  /\ forall pre' post', s = pre' ++ sep ++ post' -> (length pre <= length pre')%nat.

(** [s = pre ++ sep ++ post] at the last occurrence of [sep] in [s]. *)
Definition last_split (sep s pre post : str) : Prop :=
  s = pre ++ sep ++ post
  /\ forall pre' post', s = pre' ++ sep ++ post' -> (length pre' <= length pre)%nat.

(** The name made of one part of a line: trimmed, without its leading
    marker glyphs, trimmed again. *)
Definition name_of (part : str) : str :=
  Py.strip (Py.lstrip_chars MARKER (Py.strip part)).

(** The lines of a command output, as the installed-apps refresh sees
    them; a line that counts as an app line; the entry made of it. *)
Definition output_lines (output : str) : list str :=
  Py.split [10] None (Py.strip output).

Definition is_marker_line (line : str) : bool :=
  Py.startswith (Py.strip line) MARKER.

Definition installed_entry (line : str) : app :=
  (AppImageManagerGUI.extract_app_name line,
   Py.join (Py.lit " ")
           (Py.splitlines (AppImageManagerGUI.extract_app_description line)),
   true).

(** The entry made of one line of the available-apps file. *)
Definition file_entry (line : str) : app :=
  (FileLoaderWorker.extract_app_name (Py.strip line),
   FileLoaderWorker.extract_app_description (Py.strip line),
   true).

Definition flag (a : app) : bool := snd a.

(** [sub] occurs somewhere in [s]. *)
Definition substring (sub s : str) : Prop :=
  exists pre post, s = pre ++ sub ++ post.

(** [str.lower] on ASCII text, to run the search on ASCII examples. *)
Definition lower_ascii (s : str) : str :=
  map (fun c => if Py.in_range 65 90 c then c + 32 else c) s.

(** The cache file of an icon URL. *)
Definition icon_path (url : str) : str :=
  Py.path_join Icons.ICON_CACHE_DIR (Py.basename url).

(** An ANSI CSI sequence: ESC, '[', parameter bytes 0x30-0x3F,
    intermediate bytes 0x20-0x2F, one final byte 0x40-0x7E. *)
Module Csi.

Definition parameter (c : N) : bool := Py.in_range 48 63 c.
Definition intermediate (c : N) : bool := Py.in_range 32 47 c.
Definition final (c : N) : bool := Py.in_range 64 126 c.

Inductive sequence : str -> Prop :=
| sequence_intro (ps ims : str) (f : N) :
    forallb parameter ps = true ->
    forallb intermediate ims = true ->
    final f = true ->
    sequence (ESC :: 91 :: ps ++ ims ++ [f]).

(** Index [j] of [text] lies inside an occurrence of a CSI sequence. *)
Definition inside (text : str) (j : nat) : Prop :=
  exists i w, sequence w /\ occurs_at w text i /\ (i <= j < i + length w)%nat.

End Csi.

(** The last atom of [ansi_escape], and its last two atoms. *)
Definition tail1 : Re.regex := [Re.One (Py.in_range 64 126)].
Definition tail2 : Re.regex := Re.Star (Py.in_range 32 47) :: tail1.

(** [erase P i s out]: [out] is [s] without the code points whose index,
    counted from [i], satisfies [P]; the others are kept, in order. *)
Inductive erase (P : nat -> Prop) : nat -> str -> str -> Prop :=
| erase_nil i : erase P i [] []
| erase_drop i c s out :
    P i -> erase P (S i) s out -> erase P i (c :: s) out
| erase_keep i c s out :
    ~ P i -> erase P (S i) s out -> erase P i (c :: s) (c :: out).

(** A URL as [make_links_clickable] sees it: [http://] or [https://] and
    then one code point or more, none of them white space. *)
Definition is_url (u : str) : Prop :=
  exists body,
    (u = Py.lit "http://" ++ body \/ u = Py.lit "https://" ++ body)
    /\ body <> [] /\ forallb nonspace body = true.

(** The end of the text, or white space next. *)
Definition at_break (rest : str) : Prop :=
  match rest with
  | [] => True
  | c :: _ => Py.isspace c = true
  end.

(** The pattern after [http]. *)
Definition url_tail : list ReGroup.atom := skipn 4 url_pattern.
Definition url_rest : list ReGroup.atom := skipn 5 url_pattern.

(** * Theorems *)

(** ** Lists of code points *)

Section PyFacts.

Lemma drop_while_split (p : N -> bool) (s : str) :
  exists pre, s = pre ++ Py.drop_while p s /\ forallb p pre = true.
Proof.
  induction s as [|c s [pre [E F]]]; simpl.
  - exists []. auto.
  - destruct (p c) eqn:Hc.
    + exists (c :: pre). simpl. rewrite Hc, F. split; [congruence | reflexivity].
    + exists []. auto.
Qed.

Lemma drop_while_head (p : N -> bool) (s : str) c r :
  Py.drop_while p s = c :: r -> p c = false.
Proof.
  induction s as [|d s IH]; simpl; [discriminate|].
  destruct (p d) eqn:Hd; [assumption|].
  intros [= -> ->]. assumption.
Qed.

Lemma drop_while_stop (p : N -> bool) (s : str) :
  match s with [] => True | c :: _ => p c = false end ->
  Py.drop_while p s = s.
Proof. destruct s as [|c s]; simpl; [reflexivity|]. intros ->. reflexivity. Qed.

Lemma drop_while_app (p : N -> bool) (pre s : str) :
  forallb p pre = true -> Py.drop_while p (pre ++ s) = Py.drop_while p s.
Proof.
  induction pre as [|c pre IH]; simpl; [reflexivity|].
  intros H. apply andb_prop in H as [-> H]. auto.
Qed.

Lemma lstrip_split (s : str) :
  exists ws, s = ws ++ Py.lstrip s /\ forallb Py.isspace ws = true.
Proof. apply drop_while_split. Qed.

Lemma rstrip_split (s : str) :
  exists ws, s = Py.rstrip s ++ ws /\ forallb Py.isspace ws = true.
Proof.
  destruct (drop_while_split Py.isspace (rev s)) as (pre & E & F).
  exists (rev pre). split.
  - unfold Py.rstrip. rewrite <- rev_app_distr, <- E, rev_involutive. reflexivity.
  - rewrite forallb_forall in *. intros x Hx. apply F, in_rev, Hx.
Qed.

Lemma lstrip_fixed (s : str) :
  match s with [] => True | c :: _ => Py.isspace c = false end ->
  Py.lstrip s = s.
Proof. apply drop_while_stop. Qed.

Lemma lstrip_head (s : str) :
  match Py.lstrip s with [] => True | c :: _ => Py.isspace c = false end.
Proof.
  destruct (Py.lstrip s) as [|c r] eqn:E; [exact I|].
  eapply drop_while_head, E.
Qed.

Lemma rstrip_last (s : str) :
  match rev (Py.rstrip s) with [] => True | c :: _ => Py.isspace c = false end.
Proof.
  unfold Py.rstrip. rewrite rev_involutive.
  destruct (Py.drop_while Py.isspace (rev s)) as [|c r] eqn:E; [exact I|].
  eapply drop_while_head, E.
Qed.

Lemma rstrip_fixed (s : str) :
  match rev s with [] => True | c :: _ => Py.isspace c = false end ->
  Py.rstrip s = s.
Proof.
  intros H. unfold Py.rstrip. rewrite drop_while_stop by exact H.
  apply rev_involutive.
Qed.

(** The head of [rstrip s] is the head of [s]. *)
Lemma rstrip_head (s : str) :
  match s with [] => True | c :: _ => Py.isspace c = false end ->
  match Py.rstrip s with [] => True | c :: _ => Py.isspace c = false end.
Proof.
  intros H. destruct (rstrip_split s) as (ws & E & _).
  destruct (Py.rstrip s) as [|c r]; [exact I|].
  rewrite E in H. exact H.
Qed.

(** [strip] leaves white space at neither end. *)
Lemma strip_ends (s : str) :
  match Py.strip s with [] => True | c :: _ => Py.isspace c = false end
  /\ match rev (Py.strip s) with [] => True | c :: _ => Py.isspace c = false end.
Proof.
  split.
  - apply rstrip_head, lstrip_head.
  - apply rstrip_last.
Qed.

(** [strip] only takes white space away, at the two ends. *)
Lemma strip_split (s : str) :
  exists l r, s = l ++ Py.strip s ++ r
              /\ forallb Py.isspace l = true /\ forallb Py.isspace r = true.
Proof.
  destruct (lstrip_split s) as (l & El & Fl).
  destruct (rstrip_split (Py.lstrip s)) as (r & Er & Fr).
  exists l, r. unfold Py.strip. rewrite <- Er. auto.
Qed.

Lemma strip_fixed (s : str) :
  match s with [] => True | c :: _ => Py.isspace c = false end ->
  match rev s with [] => True | c :: _ => Py.isspace c = false end ->
  Py.strip s = s.
Proof.
  intros H1 H2. unfold Py.strip. rewrite lstrip_fixed by exact H1.
  apply rstrip_fixed, H2.
Qed.

Lemma strip_idempotent (s : str) : Py.strip (Py.strip s) = Py.strip s.
Proof. apply strip_fixed; apply strip_ends. Qed.

Lemma strip_nil : Py.strip [] = [].
Proof. reflexivity. Qed.

(** *** [startswith] and [in] *)

Lemma startswith_iff (s prefix : str) :
  Py.startswith s prefix = true <-> exists r, s = prefix ++ r.
Proof.
  revert s. induction prefix as [|p prefix IH]; intros s; simpl.
  - split; [intros _; exists s; reflexivity | reflexivity].
  - destruct s as [|c s]; [split; [discriminate | intros [r [=]]]|].
    rewrite andb_true_iff, N.eqb_eq, IH. split.
    + intros [-> [r ->]]. eauto.
    + intros [r [= -> ->]]. eauto.
Qed.

Lemma contains_iff (sub s : str) :
  Py.contains sub s = true <-> exists pre post, s = pre ++ sub ++ post.
Proof.
  induction s as [|c s IH]; cbn [Py.contains]; rewrite orb_true_iff, startswith_iff.
  - split.
    + intros [[r E]|[=]]. exists [], r. exact E.
    + intros (pre & post & E). left.
      destruct pre; [eauto | discriminate].
  - rewrite IH. split.
    + intros [[r E]|(pre & post & E)].
      * exists [], r. exact E.
      * exists (c :: pre), post. simpl. congruence.
    + intros ([|d pre] & post & E).
      * left. eauto.
      * right. injection E as _ E. eauto.
Qed.

(** *** [split] *)

Lemma split_scan_skip sep m (l : str) : forall cur r,
  Py.split_scan sep m (length l) cur (l ++ r) = Py.split_scan sep m 0 cur r.
Proof.
  induction l as [|c l IH]; intros cur r; [reflexivity|].
  cbn [length app Py.split_scan]. apply IH.
Qed.

Lemma split_scan_hit c (sep' : str) m cur r :
  Py.may_split m = true ->
  Py.split_scan (c :: sep') m 0 cur ((c :: sep') ++ r) =
  rev cur :: Py.split_scan (c :: sep') (Py.one_less m) 0 [] r.
Proof.
  intros Hm. rewrite <- app_comm_cons. cbn [Py.split_scan]. rewrite Hm.
  replace (Py.startswith (c :: sep' ++ r) (c :: sep')) with true
    by (symmetry; apply startswith_iff; exists r; reflexivity).
  cbn [andb length Nat.pred]. rewrite split_scan_skip. reflexivity.
Qed.

Lemma split_scan_whole sep m (s : str) : forall cur,
  Py.may_split m = false \/ Py.contains sep s = false ->
  Py.split_scan sep m 0 cur s = [rev cur ++ s].
Proof.
  induction s as [|c s IH]; intros cur H.
  - cbn. rewrite app_nil_r. reflexivity.
  - cbn [Py.split_scan].
    assert (E : Py.may_split m && Py.startswith (c :: s) sep = false).
    { destruct H as [->|H]; [reflexivity|].
      cbn [Py.contains] in H. apply orb_false_iff in H as [-> _].
      apply andb_false_r. }
    rewrite E, IH.
    + cbn [rev]. rewrite <- app_assoc. reflexivity.
    + destruct H as [H|H]; [left; exact H|right].
      cbn [Py.contains] in H. apply orb_false_iff in H as [_ H]. exact H.
Qed.

Lemma split_scan_first sep m (s : str) : forall cur,
  sep <> [] -> Py.may_split m = true -> Py.contains sep s = true ->
  exists pre post,
    first_split sep s pre post
    /\ Py.split_scan sep m 0 cur s =
       (rev cur ++ pre) :: Py.split_scan sep (Py.one_less m) 0 [] post.
Proof.
  intros cur Hsep Hm. revert cur.
  destruct sep as [|c0 sep']; [contradiction|].
  induction s as [|c s IH]; intros cur H; [discriminate|].
  destruct (Py.startswith (c :: s) (c0 :: sep')) eqn:Hs.
  - apply startswith_iff in Hs as [r E].
    exists [], r. split.
    + split; [exact E | intros; cbn; lia].
    + rewrite E, split_scan_hit, app_nil_r by exact Hm. reflexivity.
  - cbn [Py.contains] in H. rewrite Hs in H. cbn [orb] in H.
    destruct (IH (c :: cur) H) as (pre & post & [E Hmin] & Hscan).
    exists (c :: pre), post. split.
    + split; [rewrite E; reflexivity|].
      intros [|d pre'] post' E'.
      * exfalso. apply not_true_iff_false in Hs. apply Hs.
        apply startswith_iff. eauto.
      * injection E' as _ E'. cbn. apply Hmin in E'. lia.
    + cbn [Py.split_scan]. rewrite Hm, Hs. cbn [andb].
      rewrite Hscan. cbn [rev]. rewrite <- app_assoc. reflexivity.
Qed.

Lemma first_split_unique (sep s p1 q1 p2 q2 : str) :
  first_split sep s p1 q1 -> first_split sep s p2 q2 -> p1 = p2 /\ q1 = q2.
Proof.
  intros [E1 M1] [E2 M2].
  pose proof (M1 _ _ E2). pose proof (M2 _ _ E1).
  rewrite E1 in E2. apply app_inj_1 in E2 as [-> E2]; [|lia].
  apply app_inv_head in E2. auto.
Qed.

Lemma contains_first_split (sep s pre post : str) :
  first_split sep s pre post -> Py.contains sep s = true.
Proof. intros [E _]. apply contains_iff. eauto. Qed.

(** [s.split(sep, 1)] when [sep in s]. *)
Lemma split_once (sep s pre post : str) :
  sep <> [] -> first_split sep s pre post ->
  Py.split sep (Some 1%nat) s = [pre; post].
Proof.
  intros Hsep H.
  destruct (split_scan_first sep (Some 1%nat) s [] Hsep eq_refl
              (contains_first_split _ _ _ _ H)) as (p & q & H' & E).
  destruct (first_split_unique _ _ _ _ _ _ H H') as [<- <-].
  unfold Py.split. rewrite E. cbn [rev app Py.one_less option_map Nat.pred].
  rewrite split_scan_whole by (left; reflexivity). reflexivity.
Qed.

(** [s.split(sep)[0]] when [sep in s]. *)
Lemma split_all_first (sep s pre post : str) :
  sep <> [] -> first_split sep s pre post ->
  Py.item 0 (Py.split sep None s) = pre.
Proof.
  intros Hsep H.
  destruct (split_scan_first sep None s [] Hsep eq_refl
              (contains_first_split _ _ _ _ H)) as (p & q & H' & E).
  destruct (first_split_unique _ _ _ _ _ _ H H') as [<- <-].
  unfold Py.split. rewrite E. reflexivity.
Qed.

Lemma first_split_exists (sep s : str) :
  sep <> [] -> Py.contains sep s = true ->
  exists pre post, first_split sep s pre post.
Proof.
  intros Hsep H.
  destruct (split_scan_first sep None s [] Hsep eq_refl H) as (p & q & H' & _).
  eauto.
Qed.

Lemma split_scan_nonempty sep m skip cur (s : str) :
  Py.split_scan sep m skip cur s <> [].
Proof.
  revert m skip cur. induction s as [|c s IH]; intros m skip cur; cbn.
  - discriminate.
  - destruct skip; [|apply IH].
    destruct (Py.may_split m && Py.startswith (c :: s) sep); [discriminate|apply IH].
Qed.

(** [s.split(sep)[-1]]: the text after an occurrence of [sep] that is
    followed by no other, or all of [s] when [sep] does not occur. *)
Lemma split_last sep (Hsep : sep <> []) n : forall (s cur : str),
  (length s <= n)%nat ->
  (Py.contains sep s = false
   /\ Py.last_item (Py.split_scan sep None 0 cur s) = rev cur ++ s)
  \/ (exists pre tail,
        s = pre ++ sep ++ tail /\ Py.contains sep tail = false
        /\ Py.last_item (Py.split_scan sep None 0 cur s) = tail).
Proof.
  induction n as [|n IH]; intros s cur Hlen.
  - destruct s; [|cbn in Hlen; lia].
    left. split.
    + destruct sep; [contradiction | reflexivity].
    + cbn. rewrite app_nil_r. reflexivity.
  - destruct (Py.contains sep s) eqn:Hc.
    + right.
      destruct (split_scan_first sep None s cur Hsep eq_refl Hc)
        as (pre & post & [E _] & Hscan).
      rewrite Hscan. unfold Py.last_item.
      assert (Hpost : (length post <= n)%nat).
      { rewrite E, !length_app in Hlen. destruct sep; [contradiction|].
        cbn in Hlen. lia. }
      assert (Hlast : forall (x : str) l, l <> [] -> last (x :: l) [] = last l []).
      { intros x [|y l] H; [contradiction | reflexivity]. }
      rewrite Hlast by apply split_scan_nonempty.
      cbn [Py.one_less option_map].
      destruct (IH post [] Hpost) as [[Hno Hl]|(pre2 & tail & E2 & Hno & Hl)].
      * exists pre, post. unfold Py.last_item in Hl. rewrite Hl. auto.
      * exists (pre ++ sep ++ pre2), tail. unfold Py.last_item in Hl.
        rewrite Hl. repeat split; [|exact Hno].
        rewrite E, E2, <- !app_assoc. reflexivity.
    + left. split; [reflexivity|].
      rewrite split_scan_whole by (right; exact Hc). reflexivity.
Qed.

End PyFacts.

(** ** The matcher on the CSI pattern *)

Section AnsiFacts.

Lemma match_star_run cls k (pre s : str) :
  forallb cls pre = true ->
  match s with [] => True | c :: _ => cls c = false end ->
  (forall c s', cls c = true -> k (c :: s') = None) ->
  Re.match_star cls k (pre ++ s) = option_map (Nat.add (length pre)) (k s).
Proof.
  intros Hpre Hs Hk. induction pre as [|c pre IH]; simpl.
  - destruct s as [|c s]; simpl; [destruct (k []); reflexivity|].
    rewrite Hs. destruct (k (c :: s)); reflexivity.
  - simpl in Hpre. apply andb_prop in Hpre as [Hc Hpre].
    rewrite Hc, (IH Hpre).
    destruct (k s); simpl; [reflexivity|].
    apply Hk, Hc.
Qed.

Lemma classes_disjoint c :
  (Csi.parameter c = true -> Csi.intermediate c = false /\ Csi.final c = false)
  /\ (Csi.intermediate c = true -> Csi.final c = false)
  /\ (Csi.parameter c = true \/ Csi.intermediate c = true \/ Csi.final c = true
      -> c <> ESC).
Proof.
  unfold Csi.parameter, Csi.intermediate, Csi.final, Py.in_range, ESC.
  rewrite ?andb_true_iff, ?andb_false_iff, ?N.leb_le, ?N.leb_gt. lia.
Qed.

Lemma tail1_no_intermediate c s :
  Csi.intermediate c = true -> Re.match_here tail1 (c :: s) = None.
Proof.
  intros H. apply classes_disjoint in H. simpl.
  unfold Csi.final in H. rewrite H. reflexivity.
Qed.

Lemma tail2_no_parameter c s :
  Csi.parameter c = true -> Re.match_here tail2 (c :: s) = None.
Proof.
  intros H. apply classes_disjoint in H as [Hi Hf]. simpl.
  unfold Csi.intermediate in Hi. unfold Csi.final in Hf.
  rewrite Hi, Hf. reflexivity.
Qed.

Lemma length_sequence ps ims f :
  length (ESC :: 91 :: ps ++ ims ++ [f]) = S (S (length ps + (length ims + 1))).
Proof. simpl. rewrite !length_app. reflexivity. Qed.

Lemma match_here_ansi_escape a b s :
  Re.match_here ansi_escape (a :: b :: s) =
  if ESC =? a then
    if 91 =? b then
      option_map (fun n => S (S n))
                 (Re.match_star Csi.parameter (Re.match_here tail2) s)
    else None
  else None.
Proof.
  change (Re.match_here ansi_escape (a :: b :: s))
    with (if ESC =? a
          then option_map S
                 (if 91 =? b
                  then option_map S
                         (Re.match_star Csi.parameter (Re.match_here tail2) s)
                  else None)
          else None).
  destruct (ESC =? a); [|reflexivity].
  destruct (91 =? b); [|reflexivity].
  destruct (Re.match_star _ _ s); reflexivity.
Qed.

Lemma match_here_tail2 s :
  Re.match_here tail2 s = Re.match_star Csi.intermediate (Re.match_here tail1) s.
Proof. reflexivity. Qed.

Lemma match_here_tail1 s :
  Re.match_here tail1 s =
  match s with
  | [] => None
  | c :: _ => if Csi.final c then Some 1%nat else None
  end.
Proof. reflexivity. Qed.

Lemma not_parameter_head ims f (r : str) :
  forallb Csi.intermediate ims = true -> Csi.final f = true ->
  match ims ++ [f] ++ r with [] => True | c :: _ => Csi.parameter c = false end.
Proof.
  intros Hims Hf. destruct ims as [|i ims]; simpl.
  - destruct (classes_disjoint f) as (H & _ & _).
    destruct (Csi.parameter f); [destruct (H eq_refl); congruence | reflexivity].
  - simpl in Hims. apply andb_prop in Hims as [Hi _].
    destruct (classes_disjoint i) as (H & _ & _).
    destruct (Csi.parameter i); [destruct (H eq_refl); congruence | reflexivity].
Qed.

Lemma not_intermediate_final f :
  Csi.final f = true -> Csi.intermediate f = false.
Proof.
  intros Hf. destruct (classes_disjoint f) as (_ & H & _).
  destruct (Csi.intermediate f); [specialize (H eq_refl); congruence | reflexivity].
Qed.

(** Every CSI sequence at the head of a text is matched, whole. *)
Lemma match_here_complete w r :
  Csi.sequence w -> Re.match_here ansi_escape (w ++ r) = Some (length w).
Proof.
  intros [ps ims f Hps Hims Hf]. rewrite length_sequence.
  rewrite <- !app_comm_cons, match_here_ansi_escape, !N.eqb_refl.
  rewrite <- !app_assoc.
  rewrite match_star_run;
    [|assumption|apply not_parameter_head; assumption
     |intros; apply tail2_no_parameter; assumption].
  rewrite match_here_tail2, match_star_run;
    [|assumption|simpl; apply not_intermediate_final; assumption
     |intros; apply tail1_no_intermediate; assumption].
  rewrite match_here_tail1. simpl. rewrite Hf. reflexivity.
Qed.

(** What the matcher matches at the head of a text is a CSI sequence. *)
Lemma match_here_sound s n :
  Re.match_here ansi_escape s = Some n ->
  exists w r, s = w ++ r /\ Csi.sequence w /\ length w = n.
Proof.
  destruct s as [|a [|b s]]; [discriminate| |].
  { change (Re.match_here ansi_escape [a])
      with (if ESC =? a then @None nat else None).
    destruct (ESC =? a); discriminate. }
  rewrite match_here_ansi_escape.
  destruct (N.eqb_spec ESC a) as [<-|]; [|discriminate].
  destruct (N.eqb_spec 91 b) as [<-|]; [|discriminate].
  destruct (drop_while_split Csi.parameter s) as (ps & Es & Hps).
  destruct (drop_while_split Csi.intermediate (Py.drop_while Csi.parameter s))
    as (ims & Ei & Hims).
  set (r1 := Py.drop_while Csi.parameter s) in *.
  set (r2 := Py.drop_while Csi.intermediate r1) in *.
  assert (H1 : match r1 with [] => True | c :: _ => Csi.parameter c = false end).
  { destruct r1 as [|c r1'] eqn:E; [exact I|]. eapply drop_while_head, E. }
  assert (H2 : match r2 with [] => True | c :: _ => Csi.intermediate c = false end).
  { destruct r2 as [|c r2'] eqn:E; [exact I|]. eapply drop_while_head, E. }
  rewrite Es, match_star_run;
    [|assumption|assumption|intros; apply tail2_no_parameter; assumption].
  rewrite match_here_tail2, Ei, match_star_run;
    [|assumption|assumption|intros; apply tail1_no_intermediate; assumption].
  rewrite match_here_tail1.
  destruct r2 as [|f r]; [discriminate|].
  destruct (Csi.final f) eqn:Hf; [|discriminate].
  simpl. intros [= <-].
  exists (ESC :: 91 :: ps ++ ims ++ [f]), r. split; [|split].
  - simpl. rewrite <- !app_assoc. reflexivity.
  - constructor; assumption.
  - rewrite length_sequence. reflexivity.
Qed.

Lemma sequence_shape w :
  Csi.sequence w ->
  exists w', w = ESC :: w' /\ ~ In ESC w' /\ (2 <= length w')%nat.
Proof.
  intros [ps ims f Hps Hims Hf]. eexists. split; [reflexivity|]. split.
  - intros [E|H]; [discriminate|].
    rewrite forallb_forall in Hps, Hims.
    apply in_app_or in H as [H|H]; [|apply in_app_or in H as [H|[H|[]]]].
    + apply Hps in H. apply (proj2 (proj2 (classes_disjoint ESC))); auto.
    + apply Hims in H. apply (proj2 (proj2 (classes_disjoint ESC))); auto.
    + subst f. apply (proj2 (proj2 (classes_disjoint ESC))); auto.
  - simpl. rewrite !length_app. simpl. lia.
Qed.

(** *** The scan of [sub] *)

Lemma sub_scan_skip p n (s : str) :
  Re.sub_scan p n s = Re.sub_scan p 0 (skipn n s).
Proof.
  revert n. induction s as [|c s IH]; intros [|n]; simpl; auto.
Qed.

Lemma sub_scan_cons p c (rest : str) :
  Re.sub_scan p 0 (c :: rest) =
  match Re.match_here p (c :: rest) with
  | Some (S m) => Re.sub_scan p 0 (skipn m rest)
  | _ => c :: Re.sub_scan p 0 rest
  end.
Proof.
  cbn [Re.sub_scan]. destruct (Re.match_here p (c :: rest)) as [[|m]|]; auto.
  apply sub_scan_skip.
Qed.

(** *** Occurrences *)

Lemma occurs_at_boundary (w pre suf : str) :
  occurs_at w (pre ++ suf) (length pre) -> exists r, suf = w ++ r.
Proof.
  intros (pre' & post & E & L).
  apply app_inj_1 in E as [_ E]; [|congruence]. eauto.
Qed.

Lemma occurs_here (w pre r : str) :
  occurs_at w (pre ++ w ++ r) (length pre).
Proof. exists pre, r. auto. Qed.

Lemma occurs_at_head c0 (w' text : str) i :
  occurs_at (c0 :: w') text i -> nth_error text i = Some c0.
Proof.
  intros (pre & post & -> & <-).
  rewrite nth_error_app2, Nat.sub_diag; [reflexivity | lia].
Qed.

Lemma erase_skip P (w : str) :
  forall i r out,
    (forall j, (i <= j < i + length w)%nat -> P j) ->
    erase P (i + length w) r out -> erase P i (w ++ r) out.
Proof.
  induction w as [|c w IH]; intros i r out HP H; simpl in *.
  - rewrite Nat.add_0_r in H. exact H.
  - apply erase_drop; [apply HP; lia|].
    apply IH; [intros j Hj; apply HP; lia|].
    rewrite Nat.add_succ_l, <- Nat.add_succ_r. exact H.
Qed.

Lemma erase_unique P : forall i (s o1 o2 : str),
  erase P i s o1 -> erase P i s o2 -> o1 = o2.
Proof.
  intros i s o1 o2 H1. revert o2.
  induction H1; intros o2 H2; inversion H2; subst;
    try contradiction; try reflexivity; auto.
  f_equal. auto.
Qed.

(** No CSI sequence starts at the head of [suf] when the matcher fails
    there; when it succeeds, every sequence that starts there has the
    matched length. *)
Lemma match_at_boundary (w pre suf : str) :
  Csi.sequence w -> occurs_at w (pre ++ suf) (length pre) ->
  Re.match_here ansi_escape suf = Some (length w).
Proof.
  intros Hw H. apply occurs_at_boundary in H as [r ->].
  apply match_here_complete, Hw.
Qed.

Lemma strip_erases n : forall (suf pre : str),
  (length suf <= n)%nat ->
  (forall i w, Csi.sequence w -> occurs_at w (pre ++ suf) i ->
               (i < length pre)%nat -> (i + length w <= length pre)%nat) ->
  erase (Csi.inside (pre ++ suf)) (length pre) suf
        (Re.sub_scan ansi_escape 0 suf).
Proof.
  induction n as [|n IH]; intros suf pre Hlen Hinv.
  { destruct suf; [constructor | simpl in Hlen; lia]. }
  destruct suf as [|c rest]; [constructor|].
  rewrite sub_scan_cons.
  destruct (Re.match_here ansi_escape (c :: rest)) as [[|m]|] eqn:E.
  - apply match_here_sound in E as (w & r & _ & Hw & L).
    apply sequence_shape in Hw as (w' & -> & _ & _). discriminate.
  - pose proof E as E'.
    apply match_here_sound in E' as (w & r & Ew & Hw & L).
    destruct w as [|c' w1]; [discriminate|].
    simpl in Ew. injection Ew as <- ->. simpl in L. injection L as <-.
    rewrite drop_app_length.
    change (c :: w1 ++ r) with ((c :: w1) ++ r).
    apply erase_skip.
    + intros j Hj. exists (length pre), (c :: w1).
      split; [assumption|]. split; [apply occurs_here | exact Hj].
    + replace (pre ++ (c :: w1) ++ r) with ((pre ++ c :: w1) ++ r)
        by (rewrite <- app_assoc; reflexivity).
      rewrite <- (length_app pre (c :: w1)).
      apply IH.
      * simpl in Hlen. rewrite length_app in Hlen. lia.
      * intros i w Hseq Hocc Hi.
        rewrite <- app_assoc in Hocc. rewrite length_app in Hi |- *.
        destruct (Nat.lt_trichotomy i (length pre)) as [Hlt|[->|Hgt]].
        -- specialize (Hinv i w Hseq Hocc Hlt). lia.
        -- pose proof (match_at_boundary _ _ _ Hseq Hocc) as E2.
           change ((c :: w1) ++ r) with (c :: w1 ++ r) in E2.
           rewrite E in E2. injection E2 as E2. simpl. lia.
        -- exfalso.
           destruct (sequence_shape _ Hseq) as (w' & -> & _ & _).
           apply occurs_at_head in Hocc.
           rewrite nth_error_app2 in Hocc by lia.
           rewrite nth_error_app1 in Hocc by lia.
           destruct (sequence_shape _ Hw) as (w1' & Ew1 & Hno & _).
           injection Ew1 as -> ->.
           destruct (i - length pre)%nat as [|k] eqn:Ek; [lia|].
           simpl in Hocc. apply nth_error_In in Hocc. contradiction.
  - apply erase_keep.
    + intros (i & w & Hseq & Hocc & Hi).
      destruct (Nat.eq_dec i (length pre)) as [->|Hne].
      * rewrite (match_at_boundary _ _ _ Hseq Hocc) in E. discriminate.
      * specialize (Hinv i w Hseq Hocc). lia.
    + replace (pre ++ c :: rest) with ((pre ++ [c]) ++ rest)
        by (rewrite <- app_assoc; reflexivity).
      replace (S (length pre)) with (length (pre ++ [c]))
        by (rewrite length_app; simpl; lia).
      apply IH; [simpl in Hlen; lia|].
      intros i w Hseq Hocc Hi.
      rewrite <- app_assoc in Hocc. rewrite length_app in Hi |- *.
      simpl in Hocc, Hi |- *.
      destruct (Nat.eq_dec i (length pre)) as [->|Hne].
      * rewrite (match_at_boundary _ _ _ Hseq Hocc) in E. discriminate.
      * specialize (Hinv i w Hseq Hocc). lia.
Qed.

End AnsiFacts.

(** C4. [strip_ansi_escape_codes] deletes from its input exactly the code
    points that lie inside an occurrence of an ANSI CSI sequence and keeps
    all the others, in order; this determines its result.  On
    ["\x1b[31mRed\x1b[0m"] the result is ["Red"]. *)
Theorem strip_ansi_escape_codes_spec :
  (forall text : str,
      erase (Csi.inside text) 0 text (strip_ansi_escape_codes text)
      /\ (forall out, erase (Csi.inside text) 0 text out ->
                      out = strip_ansi_escape_codes text))
  /\ strip_ansi_escape_codes
       ([ESC] ++ Py.lit "[31mRed" ++ [ESC] ++ Py.lit "[0m") = Py.lit "Red".
Proof.
  split; [|reflexivity].
  intros text.
  assert (H : erase (Csi.inside text) 0 text (strip_ansi_escape_codes text)).
  { apply (strip_erases (length text) text []); [lia|].
    simpl. intros; lia. }
  split; [exact H|].
  intros out Hout. eapply erase_unique; eassumption.
Qed.



(** The characterisation on a text with two sequences, one of them with
    parameter and intermediate bytes. *)
Lemma strip_ansi_escape_codes_spec_witness :
  let text := [ESC] ++ Py.lit "[1;31mbold" ++ [ESC] ++ Py.lit "[0 q!" in
  erase (Csi.inside text) 0 text (strip_ansi_escape_codes text)
  /\ strip_ansi_escape_codes text = Py.lit "bold!".
Proof.
  intros text.
  split; [exact (proj1 (proj1 strip_ansi_escape_codes_spec text)) | reflexivity].
Defined.

(** [sub] makes one pass: what is left around a deleted sequence can form
    a sequence of its own, which stays. *)
Example strip_is_one_pass :
  strip_ansi_escape_codes
    ([ESC; ESC] ++ Py.lit "[0m" ++ Py.lit "[0m") = [ESC] ++ Py.lit "[0m".
Proof. reflexivity. Qed.

(** ** The worker *)

Section WorkerFacts.

Import Worker.

Lemma deliver_all (reads : list read_event) (self : t) :
  fold_left deliver reads self =
  {| cmd := cmd self;
     output_data := output_data self ++ accumulated (stdout_chunks reads);
     error_data := error_data self ++ accumulated (stderr_chunks reads) |}.
Proof.
  revert self. induction reads as [|e reads IH]; intros self.
  - destruct self. cbn. rewrite !app_nil_r. reflexivity.
  - cbn [fold_left]. rewrite IH.
    destruct e; cbn; unfold accumulated; cbn;
      rewrite <- ?app_assoc; reflexivity.
Qed.

Lemma accumulated_no_bytes (chunks : list (list byte)) :
  concat chunks = [] -> accumulated chunks = [].
Proof.
  induction chunks as [|b chunks IH]; [reflexivity|].
  cbn. intros H. apply app_eq_nil in H as [-> H].
  unfold accumulated in *. cbn. apply IH, H.
Qed.

Lemma truthy_iff (s : str) : Py.truthy s = true <-> s <> [].
Proof. destruct s; cbn; split; congruence. Qed.

End WorkerFacts.

(** What the two slots and [process_finished] do with any sequence of
    reads: one callback signal, then [finished]; [error_occurred] exactly
    when the text gathered by [handle_stderr] is not empty. *)
Lemma invocation_signals (cmd : list str) (reads : list Worker.read_event)
      (exit_code : Z) (exit_status : Worker.ExitStatus) :
  let out := Worker.accumulated (Worker.stdout_chunks reads) in
  let err := Worker.accumulated (Worker.stderr_chunks reads) in
  Worker.invocation cmd reads exit_code exit_status
  = (if Py.truthy err
     then [Worker.error_occurred err; Worker.finished]
     else [Worker.output_ready out; Worker.finished]).
Proof.
  intros out err.
  unfold Worker.invocation. rewrite deliver_all.
  unfold Worker.process_finished. cbn. fold err. fold out.
  destruct (Py.truthy err); reflexivity.
Qed.

Lemma merged_reads_stdout (writes : list QProcess.write) :
  Worker.stdout_chunks (QProcess.reads Worker.MergedChannels writes)
  = map snd writes.
Proof.
  induction writes as [|[c b] writes IH]; [reflexivity|].
  cbn. f_equal. exact IH.
Qed.

Lemma merged_reads_stderr (writes : list QProcess.write) :
  Worker.stderr_chunks (QProcess.reads Worker.MergedChannels writes) = [].
Proof.
  induction writes as [|[c b] writes IH]; [reflexivity|].
  cbn. exact IH.
Qed.

(** C1 (the code misses the claim).  [Worker.run] starts the process with
    [MergedChannels], so whatever the process writes, to either channel,
    reaches [handle_stdout]: the worker emits exactly one callback, and it
    is always [output_ready], with the stripped text of all chunks in the
    order written; [error_occurred] is never emitted, and [handle_stderr]
    and the failure branch of [process_finished] never run.  A process
    that writes "ok" to its output and "E:no" to its error channel and
    exits with code 1 is reported as a success with the text "okE:no",
    where the claim has the failure callback with "E:no". *)
Theorem worker_error_channel_reported_as_success :
  (forall cmd writes exit_code exit_status,
      let emitted := QProcess.execute cmd writes exit_code exit_status in
      emitted = [Worker.output_ready (Worker.accumulated (map snd writes));
                 Worker.finished]
      /\ length (filter Worker.is_callback emitted) = 1%nat
      /\ forall text, ~ In (Worker.error_occurred text) emitted)
  /\ (let writes :=
        [(QProcess.StandardOutput, list_byte_of_string "ok");
         (QProcess.StandardError, list_byte_of_string "E:no")] in
      QProcess.written QProcess.StandardError writes
      = [list_byte_of_string "E:no"]
      /\ QProcess.execute [Py.lit "-i"; Py.lit "nosuchapp"] writes 1
                          Worker.NormalExit
         = [Worker.output_ready (Py.lit "okE:no"); Worker.finished]).
Proof.
  split; [|split; reflexivity].
  intros cmd writes exit_code exit_status emitted.
  assert (E : emitted
              = [Worker.output_ready (Worker.accumulated (map snd writes));
                 Worker.finished]).
  { unfold emitted, QProcess.execute.
    change (Worker.channel_mode (Worker.run (Worker.init cmd)))
      with Worker.MergedChannels.
    rewrite invocation_signals, merged_reads_stderr, merged_reads_stdout.
    reflexivity. }
  rewrite E. split; [reflexivity|]. split; [reflexivity|].
  intros text [H|[H|[]]]; discriminate.
Qed.

(** ** The line parsers *)

Section ParserFacts.

Lemma COLON_nonempty : COLON <> [].
Proof. discriminate. Qed.

Lemma BAR_nonempty : BAR <> [].
Proof. discriminate. Qed.

(** [lstrip('◆')] removes every leading marker glyph. *)
Lemma lstrip_marker_spec (s : str) :
  exists k, s = repeat 9670 k ++ Py.lstrip_chars MARKER s
            /\ hd_error (Py.lstrip_chars MARKER s) <> Some 9670.
Proof.
  unfold Py.lstrip_chars.
  induction s as [|c s (k & E & H)].
  - exists 0%nat. split; [reflexivity | discriminate].
  - cbn [Py.drop_while]. change (existsb (N.eqb c) MARKER) with ((c =? 9670) || false).
    rewrite orb_false_r. destruct (N.eqb_spec c 9670) as [->|Hne].
    + exists (S k). split; [|exact H].
      cbn [repeat]. rewrite <- app_comm_cons. f_equal. exact E.
    + exists 0%nat. split; [reflexivity|]. cbn. congruence.
Qed.

Lemma name_of_spec (part : str) :
  exists k rest,
    Py.strip part = repeat 9670 k ++ rest
    /\ hd_error rest <> Some 9670
    /\ name_of part = Py.strip rest.
Proof.
  destruct (lstrip_marker_spec (Py.strip part)) as (k & E & H).
  exists k, (Py.lstrip_chars MARKER (Py.strip part)). auto.
Qed.

Lemma name_of_strip (part : str) : name_of (Py.strip part) = name_of part.
Proof. unfold name_of. rewrite strip_idempotent. reflexivity. Qed.

Lemma strip_name_of (part : str) : Py.strip (name_of part) = name_of part.
Proof. apply strip_idempotent. Qed.

Lemma file_name_colon (line l r : str) :
  first_split COLON line l r ->
  FileLoaderWorker.extract_app_name line = name_of l
  /\ FileLoaderWorker.extract_app_description line = Py.strip r.
Proof.
  intros H. unfold FileLoaderWorker.extract_app_name,
              FileLoaderWorker.extract_app_description.
  rewrite (contains_first_split _ _ _ _ H), (split_once _ _ _ _ COLON_nonempty H).
  split; [apply strip_name_of | reflexivity].
Qed.

Lemma file_name_plain (line : str) :
  Py.contains COLON line = false ->
  FileLoaderWorker.extract_app_name line = name_of line
  /\ FileLoaderWorker.extract_app_description line = [].
Proof.
  intros H. unfold FileLoaderWorker.extract_app_name,
              FileLoaderWorker.extract_app_description.
  rewrite H. split; [apply strip_name_of | reflexivity].
Qed.

Lemma gui_description_colon (line l r : str) :
  first_split COLON line l r ->
  AppImageManagerGUI.extract_app_description line = Py.strip r.
Proof.
  intros H. unfold AppImageManagerGUI.extract_app_description.
  rewrite (contains_first_split _ _ _ _ H), (split_once _ _ _ _ COLON_nonempty H).
  reflexivity.
Qed.

Lemma gui_name_colon (line l r : str) :
  Py.contains BAR line = false -> first_split COLON line l r ->
  AppImageManagerGUI.extract_app_name line = name_of l.
Proof.
  intros Hb H. unfold AppImageManagerGUI.extract_app_name.
  rewrite Hb, (contains_first_split _ _ _ _ H), (split_once _ _ _ _ COLON_nonempty H).
  reflexivity.
Qed.

Lemma gui_bar (line l r : str) :
  Py.contains COLON line = false -> first_split BAR line l r ->
  AppImageManagerGUI.extract_app_name line = name_of l
  /\ AppImageManagerGUI.extract_app_description line = Py.strip r.
Proof.
  intros Hc H. unfold AppImageManagerGUI.extract_app_name,
                 AppImageManagerGUI.extract_app_description.
  rewrite Hc, (contains_first_split _ _ _ _ H),
    (split_once _ _ _ _ BAR_nonempty H), (split_all_first _ _ _ _ BAR_nonempty H).
  split; reflexivity.
Qed.

Lemma gui_plain (line : str) :
  Py.contains COLON line = false -> Py.contains BAR line = false ->
  AppImageManagerGUI.extract_app_name line = name_of line
  /\ AppImageManagerGUI.extract_app_description line = [].
Proof.
  intros Hc Hb. unfold AppImageManagerGUI.extract_app_name,
                  AppImageManagerGUI.extract_app_description.
  rewrite Hc, Hb. split; reflexivity.
Qed.

(** *** The two loops *)

Lemma file_loop_spec (lines : list str) : forall apps,
  FileLoaderWorker.loop lines apps =
  apps ++ map file_entry (filter (fun l => Py.truthy (Py.strip l)) lines).
Proof.
  induction lines as [|l lines IH]; intros apps; cbn [FileLoaderWorker.loop filter].
  - cbn. rewrite app_nil_r. reflexivity.
  - destruct (Py.truthy (Py.strip l)); cbn [negb map].
    + rewrite IH, <- app_assoc. reflexivity.
    + apply IH.
Qed.

Lemma startswith_nil_marker : Py.startswith [] MARKER = false.
Proof. reflexivity. Qed.

Lemma installed_loop_spec (lines : list str) : forall apps,
  AppImageManagerGUI.installed_loop lines apps =
  apps ++ map installed_entry (filter is_marker_line lines).
Proof.
  induction lines as [|l lines IH]; intros apps;
    cbn [AppImageManagerGUI.installed_loop filter].
  - cbn. rewrite app_nil_r. reflexivity.
  - unfold is_marker_line at 1.
    destruct (Py.strip l) as [|c t] eqn:E.
    + cbn [Py.truthy negb]. rewrite startswith_nil_marker. apply IH.
    + cbn [Py.truthy negb].
      destruct (Py.startswith (c :: t) MARKER) eqn:Hm; cbn [negb map].
      * rewrite IH, <- app_assoc. reflexivity.
      * apply IH.
Qed.

Lemma refresh_spec (output : str) :
  AppImageManagerGUI.refresh_installed_apps_callback output =
  map installed_entry (filter is_marker_line (output_lines output)).
Proof.
  unfold AppImageManagerGUI.refresh_installed_apps_callback.
  destruct output as [|c output]; [reflexivity|].
  cbn [Py.truthy]. rewrite installed_loop_spec. reflexivity.
Qed.

End ParserFacts.

(** C2 (amended).  When a line contains [" : "], both parsers take the
    trimmed text after its first occurrence as the description, and the
    file parser takes the part before it as the name, as does the
    installed-list parser on a line without ["|"].  On a line without
    [" : "] the installed-list parser splits at the first ["|"]; the
    parser of the available-apps file never looks at ["|"]: there the
    whole line is the name.  The parser that knows ["|"] is the one the
    installed-list refresh uses. *)
Theorem line_parser_delimiters (line : str) :
  (Py.contains COLON line = true ->
   exists l r,
     first_split COLON line l r
     /\ FileLoaderWorker.extract_app_name line = name_of l
     /\ FileLoaderWorker.extract_app_description line = Py.strip r
     /\ AppImageManagerGUI.extract_app_description line = Py.strip r
     /\ (Py.contains BAR line = false ->
         AppImageManagerGUI.extract_app_name line = name_of l))
  /\ (Py.contains COLON line = false -> Py.contains BAR line = true ->
      exists l r,
        first_split BAR line l r
        /\ AppImageManagerGUI.extract_app_name line = name_of l
        /\ AppImageManagerGUI.extract_app_description line = Py.strip r
        /\ FileLoaderWorker.extract_app_name line = name_of line
        /\ FileLoaderWorker.extract_app_description line = [])
  /\ (Py.contains COLON (Py.strip line) = false -> Py.strip line <> [] ->
      FileLoaderWorker.run (FileLoaderWorker.Yields [line])
      = [(name_of line, [], true)])
  /\ (Py.contains [10] (Py.strip line) = false -> is_marker_line line = true ->
      Py.contains COLON (Py.strip line) = false ->
      Py.contains BAR (Py.strip line) = true ->
      exists l r,
        first_split BAR (Py.strip line) l r
        /\ AppImageManagerGUI.refresh_installed_apps_callback line
           = [(name_of l, Py.join (Py.lit " ") (Py.splitlines (Py.strip r)), true)]).
Proof.
  split; [|split; [|split]].
  - intros Hc.
    destruct (first_split_exists _ _ COLON_nonempty Hc) as (l & r & H).
    exists l, r. split; [exact H|].
    destruct (file_name_colon _ _ _ H) as [-> ->].
    rewrite (gui_description_colon _ _ _ H).
    repeat split. intros Hb. apply (gui_name_colon _ _ _ Hb H).
  - intros Hc Hb.
    destruct (first_split_exists _ _ BAR_nonempty Hb) as (l & r & H).
    exists l, r. split; [exact H|].
    destruct (gui_bar _ _ _ Hc H) as [-> ->].
    destruct (file_name_plain _ Hc) as [-> ->]. repeat split.
  - intros Hc Hne. cbn [FileLoaderWorker.run].
    rewrite file_loop_spec. cbn [filter].
    apply truthy_iff in Hne. rewrite Hne. cbn [map app]. unfold file_entry.
    destruct (file_name_plain _ Hc) as [-> ->].
    rewrite name_of_strip. reflexivity.
  - intros Hnl Hm Hc Hb.
    destruct (first_split_exists _ _ BAR_nonempty Hb) as (l & r & H).
    exists l, r. split; [exact H|].
    rewrite refresh_spec. unfold output_lines, Py.split.
    rewrite split_scan_whole by (right; exact Hnl).
    change (rev [] ++ Py.strip line) with (Py.strip line).
    assert (Hm' : is_marker_line (Py.strip line) = true).
    { unfold is_marker_line in *. rewrite strip_idempotent. exact Hm. }
    cbn [filter]. rewrite Hm'. cbn [map]. unfold installed_entry.
    destruct (gui_bar _ _ _ Hc H) as [-> ->]. reflexivity.
Qed.

(** The line of the specification's own example, which contains
    [" : "] twice. *)
Lemma line_parser_delimiters_witness :
  let line := Py.lit "◆Foo Bar : does X : extra" in
  exists l r,
    first_split COLON line l r
    /\ FileLoaderWorker.extract_app_name line = name_of l
    /\ FileLoaderWorker.extract_app_description line = Py.strip r
    /\ AppImageManagerGUI.extract_app_description line = Py.strip r
    /\ (Py.contains BAR line = false ->
        AppImageManagerGUI.extract_app_name line = name_of l).
Proof.
  intros line. exact (proj1 (line_parser_delimiters line) eq_refl).
Defined.

Example parse_spec_line :
  let line := Py.lit "◆Foo Bar : does X : extra" in
  AppImageManagerGUI.extract_app_name line = Py.lit "Foo Bar"
  /\ AppImageManagerGUI.extract_app_description line = Py.lit "does X : extra"
  /\ FileLoaderWorker.extract_app_name line = Py.lit "Foo Bar"
  /\ FileLoaderWorker.extract_app_description line = Py.lit "does X : extra".
Proof. repeat split. Qed.

(** C2 as stated fails.  On a line with both delimiters the name is cut
    at ["|"], not at [" : "]; and it is the installed-list refresh that
    splits at ["|"], while the available-apps file path does not. *)
Lemma line_parser_bar_counterexample :
  AppImageManagerGUI.extract_app_name (Py.lit "◆Foo : a|b") = Py.lit "Foo : a"
  /\ AppImageManagerGUI.extract_app_description (Py.lit "◆Foo : a|b")
     = Py.lit "a|b"
  /\ AppImageManagerGUI.refresh_installed_apps_callback (Py.lit "◆a|b")
     = [(Py.lit "a", Py.lit "b", true)]
  /\ FileLoaderWorker.run (FileLoaderWorker.Yields [Py.lit "◆a|b" ++ [10]])
     = [(Py.lit "a|b", [], true)].
Proof. repeat split. Qed.

(** C3 (amended).  On a line with neither delimiter both parsers return an
    empty description, and as name the trimmed line without all of its
    leading marker glyphs, trimmed once more. *)
Theorem line_without_delimiter (line : str) :
  Py.contains COLON line = false -> Py.contains BAR line = false ->
  AppImageManagerGUI.extract_app_description line = []
  /\ FileLoaderWorker.extract_app_description line = []
  /\ AppImageManagerGUI.extract_app_name line = name_of line
  /\ FileLoaderWorker.extract_app_name line = name_of line
  /\ exists k rest,
      Py.strip line = repeat 9670 k ++ rest
      /\ hd_error rest <> Some 9670
      /\ name_of line = Py.strip rest.
Proof.
  intros Hc Hb.
  destruct (gui_plain _ Hc Hb) as [-> ->].
  destruct (file_name_plain _ Hc) as [-> ->].
  repeat split. apply name_of_spec.
Qed.

Lemma line_without_delimiter_witness :
  let line := Py.lit "  ◆◆ Foo  " in
  AppImageManagerGUI.extract_app_description line = []
  /\ FileLoaderWorker.extract_app_description line = []
  /\ AppImageManagerGUI.extract_app_name line = name_of line
  /\ FileLoaderWorker.extract_app_name line = name_of line
  /\ exists k rest,
      Py.strip line = repeat 9670 k ++ rest
      /\ hd_error rest <> Some 9670
      /\ name_of line = Py.strip rest.
Proof.
  intros line. exact (line_without_delimiter line eq_refl eq_refl).
Defined.

(** C3 as stated fails: a line that begins with two marker glyphs keeps
    none of them in the name. *)
Lemma two_markers_counterexample :
  let line := Py.lit "◆◆Foo" in
  Py.contains COLON line = false /\ Py.contains BAR line = false
  /\ AppImageManagerGUI.extract_app_name line = Py.lit "Foo"
  /\ FileLoaderWorker.extract_app_name line = Py.lit "Foo"
  /\ AppImageManagerGUI.extract_app_name line <> Py.lit "◆Foo".
Proof. repeat split. discriminate. Qed.

(** ** The installed list *)

(** C5 (amended).  The installed-apps refresh makes one entry, flagged
    true, of every line of the trimmed output whose own trimmed text
    begins with the marker glyph, in order, and of no other line.  The
    mock output of the specification gives its two entries. *)
Theorem installed_refresh_entries (output : str) :
  AppImageManagerGUI.refresh_installed_apps_callback output
  = map installed_entry (filter is_marker_line (output_lines output))
  /\ Forall (fun a => flag a = true)
            (AppImageManagerGUI.refresh_installed_apps_callback output)
  /\ AppImageManagerGUI.refresh_installed_apps_callback
       (Py.lit "◆App1 : desc1" ++ [10] ++ Py.lit "not-an-app-line" ++ [10]
        ++ Py.lit "◆App2 : desc2" ++ [10])
     = [(Py.lit "App1", Py.lit "desc1", true);
        (Py.lit "App2", Py.lit "desc2", true)].
Proof.
  split; [apply refresh_spec|]. split; [|reflexivity].
  rewrite refresh_spec. apply Forall_forall. intros a Ha.
  apply in_map_iff in Ha as (l & <- & _). reflexivity.
Qed.

(** C5 as stated fails: a line that begins with white space, not with the
    marker glyph, produces an entry when the glyph comes next. *)
Lemma indented_marker_line_counterexample :
  let line := Py.lit "  ◆App1 : d" in
  let output := Py.lit "header" ++ [10] ++ line in
  In line (output_lines output)
  /\ Py.startswith line MARKER = false
  /\ AppImageManagerGUI.refresh_installed_apps_callback output
     = [(Py.lit "App1", Py.lit "d", true)].
Proof. split; [right; left; reflexivity|]. split; reflexivity. Qed.

(** ** The search over the cached list *)

Section SearchFacts.

Import AppImageManagerGUI.

Variable lower : str -> str.

Lemma comprehension_filter (search_text : str) (apps : list app) :
  flat_map (fun a => let '(app_name, description, is_app) := a in
                     if search_hit lower search_text a
                     then [(app_name, description, is_app)] else []) apps
  = filter (search_hit lower search_text) apps.
Proof.
  induction apps as [|[[n d] i] apps IH]; [reflexivity|].
  cbn [flat_map filter]. rewrite IH.
  destruct (search_hit lower search_text (n, d, i)); reflexivity.
Qed.

Lemma perform_search_hit (self : gui) :
  Py.strip (search_box self) <> [] ->
  perform_search lower self
  = display_available_apps self
      (filter (search_hit lower (Py.strip (search_box self)))
              (all_available_apps self)).
Proof.
  intros H. apply truthy_iff in H. unfold perform_search.
  rewrite H, comprehension_filter. reflexivity.
Qed.

Lemma perform_search_blank (self : gui) :
  Py.strip (search_box self) = [] ->
  perform_search lower self
  = emit self (Warning (Py.lit "Input Required")
                       (Py.lit "Please enter a search term.")).
Proof. intros H. unfold perform_search. rewrite H. reflexivity. Qed.

Lemma search_hit_iff (q n d : str) (i : bool) :
  search_hit lower q (n, d, i) = true
  <-> substring (lower q) (lower n) \/ substring (lower q) (lower d).
Proof.
  unfold search_hit, substring. rewrite orb_true_iff, !contains_iff. tauto.
Qed.

End SearchFacts.

(** C6 (amended).  A text of fewer than 2 code points starts no search and
    leaves the displayed list as it is.  A text of 2 or more starts one:
    if its trimmed form is empty a warning is shown and the list stays;
    otherwise the displayed list becomes the entries of the cache whose
    lower-cased name or description contains the lower-cased trimmed
    text.  The cache is never changed and no command or file load is
    started. *)
Theorem search_filters_cache (lower : str -> str)
        (self : AppImageManagerGUI.gui) (text : str) :
  let self' := AppImageManagerGUI.text_changed lower self text in
  let query := Py.strip text in
  AppImageManagerGUI.all_available_apps self'
  = AppImageManagerGUI.all_available_apps self
  /\ ((Py.len text < 2)%nat ->
      AppImageManagerGUI.available_apps self'
      = AppImageManagerGUI.available_apps self
      /\ AppImageManagerGUI.effects self' = AppImageManagerGUI.effects self)
  /\ ((2 <= Py.len text)%nat -> query = [] ->
      AppImageManagerGUI.available_apps self'
      = AppImageManagerGUI.available_apps self
      /\ AppImageManagerGUI.effects self'
         = AppImageManagerGUI.effects self
           ++ [AppImageManagerGUI.Warning
                 (Py.lit "Input Required")
                 (Py.lit "Please enter a search term.")])
  /\ ((2 <= Py.len text)%nat -> query <> [] ->
      AppImageManagerGUI.available_apps self'
      = filter (AppImageManagerGUI.search_hit lower query)
               (AppImageManagerGUI.all_available_apps self)
      /\ AppImageManagerGUI.effects self' = AppImageManagerGUI.effects self
      /\ forall n d i,
          In (n, d, i) (AppImageManagerGUI.available_apps self')
          <-> In (n, d, i) (AppImageManagerGUI.all_available_apps self)
              /\ (substring (lower query) (lower n)
                  \/ substring (lower query) (lower d))).
Proof.
  intros self' query.
  unfold self', AppImageManagerGUI.text_changed,
    AppImageManagerGUI.on_search_text_changed.
  destruct (Nat.leb_spec 2 (Py.len text)) as [Hlen|Hlen].
  - destruct (list_eq_dec N.eq_dec query []) as [Hq|Hq].
    + rewrite perform_search_blank by exact Hq.
      split; [reflexivity|]. split; [intros; lia|].
      split; [intros; split; reflexivity | intros; contradiction].
    + rewrite perform_search_hit by exact Hq.
      split; [reflexivity|]. split; [intros; lia|].
      split; [intros; contradiction|]. intros _ _.
      split; [reflexivity|]. split; [reflexivity|].
      intros n d i. cbn. rewrite filter_In, search_hit_iff. reflexivity.
  - split; [reflexivity|]. split; [intros; split; reflexivity|].
    split; intros; lia.
Qed.

Lemma search_filters_cache_witness :
  let self :=
    {| AppImageManagerGUI.available_apps := [];
       AppImageManagerGUI.all_available_apps :=
         [(Py.lit "GIMP", Py.lit "image editor", true);
          (Py.lit "vlc", Py.lit "media player", true)];
       AppImageManagerGUI.available_apps_loaded := true;
       AppImageManagerGUI.search_box := [];
       AppImageManagerGUI.effects := [] |} in
  AppImageManagerGUI.available_apps
    (AppImageManagerGUI.text_changed lower_ascii self (Py.lit " gim "))
  = [(Py.lit "GIMP", Py.lit "image editor", true)].
Proof.
  intros self.
  refine (proj1 (proj2 (proj2 (proj2
            (search_filters_cache lower_ascii self (Py.lit " gim ")))) _ _)).
  - cbn. lia.
  - discriminate.
Defined.

(** C6 as stated fails.  A text of two blanks is 2 code points long and
    filters nothing: the list stays, with entries that do not contain the
    text.  A text with a blank at its end keeps entries that contain only
    its trimmed form. *)
Lemma search_blank_query_counterexample :
  let cache := [(Py.lit "foo", Py.lit "bar", true);
                (Py.lit "cAB", [], true)] in
  let self :=
    {| AppImageManagerGUI.available_apps := cache;
       AppImageManagerGUI.all_available_apps := cache;
       AppImageManagerGUI.available_apps_loaded := true;
       AppImageManagerGUI.search_box := [];
       AppImageManagerGUI.effects := [] |} in
  (2 <= Py.len (Py.lit "  "))%nat
  /\ AppImageManagerGUI.available_apps
       (AppImageManagerGUI.text_changed lower_ascii self (Py.lit "  "))
     = cache
  /\ filter (AppImageManagerGUI.search_hit lower_ascii (Py.lit "  ")) cache = []
  /\ AppImageManagerGUI.available_apps
       (AppImageManagerGUI.text_changed lower_ascii self (Py.lit "ab "))
     = [(Py.lit "cAB", [], true)]
  /\ filter (AppImageManagerGUI.search_hit lower_ascii (Py.lit "ab ")) cache = [].
Proof. cbn. repeat split. lia. Qed.

(** ** The flag of an entry *)

(** C7 (amended).  Every entry carries the flag [true], whichever path
    made it: the entries of the available-apps file as well as those of
    the installed list, which come from marker lines only.  The search
    shows entries of the cache unchanged. *)
Theorem every_entry_flagged (f : FileLoaderWorker.file_read) (output : str)
        (lower : str -> str) (self : AppImageManagerGUI.gui) :
  Forall (fun a => flag a = true) (FileLoaderWorker.run f)
  /\ Forall (fun a => flag a = true)
            (AppImageManagerGUI.refresh_installed_apps_callback output)
  /\ (forall a,
        In a (AppImageManagerGUI.refresh_installed_apps_callback output) ->
        exists line, In line (output_lines output)
                     /\ is_marker_line line = true /\ a = installed_entry line)
  /\ (forall a,
        In a (AppImageManagerGUI.available_apps
                (AppImageManagerGUI.perform_search lower self)) ->
        In a (AppImageManagerGUI.all_available_apps self)
        \/ In a (AppImageManagerGUI.available_apps self)).
Proof.
  split; [|split; [|split]].
  - destruct f as [|lines]; [constructor|]. cbn [FileLoaderWorker.run].
    rewrite file_loop_spec. apply Forall_forall. intros a Ha.
    apply in_map_iff in Ha as (l & <- & _). reflexivity.
  - rewrite refresh_spec. apply Forall_forall. intros a Ha.
    apply in_map_iff in Ha as (l & <- & _). reflexivity.
  - intros a Ha. rewrite refresh_spec in Ha.
    apply in_map_iff in Ha as (l & <- & Hl). apply filter_In in Hl as [Hl Hm].
    eauto.
  - intros a Ha.
    destruct (list_eq_dec N.eq_dec
                (Py.strip (AppImageManagerGUI.search_box self)) []) as [Hq|Hq].
    + rewrite perform_search_blank in Ha by exact Hq. right. exact Ha.
    + rewrite perform_search_hit in Ha by exact Hq. cbn in Ha.
      apply filter_In in Ha as [Ha _]. left. exact Ha.
Qed.

(** An entry of the installed list, traced back to its marker line. *)
Lemma every_entry_flagged_witness :
  let output := Py.lit " 1 app installed" ++ [10] ++ Py.lit " ◆ vlc | player" in
  exists line,
    In line (output_lines output)
    /\ is_marker_line line = true
    /\ (Py.lit "vlc", Py.lit "player", true) = installed_entry line.
Proof.
  intros output.
  refine (proj1 (proj2 (proj2
            (every_entry_flagged FileLoaderWorker.OpenRaises output lower_ascii
               {| AppImageManagerGUI.available_apps := [];
                  AppImageManagerGUI.all_available_apps := [];
                  AppImageManagerGUI.available_apps_loaded := false;
                  AppImageManagerGUI.search_box := [];
                  AppImageManagerGUI.effects := [] |})))
            (Py.lit "vlc", Py.lit "player", true) _).
  left. reflexivity.
Defined.

(** C7 as stated fails: an entry read from the available-apps file carries
    the flag [true]. *)
Lemma file_entry_flag_counterexample :
  FileLoaderWorker.run (FileLoaderWorker.Yields [Py.lit "foo : bar" ++ [10]])
  = [(Py.lit "foo", Py.lit "bar", true)].
Proof. reflexivity. Qed.

(** ** The message of a successful install *)

Section InstallFacts.

Lemma app_eq_app_le (l1 l2 l3 l4 : str) :
  l1 ++ l2 = l3 ++ l4 -> (length l1 <= length l3)%nat ->
  exists x, l3 = l1 ++ x /\ l2 = x ++ l4.
Proof.
  intros E Hlen. apply app_eq_app in E as (l & [[E1 E2]|[E1 E2]]).
  - assert (l = []) as ->.
    { apply length_zero_iff_nil. rewrite E1, length_app in Hlen. lia. }
    rewrite app_nil_r in E1. subst. exists []. rewrite app_nil_r. auto.
  - eauto.
Qed.

(** A separator whose first code point does not come back in it cannot
    overlap itself: the occurrence that is followed by no other is the
    last one. *)
Lemma last_split_border_free c (sep' s pre tail : str) :
  ~ In c sep' ->
  s = pre ++ (c :: sep') ++ tail ->
  Py.contains (c :: sep') tail = false ->
  last_split (c :: sep') s pre tail.
Proof.
  intros Hc E Hno. split; [exact E|]. intros pre' tail' E'.
  destruct (le_lt_dec (length pre') (length pre)) as [|Hlt]; [assumption|].
  exfalso.
  destruct (le_lt_dec (length (pre ++ c :: sep')) (length pre')) as [Hle|Hin].
  - rewrite E, app_assoc in E'.
    apply app_eq_app_le in E' as (x & _ & Et); [|exact Hle].
    apply not_true_iff_false in Hno. apply Hno, contains_iff. eauto.
  - assert (H : nth_error s (length pre') = Some c).
    { eapply occurs_at_head. exists pre', tail'. split; [exact E'|reflexivity]. }
    rewrite length_app in Hin.
    rewrite E, nth_error_app2, nth_error_app1 in H by lia.
    destruct (length pre' - length pre)%nat as [|k] eqn:Ek; [lia|].
    cbn in H. apply nth_error_In in H. contradiction.
Qed.

Lemma success_message_start_shape :
  exists sep', AppImageManagerGUI.success_message_start = 84 :: sep'
               /\ ~ In 84 sep'.
Proof.
  exists (tl AppImageManagerGUI.success_message_start).
  split; [vm_compute; reflexivity|]. intros H.
  assert (E : existsb (N.eqb 84) (tl AppImageManagerGUI.success_message_start)
              = true).
  { apply existsb_exists. exists 84. split; [exact H | apply N.eqb_refl]. }
  vm_compute in E. discriminate.
Qed.

Lemma success_message_start_nonempty :
  AppImageManagerGUI.success_message_start <> [].
Proof. discriminate. Qed.

Lemma display_with_marker (output : str) :
  Py.contains AppImageManagerGUI.success_message_start output = true ->
  exists pre tail,
    last_split AppImageManagerGUI.success_message_start output pre tail
    /\ Py.last_item (Py.split AppImageManagerGUI.success_message_start None output)
       = tail.
Proof.
  intros H.
  destruct (split_last _ success_message_start_nonempty (length output)
                       output [] (le_n _))
    as [[Hno _]|(pre & tail & E & Hno & Hl)]; [congruence|].
  exists pre, tail. split; [|exact Hl].
  destruct success_message_start_shape as (sep' & Es & Hc).
  rewrite Es in *. apply last_split_border_free; assumption.
Qed.

End InstallFacts.

(** C8 (amended).  When the output of an install contains the marker
    phrase, the message shown is the phrase itself, a newline, and the
    trimmed text that follows the last occurrence of the phrase; when it
    does not, the message is the output as it is.  Both install actions
    show the same message and then start the installed-list refresh. *)
Theorem install_message (output : str) :
  let marker := AppImageManagerGUI.success_message_start in
  let display := AppImageManagerGUI.install_selected_appimage_display output in
  AppImageManagerGUI.install_selected_appimage_from_suggested_display output
  = display
  /\ (Py.contains marker output = false -> display = output)
  /\ (Py.contains marker output = true ->
      exists pre tail,
        last_split marker output pre tail
        /\ display = marker ++ [10] ++ Py.strip tail)
  /\ (forall self,
        AppImageManagerGUI.effects
          (AppImageManagerGUI.install_selected_appimage_callback self output)
        = AppImageManagerGUI.effects self
          ++ [AppImageManagerGUI.Information
                (Py.lit "Installation Complete") display;
              AppImageManagerGUI.RunScriptAsync [Py.lit "-f"]]).
Proof.
  intros marker display. split; [reflexivity|]. split; [|split].
  - intros H. unfold display, AppImageManagerGUI.install_selected_appimage_display.
    fold marker. rewrite H. reflexivity.
  - intros H. destruct (display_with_marker output H) as (pre & tail & Hl & E).
    exists pre, tail. split; [exact Hl|].
    unfold display, AppImageManagerGUI.install_selected_appimage_display.
    fold marker. rewrite H. unfold marker. rewrite E. reflexivity.
  - intros self. cbn. rewrite <- app_assoc. reflexivity.
Qed.

Lemma install_message_witness :
  let marker := AppImageManagerGUI.success_message_start in
  let output := Py.lit "Installing vlc" ++ [10] ++ marker ++ [10]
                ++ Py.lit "  vlc 3.0  " ++ [10] in
  exists pre tail,
    last_split marker output pre tail
    /\ AppImageManagerGUI.install_selected_appimage_display output
       = marker ++ [10] ++ Py.strip tail.
Proof.
  intros marker output.
  exact (proj1 (proj2 (proj2 (install_message output))) eq_refl).
Defined.

(** C8 as stated fails: the message begins with the marker phrase, and the
    text after the phrase is trimmed. *)
Lemma install_message_counterexample :
  let marker := AppImageManagerGUI.success_message_start in
  let following := [10] ++ Py.lit "  vlc 3.0  " ++ [10] in
  let output := Py.lit "Installing vlc" ++ [10] ++ marker ++ following in
  Py.contains marker output = true
  /\ AppImageManagerGUI.install_selected_appimage_display output
     = marker ++ [10] ++ Py.lit "vlc 3.0"
  /\ AppImageManagerGUI.install_selected_appimage_display output <> following
  /\ AppImageManagerGUI.install_selected_appimage_display output
     <> Py.lit "vlc 3.0".
Proof. repeat split; discriminate. Qed.

(** ** The installer script is always removed *)

Section BootstrapFacts.

Import Bootstrap.

Lemma finally_clause_post (w w' : fs) (c : completion unit) :
  finally_clause w = (w', c) ->
  Os.is_file w' AM_INSTALLER = false
  /\ (c = Normal tt -> Os.path_exists w' AM_INSTALLER = false)
  /\ (forall v, c <> Return v).
Proof.
  unfold finally_clause, Os.path_exists, Os.remove, Os.is_file.
  destruct (w !! AM_INSTALLER) as [[content|]|] eqn:E; intros [= <- <-].
  - rewrite lookup_delete_eq. repeat split; discriminate.
  - rewrite E. repeat split; discriminate.
  - rewrite E. repeat split; discriminate.
Qed.

Lemma try_except_finally_post {A} (body : M A) (handler : exn -> M A)
      (w w' : fs) (c : completion A) :
  try_except_finally body handler finally_clause w = (w', c) ->
  Os.is_file w' AM_INSTALLER = false
  /\ ((forall e, c <> Raise e) -> Os.path_exists w' AM_INSTALLER = false).
Proof.
  unfold try_except_finally.
  destruct (body w) as [w1 c1].
  destruct (match c1 with
            | Raise e => if is_Exception e then handler e w1 else (w1, c1)
            | _ => (w1, c1)
            end) as [w2 c2].
  destruct (finally_clause w2) as [w3 c3] eqn:F.
  apply finally_clause_post in F as (Hf & Hn & Hr).
  destruct c3 as [[]|v|e]; intros [= <- <-].
  - split; [exact Hf | intros _; apply Hn; reflexivity].
  - destruct (Hr v eq_refl).
  - split; [exact Hf | intros H; destruct (H e eq_refl)].
Qed.

End BootstrapFacts.

(** C9.  However [download_and_run_am_installer] ends - it returns [True],
    it returns [False] after a failed installer or a caught exception, or
    an exception leaves it - no file is left at ["./AM-INSTALLER"]; when
    it returns, nothing at all is left at that path. *)
Theorem installer_script_removed (e : Bootstrap.env) (w : fs) :
  let w' := fst (Bootstrap.download_and_run_am_installer e w) in
  let c := snd (Bootstrap.download_and_run_am_installer e w) in
  Os.is_file w' Bootstrap.AM_INSTALLER = false
  /\ (forall v, c = Return v -> Os.path_exists w' Bootstrap.AM_INSTALLER = false)
  /\ (forall u, c <> Normal u).
Proof.
  unfold Bootstrap.download_and_run_am_installer.
  unfold mbind, M_bind, bind.
  destruct (try_except_finally (Bootstrap.try_body e)
              (Bootstrap.except_Exception e) Bootstrap.finally_clause w)
    as [w1 c1] eqn:T.
  apply try_except_finally_post in T as [Hf Hn].
  destruct c1 as [[]|v|x]; cbn.
  - split; [exact Hf|]. split; [|discriminate].
    intros _ _. apply Hn. discriminate.
  - split; [exact Hf|]. split; [|discriminate].
    intros _ _. apply Hn. discriminate.
  - split; [exact Hf|]. split; discriminate.
Qed.

Lemma installer_script_removed_witness :
  let e := {| Bootstrap.wget :=
                fun w => (<[Bootstrap.AM_INSTALLER := File []]> w, inl tt);
              Bootstrap.chmod := fun w => (w, inl tt);
              Bootstrap.popen := fun w => (w, inl tt);
              Bootstrap.communicate := fun w => (w, inl 1%Z);
              Bootstrap.stderr_read := fun w => (w, inr ValueError);
              Bootstrap.critical := fun w => (w, inl tt) |} in
  Os.path_exists (fst (Bootstrap.download_and_run_am_installer e ∅))
                 Bootstrap.AM_INSTALLER = false.
Proof.
  intros e.
  exact (proj1 (proj2 (installer_script_removed e ∅)) false eq_refl).
Defined.

(** The exit paths of the step, each on a world where [wget] has written
    the script: success, a failing installer, a failing download, and an
    interrupt that no handler catches. *)
Example installer_exit_paths :
  let wrote := fun w : fs => <[Bootstrap.AM_INSTALLER := File []]> w in
  let quiet := fun A (a : A) (w : fs) => (w, @inl A exn a) in
  let e_ok := {| Bootstrap.wget := fun w => (wrote w, inl tt);
                 Bootstrap.chmod := quiet _ tt; Bootstrap.popen := quiet _ tt;
                 Bootstrap.communicate := quiet _ 0%Z;
                 Bootstrap.stderr_read := quiet _ [];
                 Bootstrap.critical := quiet _ tt |} in
  let e_fail := {| Bootstrap.wget := fun w => (wrote w, inl tt);
                   Bootstrap.chmod := quiet _ tt; Bootstrap.popen := quiet _ tt;
                   Bootstrap.communicate := quiet _ 1%Z;
                   Bootstrap.stderr_read := fun w => (w, inr ValueError);
                   Bootstrap.critical := quiet _ tt |} in
  let e_wget := {| Bootstrap.wget := fun w => (wrote w, inr CalledProcessError);
                   Bootstrap.chmod := quiet _ tt; Bootstrap.popen := quiet _ tt;
                   Bootstrap.communicate := quiet _ 0%Z;
                   Bootstrap.stderr_read := quiet _ [];
                   Bootstrap.critical := quiet _ tt |} in
  let e_int := {| Bootstrap.wget := fun w => (wrote w, inl tt);
                  Bootstrap.chmod := quiet _ tt; Bootstrap.popen := quiet _ tt;
                  Bootstrap.communicate := fun w => (w, inr KeyboardInterrupt);
                  Bootstrap.stderr_read := quiet _ [];
                  Bootstrap.critical := quiet _ tt |} in
  snd (Bootstrap.download_and_run_am_installer e_ok ∅) = Return true
  /\ snd (Bootstrap.download_and_run_am_installer e_fail ∅) = Return false
  /\ snd (Bootstrap.download_and_run_am_installer e_wget ∅) = Return false
  /\ snd (Bootstrap.download_and_run_am_installer e_int ∅)
     = Raise KeyboardInterrupt
  /\ Os.path_exists (fst (Bootstrap.try_body e_ok ∅)) Bootstrap.AM_INSTALLER
     = true.
Proof. vm_compute. repeat split. Qed.

(** ** The icon cache *)

Section IconFacts.

Import Icons.

Lemma basename_scan_no_slash (p : str) : forall cur,
  ~ In 47 cur -> ~ In 47 (Py.basename_scan cur p).
Proof.
  induction p as [|c p IH]; intros cur H; cbn [Py.basename_scan].
  - rewrite <- in_rev. exact H.
  - destruct (N.eqb_spec c 47) as [->|Hne].
    + apply IH. intros [].
    + apply IH. intros [E|Hin]; [congruence | contradiction].
Qed.

Lemma basename_no_slash (url : str) : ~ In 47 (Py.basename url).
Proof. apply basename_scan_no_slash. intros []. Qed.

(** The cache file is the basename, inside the cache directory. *)
Lemma icon_path_shape (url : str) :
  icon_path url = ICON_CACHE_DIR ++ [47] ++ Py.basename url.
Proof.
  unfold icon_path, Py.path_join.
  pose proof (basename_no_slash url) as H.
  destruct (Py.basename url) as [|c b]; [reflexivity|].
  cbn [Py.startswith]. destruct (N.eqb_spec c 47) as [->|_].
  - exfalso. apply H. left. reflexivity.
  - reflexivity.
Qed.

Lemma icon_path_not_dir (url : str) : icon_path url <> ICON_CACHE_DIR.
Proof.
  rewrite icon_path_shape. intros E.
  apply (f_equal (@length N)) in E. rewrite !length_app in E. cbn in E. lia.
Qed.

Lemma ensure_has_dir (w : world) :
  Os.path_exists (files (ensure_icon_cache w)) ICON_CACHE_DIR = true.
Proof.
  unfold ensure_icon_cache.
  destruct (Os.path_exists (files w) ICON_CACHE_DIR) eqn:E; cbn [negb];
    [exact E|].
  unfold Os.makedirs. unfold Os.path_exists in E.
  destruct (files w !! ICON_CACHE_DIR); [discriminate|].
  cbn [fst files]. unfold Os.path_exists.
  rewrite lookup_insert_eq. reflexivity.
Qed.

Lemma ensure_fixed (w : world) :
  Os.path_exists (files w) ICON_CACHE_DIR = true -> ensure_icon_cache w = w.
Proof. intros H. unfold ensure_icon_cache. rewrite H. reflexivity. Qed.

Lemma ensure_requested (w : world) :
  requested (ensure_icon_cache w) = requested w.
Proof.
  unfold ensure_icon_cache.
  destruct (negb (Os.path_exists (files w) ICON_CACHE_DIR)); reflexivity.
Qed.

Lemma ensure_other (w : world) (p : str) :
  p <> ICON_CACHE_DIR ->
  Os.path_exists (files (ensure_icon_cache w)) p = Os.path_exists (files w) p.
Proof.
  intros Hp. unfold ensure_icon_cache.
  destruct (Os.path_exists (files w) ICON_CACHE_DIR) eqn:E; cbn [negb];
    [reflexivity|].
  unfold Os.makedirs. unfold Os.path_exists in E.
  destruct (files w !! ICON_CACHE_DIR); [discriminate|].
  cbn [fst files]. unfold Os.path_exists.
  rewrite lookup_insert_ne by congruence. reflexivity.
Qed.

(** What is left of a path after its last "/". *)
Lemma cut_scan_tail (b : str) : forall d seen cur,
  ~ In 47 b -> Os.cut_scan (Some d) seen cur b = Some (d, rev cur ++ b).
Proof.
  induction b as [|c b IH]; intros d seen cur H; cbn [Os.cut_scan].
  - rewrite app_nil_r. reflexivity.
  - destruct (N.eqb_spec c 47) as [->|_].
    + exfalso. apply H. left. reflexivity.
    + rewrite IH by (intros Hin; apply H; right; exact Hin).
      cbn [rev]. rewrite <- app_assoc. reflexivity.
Qed.

Lemma cut_scan_app (p b : str) : forall found seen cur,
  ~ In 47 b ->
  Os.cut_scan found seen cur (p ++ 47 :: b) = Some (rev seen ++ p, b).
Proof.
  induction p as [|c p IH]; intros found seen cur H.
  - rewrite app_nil_l, app_nil_r. cbn [Os.cut_scan]. rewrite N.eqb_refl.
    rewrite cut_scan_tail by exact H. reflexivity.
  - rewrite <- app_comm_cons. cbn [Os.cut_scan].
    destruct (c =? 47); rewrite IH by exact H; cbn [rev];
      rewrite <- app_assoc; reflexivity.
Qed.

Lemma cut_icon_path (url : str) :
  Os.cut (icon_path url) = Some (ICON_CACHE_DIR, Py.basename url).
Proof.
  rewrite icon_path_shape. unfold Os.cut.
  change ([47] ++ Py.basename url) with (47 :: Py.basename url).
  rewrite cut_scan_app by apply basename_no_slash. reflexivity.
Qed.

Lemma is_dir_cache (w : fs) :
  Os.is_dir w ICON_CACHE_DIR
  = match w !! ICON_CACHE_DIR with
    | Some Dir => true
    | _ => false
    end.
Proof. reflexivity. Qed.

(** The existence test of [download_icon], read on the map. *)
Lemma exists_icon_path (w : fs) (url : str) :
  Os.exists_resolved w (icon_path url)
  = match w !! ICON_CACHE_DIR with
    | Some Dir =>
      Os.names_no_entry (Py.basename url) || Os.path_exists w (icon_path url)
    | _ => false
    end.
Proof.
  unfold Os.exists_resolved. rewrite cut_icon_path, is_dir_cache.
  destruct (w !! ICON_CACHE_DIR) as [[c|]|]; try reflexivity;
    destruct (Os.names_no_entry (Py.basename url)); reflexivity.
Qed.

Lemma open_write_icon_path (w : fs) (url : str) (content : list byte) :
  Os.open_write w (icon_path url) content
  = match w !! ICON_CACHE_DIR with
    | Some Dir =>
      if Os.names_no_entry (Py.basename url) then (w, Some OSError)
      else Os.write_file w (icon_path url) content
    | _ => (w, Some OSError)
    end.
Proof.
  unfold Os.open_write. rewrite cut_icon_path, is_dir_cache.
  destruct (w !! ICON_CACHE_DIR) as [[c|]|]; reflexivity.
Qed.

Variable requests_get : str -> option (list byte).

Lemma download_icon_cached (url : str) (w : world) :
  Os.exists_resolved (files (ensure_icon_cache w)) (icon_path url) = true ->
  download_icon requests_get url w = (ensure_icon_cache w, Some (icon_path url)).
Proof.
  intros H. unfold download_icon. fold (icon_path url).
  rewrite H. reflexivity.
Qed.

Lemma download_icon_failed (url : str) (w : world) :
  Os.exists_resolved (files (ensure_icon_cache w)) (icon_path url) = false ->
  requests_get url = None
  \/ (exists content e,
         requests_get url = Some content
         /\ snd (Os.open_write (files (ensure_icon_cache w)) (icon_path url)
                               content) = Some e) ->
  download_icon requests_get url w
  = ({| files := files (ensure_icon_cache w);
        requested := requested w ++ [url] |}, None).
Proof.
  intros H Hg. unfold download_icon. fold (icon_path url).
  rewrite H, ensure_requested. cbn [negb files requested].
  destruct Hg as [->|(content & e & -> & He)]; [reflexivity|].
  revert He. rewrite open_write_icon_path.
  destruct (files (ensure_icon_cache w) !! ICON_CACHE_DIR) as [[c|]|];
    try reflexivity.
  destruct (Os.names_no_entry (Py.basename url)); [reflexivity|].
  unfold Os.write_file.
  destruct (files (ensure_icon_cache w) !! icon_path url) as [[c|]|];
    cbn [snd]; intros; try discriminate; reflexivity.
Qed.

(** A download that is made and returns a path has written the file. *)
Lemma download_icon_written (url : str) (w w1 : world) (r : str) :
  Os.exists_resolved (files (ensure_icon_cache w)) (icon_path url) = false ->
  download_icon requests_get url w = (w1, Some r) ->
  exists content,
    requests_get url = Some content
    /\ files (ensure_icon_cache w) !! ICON_CACHE_DIR = Some Dir
    /\ Os.names_no_entry (Py.basename url) = false
    /\ r = icon_path url
    /\ w1 = {| files := <[icon_path url := File content]>
                          (files (ensure_icon_cache w));
               requested := requested w ++ [url] |}.
Proof.
  intros E. unfold download_icon. fold (icon_path url).
  rewrite E, ensure_requested. cbn [negb files requested].
  destruct (requests_get url) as [content|]; [|discriminate].
  rewrite open_write_icon_path. rewrite exists_icon_path in E.
  destruct (files (ensure_icon_cache w) !! ICON_CACHE_DIR) as [[c|]|] eqn:D;
    try discriminate.
  destruct (Os.names_no_entry (Py.basename url)); [discriminate|].
  cbn [orb] in E. unfold Os.write_file. unfold Os.path_exists in E.
  destruct (files (ensure_icon_cache w) !! icon_path url); [discriminate|].
  intros [= <- <-]. exists content. auto.
Qed.

Lemma download_icon_result (url : str) (w w1 : world) (r : str) :
  download_icon requests_get url w = (w1, Some r) ->
  r = icon_path url
  /\ Os.exists_resolved (files w1) (icon_path url) = true
  /\ Os.path_exists (files w1) ICON_CACHE_DIR = true.
Proof.
  pose proof (ensure_has_dir w) as Hd.
  destruct (Os.exists_resolved (files (ensure_icon_cache w)) (icon_path url))
    eqn:E.
  - rewrite download_icon_cached by exact E. intros [= <- <-]. auto.
  - intros H.
    destruct (download_icon_written url w w1 r E H)
      as (content & _ & D & Hn & -> & ->).
    split; [reflexivity|]. cbn [files].
    rewrite exists_icon_path. unfold Os.path_exists.
    rewrite lookup_insert_ne by apply icon_path_not_dir.
    rewrite D, Hn, lookup_insert_eq. auto.
Qed.

End IconFacts.

(** C10.  [download_icon] takes the cache path from the basename of the URL
    alone, inside the cache directory.  When that path exists, once the
    cache directory has been made sure of, it returns the path and
    requests nothing, so a second URL with the same basename gets the file
    cached for the first.  When the path does not exist and the request
    or the writing of the file raises, it returns [None] and the entry
    gets the empty icon.  A URL whose basename is empty, "." or ".." has
    a path that names the cache directory or its parent: it is returned
    with no request, unless [./icon_cache] is a regular file. *)
Theorem download_icon_by_basename (requests_get : str -> option (list byte))
        (url : str) (w : Icons.world) :
  let p := icon_path url in
  let w0 := Icons.ensure_icon_cache w in
  p = Icons.ICON_CACHE_DIR ++ [47] ++ Py.basename url
  /\ (forall url', Py.basename url' = Py.basename url -> icon_path url' = p)
  /\ (Os.exists_resolved (Icons.files w0) p = true ->
      Icons.download_icon requests_get url w = (w0, Some p)
      /\ Icons.requested w0 = Icons.requested w)
  /\ (forall w1 r url',
        Icons.download_icon requests_get url w = (w1, Some r) ->
        Py.basename url' = Py.basename url ->
        r = p /\ Icons.download_icon requests_get url' w1 = (w1, Some p))
  /\ (Os.exists_resolved (Icons.files w0) p = false ->
      requests_get url = None
      \/ (exists content e,
             requests_get url = Some content
             /\ snd (Os.open_write (Icons.files w0) p content) = Some e) ->
      exists w',
        Icons.download_icon requests_get url w = (w', None)
        /\ Icons.requested w' = Icons.requested w ++ [url]
        /\ Icons.data_DecorationRole requests_get url w = (w', Icons.QIcon_null))
  /\ (Icons.files w0 !! Icons.ICON_CACHE_DIR = Some Dir ->
      Os.names_no_entry (Py.basename url) = true ->
      Icons.download_icon requests_get url w = (w0, Some p)).
Proof.
  intros p w0. split; [apply icon_path_shape|].
  split; [|split; [|split; [|split]]].
  - intros url' E. unfold p, icon_path. rewrite E. reflexivity.
  - intros H. split; [apply download_icon_cached, H | apply ensure_requested].
  - intros w1 r url' H E.
    apply download_icon_result in H as (-> & Hp & Hd).
    split; [reflexivity|].
    assert (Ep : icon_path url' = p)
      by (unfold p, icon_path; rewrite E; reflexivity).
    rewrite <- Ep.
    rewrite download_icon_cached;
      rewrite (ensure_fixed w1 Hd); [reflexivity|].
    rewrite Ep. exact Hp.
  - intros H Hget. unfold Icons.data_DecorationRole.
    rewrite (download_icon_failed requests_get url w H Hget).
    eexists. split; [reflexivity|]. split; reflexivity.
  - intros D Hn. apply download_icon_cached.
    rewrite exists_icon_path. fold w0. rewrite D, Hn. reflexivity.
Qed.

Lemma download_icon_by_basename_witness :
  let get : str -> option (list byte) := fun _ => None in
  let url := Py.lit "https://example.org/icons/vlc.png" in
  let w := {| Icons.files := ∅; Icons.requested := [] |} in
  exists w',
    Icons.download_icon get url w = (w', None)
    /\ Icons.requested w' = Icons.requested w ++ [url]
    /\ Icons.data_DecorationRole get url w = (w', Icons.QIcon_null).
Proof.
  intros get url w.
  exact (proj1 (proj2 (proj2 (proj2 (proj2
                 (download_icon_by_basename get url w)))))
               eq_refl (or_introl eq_refl)).
Defined.

(** Two URLs with one basename: the second gets the file of the first,
    and only the first is requested. *)
Example icons_share_basename :
  let get : str -> option (list byte) :=
    fun u => Some (list_byte_of_string "png") in
  let w := {| Icons.files := ∅; Icons.requested := [] |} in
  let a := Py.lit "https://a.example/x/icon.png" in
  let b := Py.lit "https://b.example/y/icon.png" in
  let '(w1, r1) := Icons.download_icon get a w in
  let '(w2, r2) := Icons.download_icon get b w1 in
  r1 = Some (Py.lit "./icon_cache/icon.png") /\ r2 = r1
  /\ Icons.requested w2 = [a].
Proof. vm_compute. repeat split. Qed.

(** A URL that ends in "/" and the empty URL have no basename: the path
    is the cache directory, which exists by then, and nothing is
    requested or written, even where the request would raise. *)
Example icon_url_without_basename :
  let get : str -> option (list byte) := fun _ => None in
  let w := {| Icons.files := ∅; Icons.requested := [] |} in
  let w0 := Icons.ensure_icon_cache w in
  Icons.download_icon get (Py.lit "https://example.org/icons/") w
  = (w0, Some (Py.lit "./icon_cache/"))
  /\ Icons.download_icon get [] w = (w0, Some (Py.lit "./icon_cache/"))
  /\ Icons.requested w0 = []
  /\ Icons.data_DecorationRole get [] w
     = (w0, Icons.QIcon_of (Py.lit "./icon_cache/")).
Proof. vm_compute. repeat split. Qed.

(** When [./icon_cache] is a regular file nothing exists below it and no
    file can be written there: every call requests the icon and returns
    [None]. *)
Example icon_cache_is_a_file :
  let get : str -> option (list byte) :=
    fun u => Some (list_byte_of_string "png") in
  let w := {| Icons.files := {[ Icons.ICON_CACHE_DIR := File [] ]};
              Icons.requested := [] |} in
  let url := Py.lit "https://a.example/x/icon.png" in
  Icons.download_icon get url w
  = ({| Icons.files := Icons.files w; Icons.requested := [url] |}, None).
Proof. vm_compute. repeat split. Qed.


(** * Further properties of the code *)

(** ** Plain text through the stripper and the worker *)

Section PlainText.

Lemma strip_without_esc (text : str) :
  ~ In ESC text -> strip_ansi_escape_codes text = text.
Proof.
  unfold strip_ansi_escape_codes, Re.sub_empty.
  induction text as [|c rest IH]; intros H; [reflexivity|].
  rewrite sub_scan_cons.
  destruct (Re.match_here ansi_escape (c :: rest)) as [[|m]|] eqn:E.
  - f_equal. apply IH. intros Hin. apply H. right. exact Hin.
  - exfalso. apply match_here_sound in E as (w & r & Ew & Hw & _).
    apply sequence_shape in Hw as (w' & -> & _).
    injection Ew as ->. apply H. left. reflexivity.
  - f_equal. apply IH. intros Hin. apply H. right. exact Hin.
Qed.

Lemma decode_ascii (bs : list N) :
  Forall (fun b => b < 128) bs -> Py.decode_replace bs = bs.
Proof.
  induction 1 as [|b bs Hb _ IH]; [reflexivity|].
  cbn [Py.decode_replace]. apply N.ltb_lt in Hb. rewrite Hb, IH. reflexivity.
Qed.

Lemma accumulated_plain (chunks : list (list byte)) :
  Forall (Forall (fun b => Byte.to_N b < 128 /\ Byte.to_N b <> ESC)) chunks ->
  Worker.accumulated chunks = map Byte.to_N (concat chunks).
Proof.
  unfold Worker.accumulated.
  induction 1 as [|b chunks Hb _ IH]; [reflexivity|].
  cbn [map concat]. rewrite IH, map_app. f_equal.
  unfold Py.decode. rewrite decode_ascii.
  - apply strip_without_esc. intros Hin. apply in_map_iff in Hin as (x & E & Hx).
    rewrite Forall_forall in Hb. destruct (Hb x Hx) as [_ Hne]. congruence.
  - apply Forall_map. eapply Forall_impl; [|exact Hb]. intros x [Hx _]. exact Hx.
Qed.

End PlainText.

(** X1.  Plain ASCII output without escape characters reaches the success
    callback as it was written, however the reads cut it into chunks. *)
Theorem worker_plain_output_verbatim (cmd : list str)
        (chunks : list (list byte)) (exit_code : Z)
        (exit_status : Worker.ExitStatus) :
  Forall (Forall (fun b => Byte.to_N b < 128 /\ Byte.to_N b <> ESC)) chunks ->
  Worker.invocation cmd (map Worker.readyReadStandardOutput chunks)
                    exit_code exit_status
  = [Worker.output_ready (map Byte.to_N (concat chunks)); Worker.finished].
Proof.
  intros H. unfold Worker.invocation. rewrite deliver_all.
  assert (Eo : Worker.stdout_chunks (map Worker.readyReadStandardOutput chunks)
               = chunks).
  { clear H. induction chunks as [|b chunks IH]; [reflexivity|].
    cbn. unfold Worker.stdout_chunks in IH. rewrite IH. reflexivity. }
  assert (Ee : Worker.stderr_chunks (map Worker.readyReadStandardOutput chunks)
               = []).
  { clear H Eo. induction chunks as [|b chunks IH]; [reflexivity|].
    cbn. exact IH. }
  rewrite Eo, Ee, (accumulated_plain _ H). reflexivity.
Qed.

Lemma worker_plain_output_verbatim_witness :
  Worker.invocation [Py.lit "-f"]
    (map Worker.readyReadStandardOutput
         [list_byte_of_string "two "; list_byte_of_string "reads"])
    0 Worker.NormalExit
  = [Worker.output_ready (Py.lit "two reads"); Worker.finished].
Proof.
  refine (worker_plain_output_verbatim [Py.lit "-f"]
            [list_byte_of_string "two "; list_byte_of_string "reads"]
            0 Worker.NormalExit _).
  repeat constructor; cbn; lia || discriminate.
Defined.

(** X2.  What the worker emits depends on the chunks of each channel
    only: not on how the reads of the two channels interleave, nor on
    the exit code, the exit status or the command. *)
Theorem worker_signals_by_channel (cmd1 cmd2 : list str)
        (reads1 reads2 : list Worker.read_event) (code1 code2 : Z)
        (status1 status2 : Worker.ExitStatus) :
  Worker.stdout_chunks reads1 = Worker.stdout_chunks reads2 ->
  Worker.stderr_chunks reads1 = Worker.stderr_chunks reads2 ->
  Worker.invocation cmd1 reads1 code1 status1
  = Worker.invocation cmd2 reads2 code2 status2.
Proof.
  intros Ho Ee. unfold Worker.invocation, Worker.process_finished.
  rewrite !deliver_all. cbn. rewrite Ho, Ee. reflexivity.
Qed.

Lemma worker_signals_by_channel_witness :
  let out := Worker.readyReadStandardOutput (list_byte_of_string "a") in
  let err := Worker.readyReadStandardError (list_byte_of_string "b") in
  Worker.invocation [Py.lit "-u"] [out; err] 0 Worker.NormalExit
  = Worker.invocation [Py.lit "-u"] [err; out] 1 Worker.CrashExit.
Proof.
  intros out err.
  exact (worker_signals_by_channel [Py.lit "-u"] [Py.lit "-u"]
           [out; err] [err; out] 0 1 Worker.NormalExit Worker.CrashExit
           eq_refl eq_refl).
Defined.

(** ** Links *)

Section LinkFacts.

Lemma lit_http : Py.lit "http" = [104; 116; 116; 112].
Proof. reflexivity. Qed.

Lemma url_match_unfold a b c d (s : str) :
  ReGroup.match_here url_pattern (a :: b :: c :: d :: s) =
  if (104 =? a) && (116 =? b) && (116 =? c) && (112 =? d)
  then option_map (Nat.add 4) (ReGroup.match_here url_tail s)
  else None.
Proof.
  change (ReGroup.match_here url_pattern (a :: b :: c :: d :: s))
    with (if 104 =? a then option_map S
            (if 116 =? b then option_map S
               (if 116 =? c then option_map S
                  (if 112 =? d
                   then option_map S (ReGroup.match_here url_tail s)
                   else None)
                else None)
             else None)
          else None).
  destruct (104 =? a), (116 =? b), (116 =? c), (112 =? d); try reflexivity.
  destruct (ReGroup.match_here url_tail s); reflexivity.
Qed.

Lemma one_inv cls p (s : str) n :
  ReGroup.match_here (ReGroup.One cls :: p) s = Some n ->
  exists c s' m, s = c :: s' /\ cls c = true
                 /\ ReGroup.match_here p s' = Some m /\ n = S m.
Proof.
  destruct s as [|c s']; [discriminate|]. cbn [ReGroup.match_here].
  destruct (cls c) eqn:Hc; [|discriminate].
  destruct (ReGroup.match_here p s') as [m|] eqn:Em; [|discriminate].
  cbn. intros [= <-]. exists c, s', m. repeat split; assumption.
Qed.

(** A match starts with [http]. *)
Lemma url_match_head (s : str) n :
  ReGroup.match_here url_pattern s = Some n ->
  Py.startswith s (Py.lit "http") = true.
Proof.
  intros H. unfold url_pattern in H.
  apply one_inv in H as (a & s1 & n1 & -> & Ha & H & _).
  apply one_inv in H as (b & s2 & n2 & -> & Hb & H & _).
  apply one_inv in H as (c & s3 & n3 & -> & Hc & H & _).
  apply one_inv in H as (d & s4 & n4 & -> & Hd & _ & _).
  apply N.eqb_eq in Ha, Hb, Hc, Hd. subst. reflexivity.
Qed.

(** A star whose continuation accepts at the first code point outside the
    class takes the whole run. *)
Lemma match_star_greedy cls k (pre s : str) m :
  forallb cls pre = true -> k s = Some m ->
  match s with [] => True | c :: _ => cls c = false end ->
  Re.match_star cls k (pre ++ s) = Some (length pre + m)%nat.
Proof.
  intros Hpre Hk Hs. induction pre as [|c pre IH].
  - destruct s as [|c s]; cbn; [exact Hk|]. rewrite Hs. exact Hk.
  - cbn in Hpre. apply andb_prop in Hpre as [Hc Hpre].
    rewrite <- app_comm_cons. cbn [Re.match_star]. rewrite Hc, (IH Hpre).
    reflexivity.
Qed.

Lemma url_rest_match (body rest : str) :
  body <> [] -> forallb nonspace body = true -> at_break rest ->
  ReGroup.match_here url_rest (Py.lit "://" ++ body ++ rest)
  = Some (3 + length body)%nat.
Proof.
  intros Hne Hb Hr. destruct body as [|b0 body]; [contradiction|].
  cbn in Hb. apply andb_prop in Hb as [Hb0 Hb].
  change (ReGroup.match_here url_rest (Py.lit "://" ++ (b0 :: body) ++ rest))
    with (option_map S (option_map S (option_map S
            (if nonspace b0
             then option_map S
                    (Re.match_star nonspace (ReGroup.match_here []) (body ++ rest))
             else None)))).
  rewrite Hb0, (match_star_greedy nonspace _ body rest 0); try assumption.
  - cbn. rewrite Nat.add_0_r. reflexivity.
  - reflexivity.
  - destruct rest as [|c rest]; [exact I|]. cbn in Hr. unfold nonspace.
    rewrite Hr. reflexivity.
Qed.

Lemma url_match (u rest : str) :
  is_url u -> at_break rest ->
  ReGroup.match_here url_pattern (u ++ rest) = Some (length u).
Proof.
  intros (body & [-> | ->] & Hne & Hb) Hr.
  - change (Py.lit "http://" ++ body) with (104 :: 116 :: 116 :: 112 :: Py.lit "://" ++ body).
    rewrite <- !app_comm_cons, url_match_unfold. cbn [N.eqb Pos.eqb andb].
    change (ReGroup.match_here url_tail ((Py.lit "://" ++ body) ++ rest))
      with (ReGroup.match_here url_rest ((Py.lit "://" ++ body) ++ rest)).
    rewrite <- app_assoc, url_rest_match by assumption.
    reflexivity.
  - change (Py.lit "https://" ++ body)
      with (104 :: 116 :: 116 :: 112 :: 115 :: Py.lit "://" ++ body).
    rewrite <- !app_comm_cons, url_match_unfold. cbn [N.eqb Pos.eqb andb].
    change (ReGroup.match_here url_tail (115 :: (Py.lit "://" ++ body) ++ rest))
      with (match ReGroup.match_here url_rest ((Py.lit "://" ++ body) ++ rest) with
            | Some n => Some (S n)
            | None => ReGroup.match_here url_rest
                        (115 :: (Py.lit "://" ++ body) ++ rest)
            end).
    rewrite <- app_assoc, url_rest_match by assumption.
    reflexivity.
Qed.

Lemma link_scan_skip p repl (l : str) : forall r,
  ReGroup.sub_scan p repl (length l) (l ++ r) = ReGroup.sub_scan p repl 0 r.
Proof.
  induction l as [|c l IH]; intros r; [reflexivity|].
  rewrite <- app_comm_cons. cbn [length ReGroup.sub_scan]. apply IH.
Qed.

Lemma not_in_by_existsb x (l : str) :
  existsb (N.eqb x) l = false -> ~ In x l.
Proof.
  intros E H. apply not_true_iff_false in E. apply E, existsb_exists.
  exists x. split; [exact H | apply N.eqb_refl].
Qed.

Lemma is_url_nonempty (u : str) : is_url u -> u <> [].
Proof. intros (body & [-> | ->] & _). all: discriminate. Qed.

End LinkFacts.

(** X3.  Text in which ["http"] does not occur comes back from
    [make_links_clickable] unchanged. *)
Theorem make_links_without_http (text : str) :
  Py.contains (Py.lit "http") text = false ->
  make_links_clickable text = text.
Proof.
  unfold make_links_clickable.
  induction text as [|c rest IH]; intros H; [reflexivity|].
  cbn [Py.contains] in H. apply orb_false_iff in H as [Hs Hc].
  cbn [ReGroup.sub_scan].
  destruct (ReGroup.match_here url_pattern (c :: rest)) as [n|] eqn:E.
  - apply url_match_head in E. congruence.
  - f_equal. apply IH, Hc.
Qed.

Lemma make_links_without_http_witness :
  make_links_clickable (Py.lit "ftp://example.org and text")
  = Py.lit "ftp://example.org and text".
Proof.
  exact (make_links_without_http (Py.lit "ftp://example.org and text") eq_refl).
Defined.

(** X4.  A URL at the start of the text that runs up to white space or to
    the end of the text becomes an anchor with the URL as target and as
    label, and the text after it is treated the same way. *)
Theorem make_links_wraps_url (u rest : str) :
  is_url u -> at_break rest ->
  make_links_clickable (u ++ rest) = anchor u ++ make_links_clickable rest.
Proof.
  intros Hu Hr. unfold make_links_clickable.
  pose proof (url_match u rest Hu Hr) as E.
  destruct u as [|c u']; [destruct (is_url_nonempty _ Hu eq_refl)|].
  rewrite <- app_comm_cons in *. cbn [ReGroup.sub_scan]. rewrite E.
  cbn [length]. rewrite link_scan_skip. f_equal.
  rewrite app_comm_cons.
  change (S (length u')) with (length (c :: u')).
  rewrite firstn_app, Nat.sub_diag, firstn_all. cbn [firstn].
  rewrite app_nil_r. reflexivity.
Qed.

Lemma make_links_wraps_url_witness :
  make_links_clickable (Py.lit "https://x.org/a see")
  = anchor (Py.lit "https://x.org/a") ++ Py.lit " see".
Proof.
  refine (make_links_wraps_url (Py.lit "https://x.org/a") (Py.lit " see") _ _).
  - exists (Py.lit "x.org/a"). split; [right; reflexivity|].
    split; [discriminate | reflexivity].
  - reflexivity.
Defined.

(** X5.  [show_app_info] asks for [about <name>], and output with neither
    an escape character nor ["http"] in it is shown as it is, between
    [<p>] and [</p>]. *)
Theorem show_app_info_plain (app_name output : str) :
  ~ In ESC output -> Py.contains (Py.lit "http") output = false ->
  Actions.show_app_info app_name
  = [Actions.RunScriptAsync [Py.lit "about"; app_name]]
  /\ Actions.show_app_info_text output
     = Py.lit "<p>" ++ output ++ Py.lit "</p>".
Proof.
  intros He Hh. split; [reflexivity|].
  unfold Actions.show_app_info_text.
  rewrite strip_without_esc by exact He.
  rewrite make_links_without_http by exact Hh. reflexivity.
Qed.

Lemma show_app_info_plain_witness :
  Actions.show_app_info_text (Py.lit "A media player.")
  = Py.lit "<p>A media player.</p>".
Proof.
  refine (proj2 (show_app_info_plain (Py.lit "vlc") (Py.lit "A media player.")
                   _ eq_refl)).
  apply not_in_by_existsb. reflexivity.
Defined.

(** ** More on the parsers and the two list loaders *)

Section EntryFacts.

Lemma splitlines_scan_pieces n : forall (s cur : str),
  (length s <= n)%nat ->
  Forall (fun c => Py.linebreak c = false) cur ->
  Forall (Forall (fun c => Py.linebreak c = false)) (Py.splitlines_scan cur s).
Proof.
  induction n as [|n IH]; intros s cur Hlen Hcur.
  - destruct s; [|cbn in Hlen; lia]. cbn. destruct cur; constructor; [|constructor].
    apply Forall_rev in Hcur. exact Hcur.
  - destruct s as [|c s'].
    + cbn. destruct cur; constructor; [|constructor].
      apply Forall_rev in Hcur. exact Hcur.
    + cbn [Py.splitlines_scan]. cbn in Hlen.
      assert (Hrev : Forall (fun c => Py.linebreak c = false) (rev cur))
        by (apply Forall_rev; exact Hcur).
      destruct (c =? 13).
      * destruct s' as [|d s'']; [constructor; [exact Hrev|apply IH; [cbn; lia|constructor]]|].
        cbn in Hlen.
        destruct d as [|p]; [constructor; [exact Hrev|apply IH; [cbn; lia|constructor]]|].
        destruct p as [p|p|]; try (constructor; [exact Hrev|apply IH; [cbn; lia|constructor]]).
        destruct p as [p|p|]; try (constructor; [exact Hrev|apply IH; [cbn; lia|constructor]]).
        destruct p as [p|p|]; try (constructor; [exact Hrev|apply IH; [cbn; lia|constructor]]).
        destruct p as [p|p|]; try (constructor; [exact Hrev|apply IH; [cbn; lia|constructor]]).
      * destruct (Py.linebreak c) eqn:Hc.
        -- constructor; [exact Hrev|apply IH; [lia|constructor]].
        -- apply IH; [lia|]. constructor; assumption.
Qed.

Lemma join_forall (P : N -> Prop) (sep : str) (parts : list str) :
  Forall P sep -> Forall (Forall P) parts -> Forall P (Py.join sep parts).
Proof.
  intros Hsep. induction 1 as [|p parts Hp Hparts IH]; [constructor|].
  cbn [Py.join]. destruct parts as [|q parts]; [exact Hp|].
  apply Forall_app. split; [exact Hp|]. apply Forall_app. split; assumption.
Qed.

Lemma one_line (d : str) :
  Forall (fun c => Py.linebreak c = false)
         (Py.join (Py.lit " ") (Py.splitlines d)).
Proof.
  apply join_forall.
  - repeat constructor.
  - apply (splitlines_scan_pieces (length d)); [lia | constructor].
Qed.

Lemma gui_name_trimmed (line : str) :
  Py.strip (AppImageManagerGUI.extract_app_name line)
  = AppImageManagerGUI.extract_app_name line.
Proof.
  unfold AppImageManagerGUI.extract_app_name.
  destruct (Py.contains BAR line); [apply strip_idempotent|].
  destruct (Py.contains COLON line); apply strip_idempotent.
Qed.

End EntryFacts.

(** X6.  Every entry of the installed list has a name without white space
    at either end and a description that is one line: no line break of
    any kind is left in it. *)
Theorem installed_entries_clean (output : str) (name description : str)
        (is_app : bool) :
  In (name, description, is_app)
     (AppImageManagerGUI.refresh_installed_apps_callback output) ->
  Py.strip name = name
  /\ Forall (fun c => Py.linebreak c = false) description.
Proof.
  intros H. rewrite refresh_spec in H.
  apply in_map_iff in H as (line & E & _). unfold installed_entry in E.
  injection E as <- <- _. split; [apply gui_name_trimmed | apply one_line].
Qed.

Lemma installed_entries_clean_witness :
  Py.strip (Py.lit "vlc") = Py.lit "vlc"
  /\ Forall (fun c => Py.linebreak c = false) (Py.lit "media player").
Proof.
  refine (installed_entries_clean
            (Py.lit " ◆ vlc | media" ++ [13] ++ Py.lit "player")
            (Py.lit "vlc") (Py.lit "media player") true _).
  left. reflexivity.
Defined.

(** X7.  Every entry read from the available-apps file has a name and a
    description without white space at either end. *)
Theorem file_entries_trimmed (f : FileLoaderWorker.file_read)
        (name description : str) (is_app : bool) :
  In (name, description, is_app) (FileLoaderWorker.run f) ->
  Py.strip name = name /\ Py.strip description = description.
Proof.
  destruct f as [|lines]; [intros []|]. cbn [FileLoaderWorker.run].
  rewrite file_loop_spec. intros H.
  apply in_map_iff in H as (line & E & _). unfold file_entry in E.
  injection E as <- <- _. split.
  - unfold FileLoaderWorker.extract_app_name. apply strip_idempotent.
  - unfold FileLoaderWorker.extract_app_description.
    destruct (Py.contains COLON (Py.strip line));
      [apply strip_idempotent | reflexivity].
Qed.

Lemma file_entries_trimmed_witness :
  Py.strip (Py.lit "gimp") = Py.lit "gimp"
  /\ Py.strip (Py.lit "image editor") = Py.lit "image editor".
Proof.
  refine (file_entries_trimmed
            (FileLoaderWorker.Yields [Py.lit "◆ gimp  :  image editor " ++ [10]])
            (Py.lit "gimp") (Py.lit "image editor") true _).
  left. reflexivity.
Defined.

(** X8.  On a line without ["|"] the two parsers agree on the name and on
    the description. *)
Theorem parsers_agree_without_bar (line : str) :
  Py.contains BAR line = false ->
  FileLoaderWorker.extract_app_name line
  = AppImageManagerGUI.extract_app_name line
  /\ FileLoaderWorker.extract_app_description line
     = AppImageManagerGUI.extract_app_description line.
Proof.
  intros Hb.
  unfold FileLoaderWorker.extract_app_name, AppImageManagerGUI.extract_app_name,
    FileLoaderWorker.extract_app_description,
    AppImageManagerGUI.extract_app_description.
  rewrite Hb. destruct (Py.contains COLON line);
    (split; [apply strip_idempotent | reflexivity]).
Qed.

Lemma parsers_agree_without_bar_witness :
  let line := Py.lit " ◆krita : painting : raster " in
  FileLoaderWorker.extract_app_name line
  = AppImageManagerGUI.extract_app_name line
  /\ FileLoaderWorker.extract_app_description line
     = AppImageManagerGUI.extract_app_description line.
Proof.
  intros line. exact (parsers_agree_without_bar line eq_refl).
Defined.

(** X9.  The file loader makes one entry per line that is not blank, in
    the order of the file, so that the entries of the lines read first
    are the first entries of the whole; when the file cannot be opened
    the list is empty. *)
Theorem file_loader_by_line (lines more : list str) :
  FileLoaderWorker.run (FileLoaderWorker.Yields (lines ++ more))
  = FileLoaderWorker.run (FileLoaderWorker.Yields lines)
    ++ FileLoaderWorker.run (FileLoaderWorker.Yields more)
  /\ length (FileLoaderWorker.run (FileLoaderWorker.Yields lines))
     = length (filter (fun l => Py.truthy (Py.strip l)) lines)
  /\ (Forall (fun l => Py.strip l = []) lines ->
      FileLoaderWorker.run (FileLoaderWorker.Yields lines) = [])
  /\ FileLoaderWorker.run FileLoaderWorker.OpenRaises = [].
Proof.
  cbn [FileLoaderWorker.run]. rewrite !file_loop_spec. cbn [app].
  split; [|split; [|split]].
  - rewrite filter_app, map_app. reflexivity.
  - apply length_map.
  - intros H. induction H as [|l lines Hl _ IH]; [reflexivity|].
    cbn [filter]. rewrite Hl. exact IH.
  - reflexivity.
Qed.

Lemma file_loader_by_line_witness :
  FileLoaderWorker.run
    (FileLoaderWorker.Yields [Py.lit "  " ++ [10]; [10]])
  = [].
Proof.
  refine (proj1 (proj2 (proj2
            (file_loader_by_line [Py.lit "  " ++ [10]; [10]] []))) _).
  repeat constructor.
Defined.

(** ** More on the search *)

Section SearchMore.

Import AppImageManagerGUI.

Lemma filter_is_sublist {A} (f : A -> bool) (l : list A) :
  sublist (filter f l) l.
Proof.
  induction l as [|x l IH]; [constructor|].
  cbn [filter]. destruct (f x); [apply sublist_skip | apply sublist_cons]; exact IH.
Qed.

Lemma filter_twice {A} (f : A -> bool) (l : list A) :
  filter f (filter f l) = filter f l.
Proof.
  induction l as [|x l IH]; [reflexivity|].
  cbn [filter]. destruct (f x) eqn:E; [|exact IH].
  cbn [filter]. rewrite E, IH. reflexivity.
Qed.

End SearchMore.

(** X10.  A search with a text that is not blank starts from the cache,
    whatever the list shows at that moment: its result is the same after
    any earlier search, it keeps the order of the cache, and searching
    again changes nothing. *)
Theorem search_starts_from_cache (lower : str -> str)
        (self : AppImageManagerGUI.gui) (shown : list app) :
  Py.strip (AppImageManagerGUI.search_box self) <> [] ->
  AppImageManagerGUI.available_apps
    (AppImageManagerGUI.perform_search lower
       (AppImageManagerGUI.display_available_apps self shown))
  = AppImageManagerGUI.available_apps
      (AppImageManagerGUI.perform_search lower self)
  /\ AppImageManagerGUI.perform_search lower
       (AppImageManagerGUI.perform_search lower self)
     = AppImageManagerGUI.perform_search lower self
  /\ sublist (AppImageManagerGUI.available_apps
                (AppImageManagerGUI.perform_search lower self))
             (AppImageManagerGUI.all_available_apps self).
Proof.
  intros H.
  rewrite (perform_search_hit lower self H).
  rewrite (perform_search_hit lower
             (AppImageManagerGUI.display_available_apps self shown) H).
  rewrite perform_search_hit by exact H.
  cbn. split; [reflexivity|]. split; [reflexivity|]. apply filter_is_sublist.
Qed.

Lemma search_starts_from_cache_witness :
  let self :=
    {| AppImageManagerGUI.available_apps := [];
       AppImageManagerGUI.all_available_apps :=
         [(Py.lit "GIMP", Py.lit "image editor", true);
          (Py.lit "vlc", Py.lit "media player", true)];
       AppImageManagerGUI.available_apps_loaded := true;
       AppImageManagerGUI.search_box := Py.lit "ed";
       AppImageManagerGUI.effects := [] |} in
  sublist (AppImageManagerGUI.available_apps
             (AppImageManagerGUI.perform_search lower_ascii self))
          (AppImageManagerGUI.all_available_apps self).
Proof.
  intros self.
  refine (proj2 (proj2 (search_starts_from_cache lower_ascii self [] _))).
  discriminate.
Defined.

(** X11.  Once the file has been loaded, coming back to the tab of the
    available applications shows the whole cache again, whatever search
    was made in between, and starts no second load of the file. *)
Theorem tab_shows_cache_again (lower : str -> str) (app_path : str)
        (self : AppImageManagerGUI.gui) (apps : list app) (text : str) :
  let loaded := AppImageManagerGUI.on_apps_loaded self apps in
  let searched := AppImageManagerGUI.text_changed lower loaded text in
  let back := AppImageManagerGUI.on_tab_changed app_path searched 1 in
  AppImageManagerGUI.available_apps back = apps
  /\ AppImageManagerGUI.all_available_apps back = apps
  /\ forall path,
      In (AppImageManagerGUI.LoadAppsFromFile path)
         (AppImageManagerGUI.effects back) ->
      In (AppImageManagerGUI.LoadAppsFromFile path)
         (AppImageManagerGUI.effects self).
Proof.
  intros loaded searched back.
  assert (Hs : AppImageManagerGUI.all_available_apps searched = apps
               /\ AppImageManagerGUI.available_apps_loaded searched = true
               /\ forall path,
                   In (AppImageManagerGUI.LoadAppsFromFile path)
                      (AppImageManagerGUI.effects searched) ->
                   In (AppImageManagerGUI.LoadAppsFromFile path)
                      (AppImageManagerGUI.effects self)).
  { unfold searched, AppImageManagerGUI.text_changed,
      AppImageManagerGUI.on_search_text_changed,
      AppImageManagerGUI.perform_search.
    destruct (2 <=? Py.len text)%nat; [|cbn; auto].
    destruct (negb (Py.truthy _)); cbn; [|auto].
    repeat split. intros path Hin. apply in_app_or in Hin as [Hin|[Hin|[]]];
      [exact Hin | discriminate]. }
  destruct Hs as (Hc & Hl & He).
  unfold back, AppImageManagerGUI.on_tab_changed. cbn [Z.eqb Pos.eqb].
  rewrite Hl. cbn. rewrite Hc. auto.
Qed.

(** ** The actions on the selected row *)

Section ActionFacts.

Import AppListModel Actions.

Lemma data_row (apps : list app) row name description is_app :
  nth_error apps row = Some (name, description, is_app) ->
  data apps (Row row) (UserRole + 1) = Some (PyBool is_app)
  /\ data apps (Row row) UserRole = Some (PyStr name)
  /\ data apps (Row row) DisplayRole = Some (PyStr name)
  /\ data apps (Row row) ToolTipRole = Some (PyStr description).
Proof. intros H. unfold data. rewrite H. repeat split. Qed.

Lemma update_on_row (apps : list app) row name description is_app :
  nth_error apps row = Some (name, description, is_app) ->
  update_appimage apps (Row row)
  = Some (if negb is_app
          then [Warning (Py.lit "Invalid Selection")
                  (Py.lit "Please select a valid application to update.")]
          else if negb (Py.truthy name)
          then [Warning (Py.lit "No Application Name")
                  (Py.lit "Application name not found.")]
          else [RunScriptAsync [Py.lit "-u"; name]]).
Proof.
  intros H. destruct (data_row _ _ _ _ _ H) as (E1 & E2 & _).
  unfold update_appimage. cbn [isValid negb]. rewrite E1, E2. cbn [truthy text_of].
  destruct is_app; [|reflexivity]. cbn [negb].
  destruct (Py.truthy name); reflexivity.
Qed.

Lemma remove_on_row (apps : list app) row name description is_app reply :
  nth_error apps row = Some (name, description, is_app) ->
  remove_appimage apps (Row row) reply
  = Some (if negb is_app
          then [Warning (Py.lit "Invalid Selection")
                  (Py.lit "Please select a valid application to remove.")]
          else if negb (Py.truthy name)
          then [Warning (Py.lit "No Application Name")
                  (Py.lit "Application name not found.")]
          else
            Question (Py.lit "Confirm Removal")
                     (Py.lit "Are you sure you want to remove "
                      ++ name ++ Py.lit "?")
            :: match reply with
               | Yes => [RunScriptAsync [Py.lit "-R"; name]]
               | No => []
               end).
Proof.
  intros H. destruct (data_row _ _ _ _ _ H) as (E1 & E2 & _).
  unfold remove_appimage. cbn [isValid negb]. rewrite E1, E2. cbn [truthy text_of].
  destruct is_app; [|reflexivity]. cbn [negb].
  destruct (Py.truthy name); [|reflexivity]. destruct reply; reflexivity.
Qed.

Lemma install_on_row (apps : list app) row name description is_app :
  nth_error apps row = Some (name, description, is_app) ->
  install_selected_appimage apps (Row row)
  = Some (if negb (Py.truthy name) then []
          else [RunScriptAsync [Py.lit "-i"; name]]).
Proof.
  intros H. destruct (data_row _ _ _ _ _ H) as (_ & E2 & _).
  unfold install_selected_appimage. cbn [isValid negb]. rewrite E2.
  cbn [truthy text_of]. destruct (Py.truthy name); reflexivity.
Qed.

Lemma row_of_some (apps : list app) row :
  (exists v, data apps (Row row) UserRole = Some v) ->
  exists name description is_app,
    nth_error apps row = Some (name, description, is_app).
Proof.
  intros [v H]. unfold data in H.
  destruct (nth_error apps row) as [[[n d] f]|]; [eauto | discriminate].
Qed.

End ActionFacts.

(** X12.  Each of update, remove and install starts a command exactly
    when the index is a valid row with a name that is not empty, and then
    the command is the flag of that action, [-u], [-R] or [-i], followed
    by exactly that name.  Update and remove start it only for a row
    flagged as an app, and remove only after the answer Yes. *)
Theorem actions_launch_with_row_name (apps : list app)
        (index : AppListModel.QModelIndex) (reply : Actions.StandardButton)
        (args : list str) :
  (forall events,
      Actions.update_appimage apps index = Some events ->
      (In (Actions.RunScriptAsync args) events <->
       exists row name description,
         index = AppListModel.Row row
         /\ nth_error apps row = Some (name, description, true)
         /\ name <> []
         /\ args = [Py.lit "-u"; name]))
  /\ (forall events,
         Actions.remove_appimage apps index reply = Some events ->
         (In (Actions.RunScriptAsync args) events <->
          exists row name description,
            index = AppListModel.Row row
            /\ nth_error apps row = Some (name, description, true)
            /\ name <> []
            /\ reply = Actions.Yes
            /\ args = [Py.lit "-R"; name]))
  /\ (forall events,
         Actions.install_selected_appimage apps index = Some events ->
         (In (Actions.RunScriptAsync args) events <->
          exists row name description is_app,
            index = AppListModel.Row row
            /\ nth_error apps row = Some (name, description, is_app)
            /\ name <> []
            /\ args = [Py.lit "-i"; name])).
Proof.
  destruct index as [|row].
  { split; [|split]; intros events E; cbn in E; injection E as <-;
      (split;
       [ intros [Hin|[]]; discriminate
       | intros (r & n & d & Hex); try destruct Hex as (f & Hex);
         destruct Hex as [Hex _]; discriminate ]). }
  destruct (nth_error apps row) as [[[name description] is_app]|] eqn:Hrow.
  2:{ split; [|split]; intros events E; exfalso;
        cbv [Actions.update_appimage Actions.remove_appimage
             Actions.install_selected_appimage AppListModel.isValid
             AppListModel.data negb] in E;
        rewrite Hrow in E; discriminate. }
  split; [|split]; intros events H.
  - rewrite (update_on_row _ _ _ _ _ Hrow) in H. injection H as <-.
    split.
    + intros Hin.
      destruct is_app; cbn [negb] in Hin;
        [|destruct Hin as [Hin|[]]; discriminate].
      destruct name as [|c name]; cbn [Py.truthy negb] in Hin;
        destruct Hin as [Hin|[]]; [discriminate|].
      injection Hin as <-. exists row, (c :: name), description.
      repeat split; auto; discriminate.
    + intros (row' & name' & d' & [= <-] & E & Hn & ->).
      rewrite Hrow in E. injection E as -> -> ->.
      destruct name' as [|c name']; [contradiction|]. left. reflexivity.
  - rewrite (remove_on_row _ _ _ _ _ _ Hrow) in H. injection H as <-.
    split.
    + intros Hin.
      destruct is_app; cbn [negb] in Hin;
        [|destruct Hin as [Hin|[]]; discriminate].
      destruct name as [|c name]; cbn [Py.truthy negb] in Hin;
        [destruct Hin as [Hin|[]]; discriminate|].
      destruct Hin as [Hin|Hin]; [discriminate|].
      destruct reply; [|destruct Hin]. destruct Hin as [Hin|[]].
      injection Hin as <-. exists row, (c :: name), description.
      repeat split; auto; discriminate.
    + intros (row' & name' & d' & [= <-] & E & Hn & -> & ->).
      rewrite Hrow in E. injection E as -> -> ->.
      destruct name' as [|c name']; [contradiction|]. right. left. reflexivity.
  - rewrite (install_on_row _ _ _ _ _ Hrow) in H. injection H as <-.
    split.
    + intros Hin.
      destruct name as [|c name]; cbn [Py.truthy negb] in Hin; [destruct Hin|].
      destruct Hin as [Hin|[]]. injection Hin as <-.
      exists row, (c :: name), description, is_app.
      repeat split; auto; discriminate.
    + intros (row' & name' & d' & f' & [= <-] & E & Hn & ->).
      rewrite Hrow in E. injection E as -> -> ->.
      destruct name' as [|c name']; [contradiction|]. left. reflexivity.
Qed.

(** Removing the second row after the answer Yes. *)
Lemma actions_launch_with_row_name_witness :
  let apps := [(Py.lit "gimp", [], true); (Py.lit "vlc", [], true)] in
  let events :=
    [Actions.Question (Py.lit "Confirm Removal")
       (Py.lit "Are you sure you want to remove vlc?");
     Actions.RunScriptAsync [Py.lit "-R"; Py.lit "vlc"]] in
  Actions.remove_appimage apps (AppListModel.Row 1) Actions.Yes = Some events
  /\ exists row name description,
       AppListModel.Row 1 = AppListModel.Row row
       /\ nth_error apps row = Some (name, description, true)
       /\ name <> []
       /\ Actions.Yes = Actions.Yes
       /\ [Py.lit "-R"; Py.lit "vlc"] = [Py.lit "-R"; name].
Proof.
  intros apps events. split; [reflexivity|].
  refine (proj1 (proj1 (proj2 (actions_launch_with_row_name apps
                                 (AppListModel.Row 1) Actions.Yes
                                 [Py.lit "-R"; Py.lit "vlc"]))
                       events eq_refl) _).
  right. left. reflexivity.
Defined.

(** X13.  On a list that the installed-apps refresh has built, update
    never reports an invalid selection: for each row it starts
    [-u <name>] with the name of the row, or, when that name is empty,
    reports that the name is missing. *)
Theorem update_on_refreshed_list (output : str) (row : nat)
        (name description : str) (is_app : bool) :
  nth_error (AppImageManagerGUI.refresh_installed_apps_callback output) row
  = Some (name, description, is_app) ->
  Actions.update_appimage
    (AppImageManagerGUI.refresh_installed_apps_callback output)
    (AppListModel.Row row)
  = Some (if Py.truthy name
          then [Actions.RunScriptAsync [Py.lit "-u"; name]]
          else [Actions.Warning (Py.lit "No Application Name")
                  (Py.lit "Application name not found.")]).
Proof.
  intros H. rewrite (update_on_row _ _ _ _ _ H).
  assert (is_app = true) as ->.
  { apply nth_error_In in H. rewrite refresh_spec in H.
    apply in_map_iff in H as (l & E & _). unfold installed_entry in E.
    congruence. }
  cbn [negb]. destruct (Py.truthy name); reflexivity.
Qed.

Lemma update_on_refreshed_list_witness :
  Actions.update_appimage
    (AppImageManagerGUI.refresh_installed_apps_callback (Py.lit "◆"))
    (AppListModel.Row 0)
  = Some [Actions.Warning (Py.lit "No Application Name")
            (Py.lit "Application name not found.")].
Proof.
  exact (update_on_refreshed_list (Py.lit "◆") 0 [] [] true eq_refl).
Defined.

(** ** The threads of the window *)

Section ThreadFacts.

Import Threads.

Lemma list_remove_last x (l : list nat) :
  ~ In x l -> list_remove x (l ++ [x]) = l.
Proof.
  induction l as [|y l IH]; intros H; cbn.
  - rewrite Nat.eqb_refl. reflexivity.
  - destruct (Nat.eqb_spec x y) as [->|_].
    + exfalso. apply H. left. reflexivity.
    + f_equal. apply IH. intros Hin. apply H. right. exact Hin.
Qed.

Lemma existsb_last x (l : list nat) : existsb (Nat.eqb x) (l ++ [x]) = true.
Proof.
  rewrite existsb_app. cbn. rewrite Nat.eqb_refl, orb_true_r. reflexivity.
Qed.

End ThreadFacts.

(** X14.  [run_script_async] leaves each of the eight controls disabled
    and the progress dialog shown, with the new thread and the new worker
    at the end of the two lists.  [on_thread_finished] enables each of
    the eight controls and closes the dialog, whichever thread sent the
    signal; for the thread of that launch, a new object, the list of
    threads is then what it was before the launch, and the worker stays
    in the list of workers. *)
Theorem launch_and_finish (thread worker : nat) (self : Threads.window) :
  ~ In thread (Threads.threads self) ->
  let disabled :=
    {| Threads.tabs := false; Threads.update_button := false;
       Threads.remove_button := false; Threads.update_all_button := false;
       Threads.refresh_button := false; Threads.install_button := false;
       Threads.search_box := false; Threads.search_button := false |} in
  let all_enabled :=
    {| Threads.tabs := true; Threads.update_button := true;
       Threads.remove_button := true; Threads.update_all_button := true;
       Threads.refresh_button := true; Threads.install_button := true;
       Threads.search_box := true; Threads.search_button := true |} in
  let running := Threads.run_script_async thread worker self in
  let after := Threads.on_thread_finished thread running in
  Threads.enabled running = disabled
  /\ Threads.progress_dialog running = Some (Py.lit "Processing...")
  /\ Threads.threads running = Threads.threads self ++ [thread]
  /\ Threads.workers running = Threads.workers self ++ [worker]
  /\ Threads.enabled after = all_enabled
  /\ Threads.progress_dialog after = None
  /\ Threads.threads after = Threads.threads self
  /\ Threads.workers after = Threads.workers self ++ [worker]
  /\ (forall sender w,
         Threads.enabled (Threads.on_thread_finished sender w) = all_enabled
         /\ Threads.progress_dialog (Threads.on_thread_finished sender w)
            = None).
Proof.
  intros H disabled all_enabled running after.
  split; [reflexivity|]. split; [reflexivity|].
  split; [reflexivity|]. split; [reflexivity|].
  assert (G : forall sender w,
             Threads.enabled (Threads.on_thread_finished sender w) = all_enabled
             /\ Threads.progress_dialog (Threads.on_thread_finished sender w)
                = None).
  { intros sender w. unfold Threads.on_thread_finished.
    cbn [Threads.threads Threads.set_ui_enabled].
    destruct (existsb (Nat.eqb sender) (Threads.threads w));
      split; reflexivity. }
  split; [apply G|]. split; [apply G|]. split; [|split; [|exact G]].
  - unfold after, Threads.on_thread_finished, running, Threads.run_script_async.
    cbn [Threads.threads Threads.workers Threads.enabled
         Threads.progress_dialog Threads.set_ui_enabled].
    rewrite existsb_last. cbn [Threads.threads].
    apply list_remove_last, H.
  - unfold after, Threads.on_thread_finished, running, Threads.run_script_async.
    cbn [Threads.threads Threads.workers Threads.enabled
         Threads.progress_dialog Threads.set_ui_enabled].
    destruct (existsb _ _); reflexivity.
Qed.

Lemma launch_and_finish_witness :
  let all_enabled :=
    {| Threads.tabs := true; Threads.update_button := true;
       Threads.remove_button := true; Threads.update_all_button := true;
       Threads.refresh_button := true; Threads.install_button := true;
       Threads.search_box := true; Threads.search_button := true |} in
  let self :=
    {| Threads.enabled := all_enabled;
       Threads.progress_dialog := None;
       Threads.threads := [7%nat];
       Threads.workers := [8%nat] |} in
  Threads.enabled (Threads.run_script_async 9 10 self)
  = {| Threads.tabs := false; Threads.update_button := false;
       Threads.remove_button := false; Threads.update_all_button := false;
       Threads.refresh_button := false; Threads.install_button := false;
       Threads.search_box := false; Threads.search_button := false |}.
Proof.
  intros all_enabled self.
  refine (proj1 (launch_and_finish 9 10 self _)).
  cbn. lia.
Defined.

(** ** The suggested applications *)

Section SuggestedFacts.

Import SuggestedAppsLoader.

Lemma dict_get_absent key (members : list (str * json)) : forall default,
  (forall v, ~ In (key, v) members) -> dict_get key members default = default.
Proof.
  induction members as [|[k v] rest IH]; intros default H; [reflexivity|].
  cbn [dict_get]. case_bool_decide as E.
  - exfalso. apply (H v). left. congruence.
  - apply IH. intros v' Hin. apply (H v'). right. exact Hin.
Qed.

Lemma dict_get_last key v (before after : list (str * json)) : forall default,
  (forall v', ~ In (key, v') after) ->
  dict_get key (before ++ (key, v) :: after) default = v.
Proof.
  induction before as [|[k w] before IH]; intros default H.
  - rewrite app_nil_l. cbn [dict_get].
    rewrite bool_decide_eq_true_2 by reflexivity.
    apply dict_get_absent, H.
  - rewrite <- app_comm_cons. cbn [dict_get]. apply IH, H.
Qed.

End SuggestedFacts.

(** X15.  The loader hands the default sample to [apps_loaded.emit] when
    the request raises, when the status is not 200, when the body is not
    JSON, when the JSON document is not an object, and when printing the
    value it has read raises.  Otherwise, for an object, it hands over
    the value of the last ["suggested_apps"] member, and an empty list,
    not the sample, when there is no such member. *)
Theorem suggested_apps_emitted
        (print_raises : SuggestedAppsLoader.json -> bool) :
  let run := SuggestedAppsLoader.run print_raises in
  run SuggestedAppsLoader.GetRaises = SuggestedAppsLoader.default_sample
  /\ (forall status_code parsed,
        status_code <> 200%Z ->
        run (SuggestedAppsLoader.Response status_code parsed)
        = SuggestedAppsLoader.default_sample)
  /\ run (SuggestedAppsLoader.Response 200 None)
     = SuggestedAppsLoader.default_sample
  /\ (forall data,
        (forall members, data <> SuggestedAppsLoader.JObject members) ->
        run (SuggestedAppsLoader.Response 200 (Some data))
        = SuggestedAppsLoader.default_sample)
  /\ (forall members,
        (forall v, ~ In (Py.lit "suggested_apps", v) members) ->
        run (SuggestedAppsLoader.Response 200
               (Some (SuggestedAppsLoader.JObject members)))
        = if print_raises (SuggestedAppsLoader.JArray [])
          then SuggestedAppsLoader.default_sample
          else SuggestedAppsLoader.JArray [])
  /\ (forall before v after,
        (forall v', ~ In (Py.lit "suggested_apps", v') after) ->
        run (SuggestedAppsLoader.Response 200
               (Some (SuggestedAppsLoader.JObject
                        (before ++ (Py.lit "suggested_apps", v) :: after))))
        = if print_raises v then SuggestedAppsLoader.default_sample else v).
Proof.
  intros run.
  split; [reflexivity|]. split; [|split; [reflexivity|split; [|split]]].
  - intros sc parsed H. unfold run, SuggestedAppsLoader.run,
      SuggestedAppsLoader.try_block.
    destruct (Z.eqb_spec sc 200); [contradiction | reflexivity].
  - intros data H. destruct data; try reflexivity.
    destruct (H members eq_refl).
  - intros members H. unfold run, SuggestedAppsLoader.run,
      SuggestedAppsLoader.try_block.
    cbn [Z.eqb Pos.eqb]. rewrite (dict_get_absent _ _ _ H).
    destruct (print_raises _); reflexivity.
  - intros before v after H. unfold run, SuggestedAppsLoader.run,
      SuggestedAppsLoader.try_block.
    cbn [Z.eqb Pos.eqb]. rewrite (dict_get_last _ _ _ _ _ H).
    destruct (print_raises v); reflexivity.
Qed.

(** On a standard output in UTF-8, a ["suggested_apps"] member that is a
    string with a lone surrogate cannot be printed, and the sample is
    handed over; a list is handed over as it is. *)
Lemma suggested_apps_emitted_witness :
  let run := SuggestedAppsLoader.run SuggestedAppsLoader.utf8_print_raises in
  run (SuggestedAppsLoader.Response 200
         (Some (SuggestedAppsLoader.JObject
                  [(Py.lit "suggested_apps",
                    SuggestedAppsLoader.JString [55296; 32; 97])])))
  = SuggestedAppsLoader.default_sample
  /\ run (SuggestedAppsLoader.Response 200
            (Some (SuggestedAppsLoader.JObject
                     [(Py.lit "suggested_apps",
                       SuggestedAppsLoader.JArray
                         [SuggestedAppsLoader.JString [55296]])])))
     = SuggestedAppsLoader.JArray [SuggestedAppsLoader.JString [55296]].
Proof.
  intros run. split.
  - refine (proj2 (proj2 (proj2 (proj2 (proj2
              (suggested_apps_emitted SuggestedAppsLoader.utf8_print_raises)))))
              [] (SuggestedAppsLoader.JString [55296; 32; 97]) [] _).
    intros v' [].
  - refine (proj2 (proj2 (proj2 (proj2 (proj2
              (suggested_apps_emitted SuggestedAppsLoader.utf8_print_raises)))))
              [] (SuggestedAppsLoader.JArray
                    [SuggestedAppsLoader.JString [55296]]) [] _).
    intros v' [].
Defined.

(** ** The bootstrap sequence *)

Section SetupFacts.

Import Setup.

Lemma bind_eq {A B} (m : M A) (k : A -> M B) (w : fs) :
  bind m k w = match m w with
               | (w', Normal a) => k a w'
               | (w', Return v) => (w', Return v)
               | (w', Raise x) => (w', Raise x)
               end.
Proof. reflexivity. Qed.

Lemma is_installed_eq (e : env) (p : str) (w : fs) :
  is_installed e p w =
  match dpkg e p w with
  | (w', inl returncode) => (w', Normal (returncode =? 0)%Z)
  | (w', inr x) => if is_Exception x then (w', Normal false) else (w', Raise x)
  end.
Proof.
  unfold is_installed, try_except, mbind, M_bind, bind, call, mret, M_ret, ret.
  destruct (dpkg e p w) as [w' [rc|x]]; [reflexivity|].
  destruct (is_Exception x); reflexivity.
Qed.

Lemma is_installed_never_returns (e : env) (p : str) (w w' : fs) v :
  is_installed e p w <> (w', Return v).
Proof.
  rewrite is_installed_eq. destruct (dpkg e p w) as [w1 [rc|x]]; [discriminate|].
  destruct (is_Exception x); discriminate.
Qed.

(** The missing packages come in the order of the list. *)
Lemma missing_of_sublist (e : env) (deps : list str) : forall w w1 missing,
  missing_of e deps w = (w1, Normal missing) -> sublist missing deps.
Proof.
  induction deps as [|dep rest IH]; intros w w1 missing H.
  - injection H as _ <-. constructor.
  - cbn [missing_of] in H. rewrite bind_eq in H.
    destruct (is_installed e dep w) as [w2 [present|v|x]]; try discriminate.
    rewrite bind_eq in H.
    destruct (missing_of e rest w2) as [w3 [others|v|x]] eqn:E; try discriminate.
    injection H as _ <-. apply IH in E.
    destruct present; cbn [negb]; [apply sublist_cons | apply sublist_skip];
      exact E.
Qed.

Lemma missing_of_none (e : env) (deps : list str) :
  (forall dep w, In dep deps -> exists w', dpkg e dep w = (w', inl 0%Z)) ->
  forall w, exists w', missing_of e deps w = (w', Normal [])
                       /\ forall e', dpkg e' = dpkg e ->
                                     missing_of e' deps w = (w', Normal []).
Proof.
  induction deps as [|dep rest IH]; intros H w.
  - exists w. split; reflexivity.
  - destruct (H dep w (or_introl eq_refl)) as [w1 E1].
    destruct (IH (fun d w Hd => H d w (or_intror Hd)) w1) as (w2 & E2 & E2').
    exists w2. split.
    + cbn [missing_of]. rewrite bind_eq, is_installed_eq, E1, bind_eq, E2.
      reflexivity.
    + intros e' He. cbn [missing_of].
      rewrite bind_eq, is_installed_eq, He, E1, bind_eq, (E2' e' He).
      reflexivity.
Qed.

Lemma install_dependencies_eq (e : env) (w : fs) :
  install_dependencies e w =
  match missing_of e dependencies w with
  | (w1, Normal []) => (w1, Return true)
  | (w1, Normal (d :: ds)) =>
    match pkexec e (install_argv (d :: ds)) w1 with
    | (w2, inl _) => (w2, Return true)
    | (w2, inr x) =>
      if is_CalledProcessError x then
        match critical e w2 with
        | (w3, inl _) => (w3, Return false)
        | (w3, inr y) => (w3, Raise y)
        end
      else (w2, Raise x)
    end
  | (w1, Return v) => (w1, Return v)
  | (w1, Raise x) => (w1, Raise x)
  end.
Proof.
  unfold install_dependencies, mbind, M_bind. rewrite bind_eq.
  destruct (missing_of e dependencies w) as [w1 [[|d ds]|v|x]]; try reflexivity.
  rewrite bind_eq. unfold try_except, call.
  destruct (pkexec e (install_argv (d :: ds)) w1) as [w2 [[]|x]]; [reflexivity|].
  destruct (is_CalledProcessError x); [|reflexivity].
  rewrite bind_eq. destruct (critical e w2) as [w3 [[]|y]]; reflexivity.
Qed.

End SetupFacts.

(** X16.  When [dpkg] reports every dependency as installed,
    [install_dependencies] returns [True], and neither [pkexec] nor a
    dialog has a part in it. *)
Theorem dependencies_all_present (e : Setup.env) (w : fs) :
  (forall dep w, In dep Setup.dependencies ->
                 exists w', Setup.dpkg e dep w = (w', inl 0%Z)) ->
  exists w',
    Setup.install_dependencies e w = (w', Return true)
    /\ forall e', Setup.dpkg e' = Setup.dpkg e ->
                  Setup.install_dependencies e' w = (w', Return true).
Proof.
  intros H. destruct (missing_of_none e Setup.dependencies H w) as (w' & E & E').
  exists w'. split.
  - rewrite install_dependencies_eq, E. reflexivity.
  - intros e' He. rewrite install_dependencies_eq, (E' e' He). reflexivity.
Qed.

(** X17.  When some dependency is missing, [pkexec apt install -y] is run
    once, with the missing packages in the order of the dependency list.
    If it succeeds the result is [True]; if it fails with
    [CalledProcessError] a dialog is shown and the result is [False]; any
    other exception it raises leaves [install_dependencies] unhandled. *)
Theorem dependencies_missing (e : Setup.env) (w w1 : fs)
        (missing : list str) :
  Setup.missing_of e Setup.dependencies w = (w1, Normal missing) ->
  missing <> [] ->
  sublist missing Setup.dependencies
  /\ match Setup.pkexec e (Setup.install_argv missing) w1 with
     | (w2, inl _) => Setup.install_dependencies e w = (w2, Return true)
     | (w2, inr CalledProcessError) =>
       forall w3, Setup.critical e w2 = (w3, inl tt) ->
                  Setup.install_dependencies e w = (w3, Return false)
     | (w2, inr x) => Setup.install_dependencies e w = (w2, Raise x)
     end.
Proof.
  intros E Hne. split; [eapply missing_of_sublist, E|].
  rewrite install_dependencies_eq, E.
  destruct missing as [|d ds]; [contradiction|].
  destruct (Setup.pkexec e (Setup.install_argv (d :: ds)) w1) as [w2 [[]|x]];
    [reflexivity|].
  destruct x; cbn [Setup.is_CalledProcessError]; try reflexivity.
  intros w3 ->. reflexivity.
Qed.

Lemma dependencies_all_present_witness :
  let quiet := fun A (a : A) (w : fs) => (w, @inl A exn a) in
  let e := {| Setup.dpkg := fun _ => quiet _ 0%Z;
              Setup.pkexec := fun _ w => (w, inr OSError);
              Setup.critical := quiet _ tt;
              Setup.installer :=
                {| Bootstrap.wget := quiet _ tt; Bootstrap.chmod := quiet _ tt;
                   Bootstrap.popen := quiet _ tt;
                   Bootstrap.communicate := quiet _ 0%Z;
                   Bootstrap.stderr_read := quiet _ [];
                   Bootstrap.critical := quiet _ tt |};
              Setup.appman_popen := quiet _ tt;
              Setup.appman_communicate := fun _ => quiet _ 0%Z;
              Setup.appman_stderr_read := quiet _ [] |} in
  exists w',
    Setup.install_dependencies e ∅ = (w', Return true)
    /\ forall e', Setup.dpkg e' = Setup.dpkg e ->
                  Setup.install_dependencies e' ∅ = (w', Return true).
Proof.
  intros quiet e. apply (dependencies_all_present e ∅).
  intros dep w _. exists w. reflexivity.
Defined.

Lemma dependencies_missing_witness :
  let quiet := fun A (a : A) (w : fs) => (w, @inl A exn a) in
  let e := {| Setup.dpkg := fun _ => quiet _ 1%Z;
              Setup.pkexec := fun _ w => (w, inr OSError);
              Setup.critical := quiet _ tt;
              Setup.installer :=
                {| Bootstrap.wget := quiet _ tt; Bootstrap.chmod := quiet _ tt;
                   Bootstrap.popen := quiet _ tt;
                   Bootstrap.communicate := quiet _ 0%Z;
                   Bootstrap.stderr_read := quiet _ [];
                   Bootstrap.critical := quiet _ tt |};
              Setup.appman_popen := quiet _ tt;
              Setup.appman_communicate := fun _ => quiet _ 0%Z;
              Setup.appman_stderr_read := quiet _ [] |} in
  sublist Setup.dependencies Setup.dependencies
  /\ Setup.install_dependencies e ∅ = (∅, Raise OSError).
Proof.
  intros quiet e.
  refine (dependencies_missing e ∅ ∅ Setup.dependencies eq_refl _).
  discriminate.
Defined.

Section SequenceFacts.

Import Setup.

Variable appman_path : str.
Variable install_dir : str.

Lemma returned_eq (body : M unit) (w : fs) :
  returned body w = match body w with
                    | (w', Normal _) => (w', Normal false)
                    | (w', Return v) => (w', Normal v)
                    | (w', Raise x) => (w', Raise x)
                    end.
Proof. reflexivity. Qed.

(** The sequence, step by step. *)
Lemma install_appman_if_missing_eq (e : env) (w : fs) :
  install_appman_if_missing appman_path install_dir e w =
  if Os.path_exists w appman_path then (w, Return true)
  else
    match install_dependencies e w with
    | (w1, Raise x) => (w1, Raise x)
    | (w1, Return true) =>
      match Bootstrap.download_and_run_am_installer (installer e) w1 with
      | (w2, Raise x) => (w2, Raise x)
      | (w2, Return true) =>
        if Os.path_exists w2 appman_path then
          match configure_appman_directory e install_dir w2 with
          | (w3, Raise x) => (w3, Raise x)
          | (w3, Return true) => (w3, Return true)
          | (w3, _) => (w3, Return false)
          end
        else
          match critical e w2 with
          | (w3, inl _) => (w3, Return false)
          | (w3, inr x) => (w3, Raise x)
          end
      | (w2, _) => (w2, Return false)
      end
    | (w1, _) => (w1, Return false)
    end.
Proof.
  unfold install_appman_if_missing. rewrite bind_eq. unfold path_exists at 1.
  destruct (Os.path_exists w appman_path); [reflexivity|].
  rewrite bind_eq, returned_eq.
  destruct (install_dependencies e w) as [w1 [[]|[|]|x]]; try reflexivity.
  cbn [negb]. rewrite bind_eq, returned_eq.
  destruct (Bootstrap.download_and_run_am_installer (installer e) w1)
    as [w2 [[]|[|]|x]]; try reflexivity.
  cbn [negb]. rewrite bind_eq. unfold path_exists.
  destruct (Os.path_exists w2 appman_path); cbn [negb].
  - rewrite bind_eq, returned_eq.
    destruct (configure_appman_directory e install_dir w2)
      as [w3 [[]|[|]|x]]; reflexivity.
  - unfold mbind, M_bind. rewrite bind_eq. unfold call.
    destruct (critical e w2) as [w3 [[]|x]]; reflexivity.
Qed.

End SequenceFacts.

(** X18.  When the backend executable is already there,
    [install_appman_if_missing] returns [True] at once: no package is
    checked, nothing is downloaded or run, no file is touched. *)
Theorem appman_present_nothing_done (appman_path install_dir : str)
        (e : Setup.env) (w : fs) :
  Os.path_exists w appman_path = true ->
  Setup.install_appman_if_missing appman_path install_dir e w
  = (w, Return true).
Proof.
  intros H. rewrite install_appman_if_missing_eq, H. reflexivity.
Qed.

(** X19.  [install_appman_if_missing] returns [True] only when the
    executable was there from the start, or when the dependencies, the
    installer and the configuration each returned [True], in that order,
    and the executable existed once the installer had run.  When the
    dependencies cannot be installed, the installer is not run. *)
Theorem bootstrap_sequence (appman_path install_dir : str)
        (e : Setup.env) (w : fs) :
  (forall w', Setup.install_appman_if_missing appman_path install_dir e w
              = (w', Return true) ->
     (Os.path_exists w appman_path = true /\ w' = w)
     \/ exists w1 w2,
         Os.path_exists w appman_path = false
         /\ Setup.install_dependencies e w = (w1, Return true)
         /\ Bootstrap.download_and_run_am_installer (Setup.installer e) w1
            = (w2, Return true)
         /\ Os.path_exists w2 appman_path = true
         /\ Setup.configure_appman_directory e install_dir w2
            = (w', Return true))
  /\ (forall w1,
        Os.path_exists w appman_path = false ->
        Setup.install_dependencies e w = (w1, Return false) ->
        Setup.install_appman_if_missing appman_path install_dir e w
        = (w1, Return false)).
Proof.
  split.
  - intros w' H. rewrite install_appman_if_missing_eq in H.
    destruct (Os.path_exists w appman_path) eqn:E0.
    { injection H as <-. left. auto. }
    right.
    destruct (Setup.install_dependencies e w) as [w1 [[]|[|]|x]] eqn:E1;
      try discriminate.
    destruct (Bootstrap.download_and_run_am_installer (Setup.installer e) w1)
      as [w2 [[]|[|]|x]] eqn:Ed; try discriminate.
    destruct (Os.path_exists w2 appman_path) eqn:E2.
    + destruct (Setup.configure_appman_directory e install_dir w2)
        as [w3 [[]|[|]|x]] eqn:E3; try discriminate.
      injection H as <-. exists w1, w2. repeat split; assumption.
    + destruct (Setup.critical e w2) as [w3 [[]|x]]; discriminate.
  - intros w1 E0 E1. rewrite install_appman_if_missing_eq, E0, E1. reflexivity.
Qed.

Lemma appman_present_nothing_done_witness :
  let quiet := fun A (a : A) (w : fs) => (w, @inl A exn a) in
  let e := {| Setup.dpkg := fun _ => quiet _ 1%Z;
              Setup.pkexec := fun _ w => (w, inr CalledProcessError);
              Setup.critical := quiet _ tt;
              Setup.installer :=
                {| Bootstrap.wget := quiet _ tt; Bootstrap.chmod := quiet _ tt;
                   Bootstrap.popen := quiet _ tt;
                   Bootstrap.communicate := quiet _ 0%Z;
                   Bootstrap.stderr_read := quiet _ [];
                   Bootstrap.critical := quiet _ tt |};
              Setup.appman_popen := quiet _ tt;
              Setup.appman_communicate := fun _ => quiet _ 0%Z;
              Setup.appman_stderr_read := quiet _ [] |} in
  let appman := Py.lit "/home/u/.local/bin/appman" in
  let w : fs := {[ appman := File [] ]} in
  Setup.install_appman_if_missing appman (Py.lit "/home/u/.tai") e w
  = (w, Return true).
Proof.
  intros quiet e appman w.
  exact (appman_present_nothing_done appman (Py.lit "/home/u/.tai") e w eq_refl).
Defined.

Lemma bootstrap_sequence_witness :
  let quiet := fun A (a : A) (w : fs) => (w, @inl A exn a) in
  let e := {| Setup.dpkg := fun _ => quiet _ 1%Z;
              Setup.pkexec := fun _ w => (w, inr CalledProcessError);
              Setup.critical := quiet _ tt;
              Setup.installer :=
                {| Bootstrap.wget := quiet _ tt; Bootstrap.chmod := quiet _ tt;
                   Bootstrap.popen := quiet _ tt;
                   Bootstrap.communicate := quiet _ 0%Z;
                   Bootstrap.stderr_read := quiet _ [];
                   Bootstrap.critical := quiet _ tt |};
              Setup.appman_popen := quiet _ tt;
              Setup.appman_communicate := fun _ => quiet _ 0%Z;
              Setup.appman_stderr_read := quiet _ [] |} in
  Setup.install_appman_if_missing (Py.lit "/home/u/.local/bin/appman")
                                  (Py.lit "/home/u/.tai") e ∅
  = (∅, Return false).
Proof.
  intros quiet e.
  exact (proj2 (bootstrap_sequence (Py.lit "/home/u/.local/bin/appman")
                  (Py.lit "/home/u/.tai") e ∅) ∅ eq_refl eq_refl).
Defined.

(** ** More on the installer step *)

Section InstallerFacts.

Import Bootstrap.

Lemma try_body_eq (e : env) (w : fs) :
  try_body e w =
  match wget e w with
  | (w1, inr x) => (w1, Raise x)
  | (w1, inl _) =>
    match chmod e w1 with
    | (w2, inr x) => (w2, Raise x)
    | (w2, inl _) =>
      match popen e w2 with
      | (w3, inr x) => (w3, Raise x)
      | (w3, inl _) =>
        match communicate e w3 with
        | (w4, inr x) => (w4, Raise x)
        | (w4, inl returncode) =>
          if negb (returncode =? 0)%Z then
            match stderr_read e w4 with
            | (w5, inr x) => (w5, Raise x)
            | (w5, inl _) =>
              match critical e w5 with
              | (w6, inr x) => (w6, Raise x)
              | (w6, inl _) => (w6, Return false)
              end
            end
          else (w4, Normal tt)
        end
      end
    end
  end.
Proof.
  unfold try_body, mbind, M_bind, bind, call, mret, M_ret, ret, return_.
  destruct (wget e w) as [w1 [[]|x]]; [|reflexivity].
  destruct (chmod e w1) as [w2 [[]|x]]; [|reflexivity].
  destruct (popen e w2) as [w3 [[]|x]]; [|reflexivity].
  destruct (communicate e w3) as [w4 [rc|x]]; [|reflexivity].
  destruct (negb (rc =? 0)%Z); [|reflexivity].
  destruct (stderr_read e w4) as [w5 [s|x]]; [|reflexivity].
  destruct (critical e w5) as [w6 [[]|x]]; reflexivity.
Qed.

Lemma except_Exception_eq (e : env) (x : exn) (w : fs) :
  except_Exception e x w =
  match critical e w with
  | (w', inl _) => (w', Return false)
  | (w', inr y) => (w', Raise y)
  end.
Proof.
  unfold except_Exception, mbind, M_bind, bind, call, return_.
  destruct (critical e w) as [w' [[]|y]]; reflexivity.
Qed.

Lemma finally_clause_cases (w : fs) :
  (exists w', finally_clause w = (w', Normal tt))
  \/ (exists w' x, finally_clause w = (w', Raise x)).
Proof.
  unfold finally_clause, Os.remove, Os.path_exists.
  destruct (w !! AM_INSTALLER) as [[c|]|]; eauto.
Qed.

End InstallerFacts.

(** An exception raised in the [try] block at state [wi]: whether a
    handler takes it or not, the step does not return [True]. *)
Ltac not_true e wi :=
  destruct (is_Exception _);
  [ rewrite except_Exception_eq;
    let wc := fresh "wc" in
    destruct (Bootstrap.critical e wi) as [wc [[]|?]];
    destruct (finally_clause_cases wc) as [[? ->]|(? & ? & ->)]
  | destruct (finally_clause_cases wi) as [[? ->]|(? & ? & ->)] ];
  discriminate.

(** X20.  The installer step returns [True] only when the download, the
    [chmod] and the start of the installer all succeeded and the
    installer ended with return code 0. *)
Theorem installer_true_only_if_all_succeed (e : Bootstrap.env) (w w' : fs) :
  Bootstrap.download_and_run_am_installer e w = (w', Return true) ->
  exists w1 w2 w3 w4,
    Bootstrap.wget e w = (w1, inl tt)
    /\ Bootstrap.chmod e w1 = (w2, inl tt)
    /\ Bootstrap.popen e w2 = (w3, inl tt)
    /\ Bootstrap.communicate e w3 = (w4, inl 0%Z).
Proof.
  unfold Bootstrap.download_and_run_am_installer, mbind, M_bind.
  rewrite bind_eq. unfold try_except_finally. rewrite try_body_eq.
  destruct (Bootstrap.wget e w) as [w1 [[]|x1]] eqn:E1; [|not_true e w1].
  destruct (Bootstrap.chmod e w1) as [w2 [[]|x2]] eqn:E2; [|not_true e w2].
  destruct (Bootstrap.popen e w2) as [w3 [[]|x3]] eqn:E3; [|not_true e w3].
  destruct (Bootstrap.communicate e w3) as [w4 [rc|x4]] eqn:E4;
    [|not_true e w4].
  destruct (Z.eqb_spec rc 0) as [->|Hrc]; cbn [negb].
  - intros _. exists w1, w2, w3, w4. auto.
  - destruct (Bootstrap.stderr_read e w4) as [w5 [s|x5]]; [|not_true e w5].
    destruct (Bootstrap.critical e w5) as [w6 [[]|x6]]; [|not_true e w6].
    destruct (finally_clause_cases w6) as [[wf ->]|(wf & z & ->)]; discriminate.
Qed.

Lemma installer_true_only_if_all_succeed_witness :
  let quiet := fun A (a : A) (w : fs) => (w, @inl A exn a) in
  let e := {| Bootstrap.wget :=
                fun w => (<[Bootstrap.AM_INSTALLER := File []]> w, inl tt);
              Bootstrap.chmod := quiet _ tt; Bootstrap.popen := quiet _ tt;
              Bootstrap.communicate := quiet _ 0%Z;
              Bootstrap.stderr_read := quiet _ [];
              Bootstrap.critical := quiet _ tt |} in
  exists w1 w2 w3 w4,
    Bootstrap.wget e ∅ = (w1, inl tt)
    /\ Bootstrap.chmod e w1 = (w2, inl tt)
    /\ Bootstrap.popen e w2 = (w3, inl tt)
    /\ Bootstrap.communicate e w3 = (w4, inl 0%Z).
Proof.
  intros quiet e.
  refine (installer_true_only_if_all_succeed e ∅
            (fst (Bootstrap.download_and_run_am_installer e ∅)) _).
  vm_compute. reflexivity.
Defined.

Lemma finally_clause_normal (w : fs) :
  w !! Bootstrap.AM_INSTALLER <> Some Dir ->
  exists w', Bootstrap.finally_clause w = (w', Normal tt).
Proof.
  intros H. unfold Bootstrap.finally_clause, Os.path_exists, Os.remove.
  destruct (w !! Bootstrap.AM_INSTALLER) as [[c|]|]; eauto. contradiction.
Qed.

(** X21.  A run of the installer that ends with a return code other than
    0 makes the step return [False], whether reading the standard error
    of the finished process gives text or raises an [Exception]: either
    way one error dialog is shown. *)
Theorem installer_failure_returns_false (e : Bootstrap.env)
        (w w1 w2 w3 w4 w5 w6 : fs) (returncode : Z) (read : str + exn) :
  Bootstrap.wget e w = (w1, inl tt) ->
  Bootstrap.chmod e w1 = (w2, inl tt) ->
  Bootstrap.popen e w2 = (w3, inl tt) ->
  Bootstrap.communicate e w3 = (w4, inl returncode) ->
  returncode <> 0%Z ->
  Bootstrap.stderr_read e w4 = (w5, read) ->
  match read with inl _ => True | inr x => is_Exception x = true end ->
  Bootstrap.critical e w5 = (w6, inl tt) ->
  w6 !! Bootstrap.AM_INSTALLER <> Some Dir ->
  snd (Bootstrap.download_and_run_am_installer e w) = Return false.
Proof.
  intros E1 E2 E3 E4 Hrc E5 Hread E6 Hdir.
  destruct (finally_clause_normal w6 Hdir) as [wf F].
  unfold Bootstrap.download_and_run_am_installer, mbind, M_bind.
  rewrite bind_eq. unfold try_except_finally.
  rewrite try_body_eq, E1, E2, E3, E4.
  destruct (Z.eqb_spec returncode 0) as [|_]; [contradiction|]. cbn [negb].
  rewrite E5. destruct read as [s|x].
  - rewrite E6, F. reflexivity.
  - rewrite Hread, except_Exception_eq, E6, F. reflexivity.
Qed.

Lemma installer_failure_returns_false_witness :
  let quiet := fun A (a : A) (w : fs) => (w, @inl A exn a) in
  let e := {| Bootstrap.wget :=
                fun w => (<[Bootstrap.AM_INSTALLER := File []]> w, inl tt);
              Bootstrap.chmod := quiet _ tt; Bootstrap.popen := quiet _ tt;
              Bootstrap.communicate := quiet _ 2%Z;
              Bootstrap.stderr_read := fun w => (w, inr ValueError);
              Bootstrap.critical := quiet _ tt |} in
  snd (Bootstrap.download_and_run_am_installer e ∅) = Return false.
Proof.
  intros quiet e.
  set (w1 := <[Bootstrap.AM_INSTALLER := File []]> (∅ : fs)).
  refine (installer_failure_returns_false e ∅ w1 w1 w1 w1 w1 w1 2
            (inr ValueError) eq_refl eq_refl eq_refl eq_refl _ eq_refl
            eq_refl eq_refl _).
  - discriminate.
  - unfold w1. rewrite lookup_insert_eq. discriminate.
Defined.

(** ** More on the icon cache *)

(** X22.  [download_icon] touches two paths at most, the cache directory
    and the cache file of the URL: every other path is after the call
    what it was before. *)
Theorem download_icon_touches_cache_only
        (requests_get : str -> option (list byte)) (url : str)
        (w : Icons.world) (q : str) :
  q <> Icons.ICON_CACHE_DIR -> q <> icon_path url ->
  Icons.files (fst (Icons.download_icon requests_get url w)) !! q
  = Icons.files w !! q.
Proof.
  intros Hd Hp.
  assert (He : Icons.files (Icons.ensure_icon_cache w) !! q = Icons.files w !! q).
  { unfold Icons.ensure_icon_cache.
    destruct (negb (Os.path_exists (Icons.files w) Icons.ICON_CACHE_DIR)); [|reflexivity].
    unfold Os.makedirs. destruct (Icons.files w !! Icons.ICON_CACHE_DIR); [reflexivity|].
    cbn [fst Icons.files]. rewrite lookup_insert_ne by congruence. reflexivity. }
  unfold Icons.download_icon. fold (icon_path url).
  destruct (negb (Os.exists_resolved (Icons.files (Icons.ensure_icon_cache w))
                                     (icon_path url)));
    [|exact He].
  destruct (requests_get url) as [content|]; [|exact He].
  cbn [Icons.files]. rewrite open_write_icon_path.
  destruct (Icons.files (Icons.ensure_icon_cache w) !! Icons.ICON_CACHE_DIR)
    as [[c|]|]; try exact He.
  destruct (Os.names_no_entry (Py.basename url)); [exact He|].
  unfold Os.write_file.
  destruct (Icons.files (Icons.ensure_icon_cache w) !! icon_path url) as [[c|]|];
    cbn [fst Icons.files]; rewrite ?lookup_insert_ne by congruence; exact He.
Qed.

Lemma download_icon_touches_cache_only_witness :
  let get : str -> option (list byte) := fun _ => Some [] in
  let w := {| Icons.files := {[ Py.lit "./notes.txt" := File [] ]};
              Icons.requested := [] |} in
  Icons.files (fst (Icons.download_icon get (Py.lit "http://h/i.png") w))
    !! Py.lit "./notes.txt"
  = Icons.files w !! Py.lit "./notes.txt".
Proof.
  intros get w.
  refine (download_icon_touches_cache_only get (Py.lit "http://h/i.png") w
            (Py.lit "./notes.txt") _ _); discriminate.
Defined.



(** X24.  Whatever the files and the network, the paths that two calls of
    [download_icon] return are equal exactly when the two URLs have the
    same basename, and each one is the name of the cache directory, "/"
    and the basename of its URL. *)
Theorem icon_path_by_basename
        (get1 get2 : str -> option (list byte)) (url1 url2 : str)
        (w w' w1 w2 : Icons.world) (r1 r2 : str) :
  Icons.download_icon get1 url1 w = (w1, Some r1) ->
  Icons.download_icon get2 url2 w' = (w2, Some r2) ->
  r1 = Icons.ICON_CACHE_DIR ++ [47] ++ Py.basename url1
  /\ r2 = Icons.ICON_CACHE_DIR ++ [47] ++ Py.basename url2
  /\ (r1 = r2 <-> Py.basename url1 = Py.basename url2).
Proof.
  intros H1 H2.
  apply download_icon_result in H1 as (-> & _).
  apply download_icon_result in H2 as (-> & _).
  rewrite !icon_path_shape. split; [reflexivity|]. split; [reflexivity|].
  split.
  - intros H. apply app_inv_head in H. apply app_inv_head in H. exact H.
  - intros ->. reflexivity.
Qed.

Lemma icon_path_by_basename_witness :
  let get : str -> option (list byte) := fun _ => Some [] in
  let w := {| Icons.files := ∅; Icons.requested := [] |} in
  let url1 := Py.lit "http://a/x/i.png" in
  let url2 := Py.lit "http://b/j.png" in
  Py.lit "./icon_cache/i.png" = Icons.ICON_CACHE_DIR ++ [47] ++ Py.basename url1
  /\ Py.lit "./icon_cache/j.png"
     = Icons.ICON_CACHE_DIR ++ [47] ++ Py.basename url2
  /\ (Py.lit "./icon_cache/i.png" = Py.lit "./icon_cache/j.png"
      <-> Py.basename url1 = Py.basename url2).
Proof.
  intros get w url1 url2.
  exact (icon_path_by_basename get get url1 url2 w w
           (fst (Icons.download_icon get url1 w))
           (fst (Icons.download_icon get url2 w))
           (Py.lit "./icon_cache/i.png") (Py.lit "./icon_cache/j.png")
           eq_refl eq_refl).
Defined.

(** ** The configuration step *)

(** X25.  [configure_appman_directory] returns [True] exactly when the
    backend could be started and, given the installation directory and a
    newline on its standard input, ended with return code 0. *)
Theorem configure_true_iff (e : Setup.env) (install_dir : str) (w w' : fs) :
  Setup.configure_appman_directory e install_dir w = (w', Return true)
  <-> exists w1,
        Setup.appman_popen e w = (w1, inl tt)
        /\ Setup.appman_communicate e (install_dir ++ [10]) w1 = (w', inl 0%Z).
Proof.
  unfold Setup.configure_appman_directory, try_except, mbind, M_bind, bind,
    call, mret, M_ret, ret, return_.
  destruct (Setup.appman_popen e w) as [w1 [[]|x1]] eqn:E1.
  - destruct (Setup.appman_communicate e (install_dir ++ [10]) w1)
      as [w2 [rc|x2]] eqn:E2.
    + destruct (Z.eqb_spec rc 0) as [->|Hrc]; cbn [negb].
      * split.
        -- intros [= <-]. exists w1. auto.
        -- intros (w1' & [= <-] & H). rewrite E2 in H. injection H as <-.
           reflexivity.
      * split.
        -- destruct (Setup.appman_stderr_read e w2) as [w3 [s|x3]].
           ++ destruct (Setup.critical e w3) as [w4 [[]|x4]];
                [discriminate|].
              destruct (is_Exception x4); [|discriminate].
              destruct (Setup.critical e w4) as [w5 [[]|x5]]; discriminate.
           ++ destruct (is_Exception x3); [|discriminate].
              destruct (Setup.critical e w3) as [w4 [[]|x4]]; discriminate.
        -- intros (w1' & [= <-] & H). rewrite E2 in H. injection H as _ H.
           contradiction.
    + split.
      * destruct (is_Exception x2); [|discriminate].
        destruct (Setup.critical e w2) as [w3 [[]|x3]]; discriminate.
      * intros (w1' & [= <-] & H). rewrite E2 in H. discriminate.
  - split.
    + destruct (is_Exception x1); [|discriminate].
      destruct (Setup.critical e w1) as [w3 [[]|x3]]; discriminate.
    + intros (w1' & [=] & _).
Qed.
